(** * sportx-js: the two relayer clients

    A shallow embedding of the two [SportX] classes of the repository:

    - the legacy client ([src/sportx.ts]), which talks to the relayer over a
      socket.io connection, and
    - the modern client (the mainchain/sidechain client), which talks to the
      relayer over HTTP and keeps an Ably realtime connection.

    Asynchronous methods are functions in a state monad over the client
    instance and the outside world; [await] is the monad's bind.  A method
    resolves, rejects, or never settles.  Promises built by hand from socket
    callbacks and timers are small event machines, run on the events the
    outside world delivers. *)

From Stdlib Require Import String Ascii List ZArith NArith Bool Lia.
From Stdlib Require Import Decimal DecimalString DecimalN Strings.Byte.
Import ListNotations.
Open Scope string_scope.
Set Warnings "-register-all".

(** ** JavaScript values

    Values that reach the client untyped: parsed JSON bodies, socket
    messages, and the arguments on which a method performs a run-time type
    or truthiness test.  Numbers are kept as integers; no method does
    arithmetic on them. *)

Inductive jsval : Type :=
| JUndefined
| JNull
| JBool (b : bool)
| JNum (n : Z)
| JStr (s : string)
| JArr (items : list jsval)
| JObj (fields : list (string * jsval)).

(** [if (v)], [v && ...], [v || ...] *)
Definition truthy (v : jsval) : bool :=
  match v with
  | JUndefined | JNull => false
  | JBool b => b
  | JNum n => negb (n =? 0)%Z
  | JStr s => negb (s =? "")
  | JArr _ | JObj _ => true
  end.

(** [a || b] *)
Definition js_or (a b : jsval) : jsval := if truthy a then a else b.

(** [typeof v === "string"] *)
Definition is_string (v : jsval) : bool :=
  match v with JStr _ => true | _ => false end.

(** [isBoolean(v)] of node's [util] *)
Definition isBoolean (v : jsval) : bool :=
  match v with JBool _ => true | _ => false end.

(** [isArray(v)] of node's [util] *)
Definition isArray (v : jsval) : bool :=
  match v with JArr _ => true | _ => false end.

Fixpoint assoc (k : string) (l : list (string * jsval)) : option jsval :=
  match l with
  | [] => None
  | (k', v) :: l' => if k' =? k then Some v else assoc k l'
  end.

(** [v.k] and [const { k } = v]: a [TypeError] on [undefined] and [null]
    ([None] here), [undefined] when the property is absent.  None of the
    keys read by the clients is a built-in property of a primitive or of an
    array. *)
Definition getProp (v : jsval) (k : string) : option jsval :=
  match v with
  | JUndefined | JNull => None
  | JObj fs => Some (match assoc k fs with Some x => x | None => JUndefined end)
  | _ => Some JUndefined
  end.

(** ** Numbers as text *)

(** [n.toString()] of a non-negative big number: decimal digits *)
Definition N_toString (n : N) : string :=
  NilEmpty.string_of_uint (N.to_uint n).

(** [z.toString()], and [`${z}`], of an integer *)
Definition Z_toString (z : Z) : string :=
  NilZero.string_of_int (Z.to_int z).

(** [bigNumberify(bytes)]: the bytes read as a big-endian unsigned number *)
Fixpoint be_value (acc : N) (bs : list byte) : N :=
  match bs with
  | [] => acc
  | b :: bs' => be_value (acc * 256 + Byte.to_N b)%N bs'
  end.

Definition bigNumberify_bytes (bs : list byte) : N := be_value 0 bs.

(** [bigNumberify(bytes).toString()] *)
Definition salt_of (bs : list byte) : string := N_toString (bigNumberify_bytes bs).

(** ** Errors

    The error classes of [./errors] and the engine's own failures. *)

Inductive error : Type :=
| Error (msg : string)                       (* new Error(msg) *)
| APISchemaError (msg : string)              (* new APISchemaError(msg) *)
| APIError (details : jsval) (msg : string)  (* modern: new APIError(details, msg) *)
| LegacyAPIError (msg : string)              (* legacy: new APIError(msg) *)
| APITimeoutError (msg : string)             (* new APITimeoutError(msg) *)
| TypeError                                  (* property read on undefined/null, call of a non-function *)
| LibraryError                               (* exception thrown while an external library function runs *)
| NetworkError                               (* fetch itself rejects *)
| NoReason.                                  (* reject() called without an argument *)

Inductive outcome (A : Type) : Type :=
| Resolved (a : A)
| Rejected (e : error)
| Pending.                                   (* the promise never settles *)

Arguments Resolved {A} a.
Arguments Rejected {A} e.
Arguments Pending {A}.

(** ** Data records of the legacy client *)

Module LegacyData.

Module INewOrder.
Record t : Type := {
  marketHash : string;
  totalBetSize : string;
  percentageOdds : string;
  expiry : Z;
  isMakerBettingOutcomeOne : bool
}.
End INewOrder.

Module IRelayerNewMakerOrder.
Record t : Type := {
  marketHash : string;
  maker : string;
  totalBetSize : string;
  percentageOdds : string;
  expiry : string;
  relayerTakerFee : jsval;
  relayerMakerFee : jsval;
  executor : jsval;
  relayer : jsval;
  salt : string;
  isMakerBettingOutcomeOne : bool
}.
End IRelayerNewMakerOrder.

(** [{ ...apiMakerOrder, signature }] *)
Module ISignedRelayerNewMakerOrder.
Record t : Type := {
  order : IRelayerNewMakerOrder.t;
  signature : string
}.
End ISignedRelayerNewMakerOrder.

Module IRelayerCancelOrderRequest.
Record t : Type := {
  orderHashes : list string;
  cancelSignature : string
}.
End IRelayerCancelOrderRequest.

(** The envelope passed to an acknowledgment callback; [reason] is
    [undefined] when the relayer sends none. *)
Module IAPIResponse.
Record t : Type := {
  status : string;
  reason : option string
}.
End IAPIResponse.

(** A value of solidityKeccak256 *)
Inductive solidity_value : Type :=
| SolBytes32 (hex : string)
| SolBool (b : bool).

End LegacyData.

(** ** Data records of the modern client *)

Module ModernData.

Module INewOrder.
Record t : Type := {
  marketHash : string;
  totalBetSize : string;
  percentageOdds : string;
  expiry : Z;
  baseToken : string;
  isMakerBettingOutcomeOne : bool
}.
End INewOrder.

Module IRelayerMakerOrder.
Record t : Type := {
  marketHash : string;
  maker : string;
  totalBetSize : string;
  percentageOdds : string;
  expiry : string;
  executor : jsval;
  baseToken : string;
  salt : string;
  isMakerBettingOutcomeOne : bool
}.
End IRelayerMakerOrder.

(** [{ ...apiMakerOrder, signature }] *)
Module ISignedRelayerMakerOrder.
Record t : Type := {
  order : IRelayerMakerOrder.t;
  signature : string
}.
End ISignedRelayerMakerOrder.

Module IFillDetailsMetadata.
Record t : Type := {
  action : string;
  market : string;
  betting : string;
  stake : string;
  odds : string;
  returning : string
}.
End IFillDetailsMetadata.

(** The contract order produced by convertToContractOrder is an object of
    [./utils/convert]; it is kept as a JavaScript value. *)
Module IFillObject.
Record t : Type := {
  orders : list jsval;
  makerSigs : list string;
  takerAmounts : list Z;
  fillSalt : N
}.
End IFillObject.

(** [{ ...finalFillDetailsMetadata, fills }] *)
Module IFillDetails.
Record t : Type := {
  metadata : IFillDetailsMetadata.t;
  fills : IFillObject.t
}.
End IFillDetails.

Module ICancelDetails.
Record t : Type := {
  orders : jsval;
  message : jsval
}.
End ICancelDetails.

(** [{ ...cancelDetails, cancelSignature }] *)
Module IRelayerCancelOrderRequest.
Record t : Type := {
  details : ICancelDetails.t;
  cancelSignature : string
}.
End IRelayerCancelOrderRequest.

Module IRelayerMarketOrderRequest.
Record t : Type := {
  marketHash : string;
  takerPayAmount : string;
  takerDirection : string;
  taker : string;
  baseToken : string
}.
End IRelayerMarketOrderRequest.

Module IRelayerMetaFillOrderRequest.
Record t : Type := {
  orderHashes : list string;
  takerAmounts : jsval;
  taker : string;
  takerSig : string;
  fillSalt : string;
  metadata : IFillDetailsMetadata.t;
  affiliateAddress : jsval;
  approveProxyPayload : jsval
}.
End IRelayerMetaFillOrderRequest.

Module IPermit.
Record t : Type := {
  holder : string;
  spender : string;
  nonce : Z;
  expiry : Z;
  allowed : bool
}.
End IPermit.

End ModernData.

(** ** Effects and the outside world *)

(** What a method hands to [fetch] as the JSON body, or to [emit] as the
    message. *)
Inductive payload : Type :=
| PNull
| PJson (v : jsval)
| PLegacyNewOrder (o : LegacyData.ISignedRelayerNewMakerOrder.t)
| PLegacyCancelOrder (r : LegacyData.IRelayerCancelOrderRequest.t)
| PHistoricalMarkets (marketHashes : jsval)
| PNewOrder (orders : list ModernData.ISignedRelayerMakerOrder.t)
| PSuggestOrders (r : ModernData.IRelayerMarketOrderRequest.t)
| PFillOrders (r : ModernData.IRelayerMetaFillOrderRequest.t)
| PCancelOrders (r : ModernData.IRelayerCancelOrderRequest.t)
| PDaiApproval (details : ModernData.IPermit.t) (signature : string).

(** The observable actions of a client, in the order they happen. *)
Inductive effect : Type :=
| EDebug                                                   (* this.debug(...) *)
| EOpenSocket (url : string)                               (* io(url, ...) *)
| EOpenRealtime (authUrl : string)                         (* new ably.Realtime.Promise *)
| EEmit (key : string) (p : payload)                       (* clientSocket.emit *)
| EFetch (url : string) (body : option payload)            (* fetch; None is a GET *)
| EProviderCall (method : string)                          (* a JSON-RPC read *)
| ESignLegacyOrder (o : LegacyData.IRelayerNewMakerOrder.t)
| ESignOrder (o : ModernData.IRelayerMakerOrder.t)
| ESignMessage (bytes : list byte)                         (* wallet.signMessage *)
| ESignTypedData (privateKey : string) (data : jsval)      (* ethSigUtil.signTypedData_v4 *)
| EProviderSend (method address : string) (data : jsval).  (* provider.send *)

Definition is_network (e : effect) : bool :=
  match e with
  | EOpenSocket _ | EOpenRealtime _ | EEmit _ _ | EFetch _ _ | EProviderCall _
  | EProviderSend _ _ _ => true
  | _ => false
  end.

Definition is_signing (e : effect) : bool :=
  match e with
  | ESignLegacyOrder _ | ESignOrder _ | ESignMessage _
  | ESignTypedData _ _ | EProviderSend _ _ _ => true
  | _ => false
  end.

Inductive http_reply : Type :=
| HttpReply (status : Z) (text : string)
| HttpFailure.

(** What can happen while a hand-built promise is awaited. *)
Inductive event : Type :=
| Connect                                        (* the connection reports "connect"/"connected" *)
| Push (key : string) (data : jsval)             (* the relayer sends a message on [key] *)
| Ack (response : LegacyData.IAPIResponse.t)     (* the acknowledgment callback of the last emit *)
| Tick (ms : N).                                 (* [ms] milliseconds pass *)

(** The world: the effects performed so far (oldest first), the entropy
    source and how much of it was read, and what the relayer and the
    provider will answer: one reply per [fetch], one list of events per
    awaited hand-built promise, one reply per provider read.  An exhausted
    list of replies means that no answer ever comes; the list of events of a
    promise is all that happens while it is awaited, the passing of time
    included.  [listeners] are the message keys on which the legacy socket
    has a listener that writes debug output, one entry for each
    [clientSocket.on] call made so far: the clients never remove one. *)
Record world : Type := {
  trace : list effect;
  entropy : nat -> byte;
  consumed : nat;
  http : list http_reply;
  events : list (list event);
  rpc : list (option jsval);
  listeners : list string
}.

Record state (Self : Type) : Type := {
  this : Self;
  io : world
}.
Arguments this {Self} _.
Arguments io {Self} _.

(** ** The monad of asynchronous methods *)

Definition M (Self A : Type) : Type := state Self -> outcome A * state Self.

Definition ret {Self A} (a : A) : M Self A := fun s => (Resolved a, s).

Definition throw {Self A} (e : error) : M Self A := fun s => (Rejected e, s).

Definition bind {Self A B} (m : M Self A) (k : A -> M Self B) : M Self B :=
  fun s =>
    match m s with
    | (Resolved a, s') => k a s'
    | (Rejected e, s') => (Rejected e, s')
    | (Pending, s') => (Pending, s')
    end.

Declare Scope async_scope.
Delimit Scope async_scope with async.
Notation "x <- m ;; k" := (bind m (fun x => k))
  (at level 61, m at next level, right associativity) : async_scope.
Notation "m ;; k" := (bind m (fun _ => k))
  (at level 61, right associativity) : async_scope.
Open Scope async_scope.

Definition get_this {Self} : M Self Self := fun s => (Resolved (this s), s).

Definition set_this {Self} (x : Self) : M Self unit :=
  fun s => (Resolved tt, {| this := x; io := io s |}).

Definition log (e : effect) (w : world) : world :=
  {| trace := trace w ++ [e]; entropy := entropy w; consumed := consumed w;
     http := http w; events := events w; rpc := rpc w; listeners := listeners w |}.

Definition perform {Self} (e : effect) : M Self unit :=
  fun s => (Resolved tt, {| this := this s; io := log e (io s) |}).

Definition debug {Self} : M Self unit := perform EDebug.

(** A value an external library may fail to produce *)
Definition orThrow {Self A} (e : error) (o : option A) : M Self A :=
  match o with Some a => ret a | None => throw e end.

(** The next [n] bytes of the entropy source *)
Definition next_bytes (w : world) (n : nat) : list byte :=
  map (entropy w) (seq (consumed w) n).

(** [randomBytes(n)] *)
Definition randomBytes {Self} (n : nat) : M Self (list byte) :=
  fun s =>
    let w := io s in
    (Resolved (next_bytes w n),
     {| this := this s;
        io := {| trace := trace w; entropy := entropy w; consumed := consumed w + n;
                 http := http w; events := events w; rpc := rpc w;
                 listeners := listeners w |} |}).

(** [await fetch(url, init)], then the status and [await response.text()] *)
Definition fetch {Self} (url : string) (body : option payload) : M Self (Z * string) :=
  fun s =>
    let w := log (EFetch url body) (io s) in
    match http w with
    | [] => (Pending, {| this := this s; io := w |})
    | r :: rest =>
        let w' := {| trace := trace w; entropy := entropy w; consumed := consumed w;
                     http := rest; events := events w; rpc := rpc w;
                     listeners := listeners w |} in
        (match r with
         | HttpReply status text => Resolved (status, text)
         | HttpFailure => Rejected NetworkError
         end, {| this := this s; io := w' |})
    end.

(** A read through the JSON-RPC provider *)
Definition providerCall {Self} (method : string) : M Self jsval :=
  fun s =>
    let w := log (EProviderCall method) (io s) in
    match rpc w with
    | [] => (Pending, {| this := this s; io := w |})
    | r :: rest =>
        let w' := {| trace := trace w; entropy := entropy w; consumed := consumed w;
                     http := http w; events := events w; rpc := rest;
                     listeners := listeners w |} in
        (match r with
         | Some v => Resolved v
         | None => Rejected NetworkError
         end, {| this := this s; io := w' |})
    end.

(** ** Hand-built promises

    [new Promise((resolve, reject) => ...)] registers callbacks and timers.
    The executor is described by what it does at once and what its callbacks
    do on each event; every timer callback of the clients is a [reject]. *)

Inductive action (A : Type) : Type :=
| DoResolve (a : A)
| DoReject (e : error)
| DoSetTimeout (ms : N) (e : error)      (* setTimeout(() => reject(e), ms) *)
| DoDebug.
Arguments DoResolve {A} a.
Arguments DoReject {A} e.
Arguments DoSetTimeout {A} ms e.
Arguments DoDebug {A}.

Record executor (A : Type) : Type := {
  on_start : list (action A);
  on_event : event -> list (action A)
}.
Arguments on_start {A} _.
Arguments on_event {A} _ _.

Record promise (A : Type) : Type := {
  settled : outcome A;              (* Pending until the first resolve or reject *)
  clock : N;                        (* milliseconds since the executor ran *)
  timers : list (N * error);        (* armed timers: deadline and rejection *)
  debugged : nat                    (* calls of this.debug made by callbacks *)
}.
Arguments settled {A} _.
Arguments clock {A} _.
Arguments timers {A} _.
Arguments debugged {A} _.

(** The first settlement wins; later ones are ignored. *)
Definition settle {A} (o : outcome A) (p : promise A) : promise A :=
  match settled p with
  | Pending => {| settled := o; clock := clock p; timers := timers p; debugged := debugged p |}
  | _ => p
  end.

Definition act {A} (p : promise A) (a : action A) : promise A :=
  match a with
  | DoResolve x => settle (Resolved x) p
  | DoReject e => settle (Rejected e) p
  | DoSetTimeout ms e =>
      {| settled := settled p; clock := clock p;
         timers := timers p ++ [((clock p + ms)%N, e)]; debugged := debugged p |}
  | DoDebug =>
      {| settled := settled p; clock := clock p; timers := timers p;
         debugged := S (debugged p) |}
  end.

Definition due (now : N) (t : N * error) : bool := (fst t <=? now)%N.

(** Time passes: every timer whose deadline is reached fires, in the order
    the timers were armed. *)
Definition advance {A} (ms : N) (p : promise A) : promise A :=
  let now := (clock p + ms)%N in
  let fired := filter (due now) (timers p) in
  let p' := {| settled := settled p; clock := now;
               timers := filter (fun t => negb (due now t)) (timers p);
               debugged := debugged p |} in
  fold_left (fun q t => settle (Rejected (snd t)) q) fired p'.

Definition deliver {A} (ex : executor A) (p : promise A) (e : event) : promise A :=
  match e with
  | Tick ms => advance ms p
  | _ => fold_left act (on_event ex e) p
  end.

Definition start {A} (ex : executor A) : promise A :=
  fold_left act (on_start ex)
    {| settled := Pending; clock := 0%N; timers := []; debugged := 0 |}.

Definition run_promise {A} (ex : executor A) (evs : list event) : promise A :=
  fold_left (deliver ex) evs (start ex).

(** [await new Promise(executor)]: the promise lives through the next list
    of events of the world.  This is the wait of the modern init, on a
    connection that carries no other listener. *)
Definition await_promise {Self A} (ex : executor A) : M Self A :=
  fun s =>
    let w := io s in
    let p := run_promise ex (hd [] (events w)) in
    (settled p,
     {| this := this s;
        io := {| trace := trace w ++ repeat EDebug (debugged p);
                 entropy := entropy w; consumed := consumed w;
                 http := http w; events := tl (events w); rpc := rpc w;
                 listeners := listeners w |} |}).

(** The debug lines that the listeners left on the socket write while
    these events happen.  A listener registered with [clientSocket.on] by a
    call of getMetadata or getActiveMarkets stays on the socket when the call
    is over; whenever a message is pushed on its key it calls [this.debug]
    twice and then [resolve], which has no effect on its settled promise. *)
Definition overheard (registered : list string) (evs : list event) : nat :=
  list_sum
    (map (fun e => match e with
                   | Push key _ => 2 * count_occ string_dec registered key
                   | _ => 0
                   end) evs).

(** [await new Promise(executor)] on the socket of the legacy client.  The
    events of the wait reach the callbacks of the executor and the listeners
    that earlier calls left on the socket; the listeners that this executor
    registers on [keys] stay on the socket afterwards, whatever the outcome. *)
Definition await_on_socket {Self A} (keys : list string) (ex : executor A) : M Self A :=
  fun s =>
    let w := io s in
    let evs := hd [] (events w) in
    let p := run_promise ex evs in
    (settled p,
     {| this := this s;
        io := {| trace := trace w
                          ++ repeat EDebug (debugged p + overheard (listeners w) evs);
                 entropy := entropy w; consumed := consumed w;
                 http := http w; events := tl (events w); rpc := rpc w;
                 listeners := listeners w ++ keys |} |}).

(** Total time of a list of events *)
Fixpoint elapsed (evs : list event) : N :=
  match evs with
  | [] => 0
  | Tick ms :: evs' => ms + elapsed evs'
  | _ :: evs' => elapsed evs'
  end.

(** An event to which the callbacks of the executor do not react *)
Definition inert {A} (ex : executor A) (e : event) : Prop :=
  match e with
  | Tick _ => True
  | _ => on_event ex e = []
  end.

Definition is_settled {A} (p : promise A) : Prop := settled p <> Pending.

(** The promise is guarded by a timeout: when nothing it reacts to happens
    before [timeout] milliseconds have passed, it is rejected with [e],
    whatever happens afterwards. *)
Definition times_out {A} (ex : executor A) (timeout : N) (e : error) : Prop :=
  forall waiting rest : list event,
    Forall (inert ex) waiting ->
    (timeout <= elapsed waiting)%N ->
    settled (run_promise ex (waiting ++ rest)) = Rejected e.

(** ** The legacy client ([src/sportx.ts]) *)

Module Legacy.
Import LegacyData.

Inductive message_key : Type := METADATA | ACTIVE_MARKETS | NEW_ORDER | CANCEL_ORDER.

Inductive endpoint : Type := LEAGUES | SPORTS | PENDING_BETS | ORDERS | ACTIVE_ORDERS.

(** What the client imports: the constants of [./constants], the helpers of
    [./utils] and the functions of ethers and node-fetch.  [None] stands for
    a call that throws. *)
Class Externals : Type := {
  RELAYER_TIMEOUT : N;
  WEBSOCKET_MESSAGE_KEYS : message_key -> string;
  RELAYER_HTTP_ENDPOINTS : endpoint -> string;
  walletAddress : string -> string;                 (* new Wallet(privateKey).address *)
  validateINewOrderSchema : INewOrder.t -> string;
  validateOrderHashArray : list string -> string;
  isAddress : string -> bool;
  isHexString : string -> bool;
  bigNumberify : jsval -> option Z;
  formatUnits : Z -> Z -> string;
  getOrderSignature : IRelayerNewMakerOrder.t -> string -> string;
  solidityKeccak256 : list string -> list solidity_value -> string;
  arrayify : string -> list byte;
  signMessage : string -> list byte -> string;      (* wallet.signMessage(bytes) *)
  parseJson : string -> option jsval;               (* response.json() *)
  convertToDecimalOdds : Z -> jsval;
  convertToDisplayAmount : Z -> string;
  Number : string -> jsval
}.

(** The fields of the class.  [signingWallet] is the wallet made from the
    private key; [clientSocket] and [metadata] are unassigned until [init]. *)
Record SportX : Type := {
  signingWallet : string;
  relayerUrl : string;
  initialized : bool;
  clientSocket : option string;
  metadata : jsval
}.

Section Client.
Context {X : Externals}.

Definition async (A : Type) : Type := M SportX A.

Definition set_clientSocket (url : string) : async unit :=
  self <- get_this ;;
  set_this {| signingWallet := signingWallet self; relayerUrl := relayerUrl self;
              initialized := initialized self; clientSocket := Some url;
              metadata := metadata self |}.

Definition set_initialized (b : bool) : async unit :=
  self <- get_this ;;
  set_this {| signingWallet := signingWallet self; relayerUrl := relayerUrl self;
              initialized := b; clientSocket := clientSocket self;
              metadata := metadata self |}.

Definition set_metadata (md : jsval) : async unit :=
  self <- get_this ;;
  set_this {| signingWallet := signingWallet self; relayerUrl := relayerUrl self;
              initialized := initialized self; clientSocket := clientSocket self;
              metadata := md |}.

(** A method call on [this.clientSocket]: a TypeError while it is unassigned *)
Definition socket : async string :=
  self <- get_this ;;
  orThrow TypeError (clientSocket self).

(** [`${response.reason}`] *)
Definition show_reason (r : IAPIResponse.t) : string :=
  match IAPIResponse.reason r with Some s => s | None => "undefined" end.

Definition is_success (r : IAPIResponse.t) : bool :=
  IAPIResponse.status r =? "success".

(** The promise of [init] (lines 82-91): the timer is set by the "connect"
    callback, after it has resolved. *)
Definition init_promise : executor unit :=
  {| on_start := [];
     on_event := fun e =>
       match e with
       | Connect =>
           [DoResolve tt;
            DoSetTimeout RELAYER_TIMEOUT (Error "Timeout connecting to the SportX API")]
       | _ => []
       end |}.

(** The promise of [getMetadata] (lines 98-123) *)
Definition getMetadata_promise : executor jsval :=
  {| on_start :=
       [DoSetTimeout RELAYER_TIMEOUT
          (APITimeoutError "Timeout getting metadata from the SportX API")];
     on_event := fun e =>
       match e with
       | Push key data =>
           if key =? WEBSOCKET_MESSAGE_KEYS METADATA
           then [DoDebug; DoDebug; DoResolve data] else []
       | Ack response =>
           if is_success response then []
           else [DoReject (Error "Error getting metadata from the SportX API")]
       | _ => []
       end |}.

(** The promise of [getActiveMarkets] (lines 144-175): the timer is set by
    the acknowledgment callback. *)
Definition getActiveMarkets_promise : executor jsval :=
  {| on_start := [];
     on_event := fun e =>
       match e with
       | Push key data =>
           if key =? WEBSOCKET_MESSAGE_KEYS ACTIVE_MARKETS
           then [DoDebug; DoDebug; DoResolve data] else []
       | Ack response =>
           ((if is_success response then []
             else [DoReject (Error ("Error getting active markets. Reason: "
                                      ++ show_reason response))])
            ++ [DoSetTimeout RELAYER_TIMEOUT
                  (APITimeoutError "Timeout getting active markets from the SportX API")])%list
       | _ => []
       end |}.

(** The promise of [newOrder] (lines 218-245) *)
Definition newOrder_promise : executor IAPIResponse.t :=
  {| on_start :=
       [DoSetTimeout RELAYER_TIMEOUT
          (APITimeoutError "Timeout getting submitting order to the SportX API")];
     on_event := fun e =>
       match e with
       | Ack response =>
           if is_success response then [DoResolve response]
           else [DoReject (LegacyAPIError
                   ("Unable to create new order. Status: " ++ IAPIResponse.status response
                    ++ ". Reason: " ++ show_reason response))]
       | _ => []
       end |}.

(** The promise of [cancelOrder] (lines 265-292) *)
Definition cancelOrder_promise : executor IAPIResponse.t :=
  {| on_start :=
       [DoSetTimeout RELAYER_TIMEOUT
          (APITimeoutError "Timeout getting submitting order to the SportX API")];
     on_event := fun e =>
       match e with
       | Ack response =>
           if is_success response then [DoResolve response]
           else [DoReject (LegacyAPIError
                   ("Unable to cancel order. Status: " ++ IAPIResponse.status response
                    ++ ". Reason: " ++ show_reason response))]
       | _ => []
       end |}.

(** [getMetadata] (lines 97-125): the listener put on the metadata key
    (lines 99-106) is the push callback of the executor while the call waits
    and stays on the socket afterwards. *)
Definition getMetadata : async jsval :=
  _ <- socket ;;
  perform (EEmit (WEBSOCKET_MESSAGE_KEYS METADATA) PNull) ;;
  await_on_socket [WEBSOCKET_MESSAGE_KEYS METADATA] getMetadata_promise.

Definition init : async unit :=
  self <- get_this ;;
  if initialized self then throw (Error "Already initialized")
  else
    perform (EOpenSocket (relayerUrl self)) ;;
    set_clientSocket (relayerUrl self) ;;
    await_on_socket [] init_promise ;;
    set_initialized true ;;
    md <- getMetadata ;;
    set_metadata md ;;
    debug.

(** [await fetch(url)], then [const { data } = await response.json()] *)
Definition fetch_data (url : string) : async jsval :=
  r <- fetch url None ;;
  body <- orThrow LibraryError (parseJson (snd r)) ;;
  orThrow TypeError (getProp body "data").

Definition getLeagues : async jsval :=
  self <- get_this ;;
  fetch_data (relayerUrl self ++ RELAYER_HTTP_ENDPOINTS LEAGUES).

Definition getSports : async jsval :=
  self <- get_this ;;
  fetch_data (relayerUrl self ++ RELAYER_HTTP_ENDPOINTS SPORTS).

(** [getActiveMarkets] (lines 143-177): as in [getMetadata], the listener
    of lines 145-152 stays on the socket. *)
Definition getActiveMarkets : async jsval :=
  _ <- socket ;;
  perform (EEmit (WEBSOCKET_MESSAGE_KEYS ACTIVE_MARKETS) PNull) ;;
  await_on_socket [WEBSOCKET_MESSAGE_KEYS ACTIVE_MARKETS] getActiveMarkets_promise.

(** [this.metadata.a.b] *)
Definition read2 (v : jsval) (a b : string) : async jsval :=
  x <- orThrow TypeError (getProp v a) ;;
  orThrow TypeError (getProp x b).

Definition newOrder (order : INewOrder.t) : async IAPIResponse.t :=
  let schemaValidation := validateINewOrderSchema order in
  if negb (schemaValidation =? "OK") then throw (APISchemaError schemaValidation)
  else
    bigNumBetSize <- orThrow LibraryError (bigNumberify (JStr (INewOrder.totalBetSize order))) ;;
    self <- get_this ;;
    minimum <- orThrow TypeError (getProp (metadata self) "makerOrderMinimum") ;;
    makerOrderMinimumBigNum <- orThrow LibraryError (bigNumberify minimum) ;;
    if (bigNumBetSize <? makerOrderMinimumBigNum)%Z
    then throw (APISchemaError ("totalBetSize below API minimum of "
                                  ++ formatUnits makerOrderMinimumBigNum 18))
    else
      bytes <- randomBytes 32 ;;
      let salt := salt_of bytes in
      takerFee <- read2 (metadata self) "fees" "relayerTakerFee" ;;
      makerFee <- read2 (metadata self) "fees" "relayerMakerFee" ;;
      executorAddress <- orThrow TypeError (getProp (metadata self) "executorAddress") ;;
      relayerAddress <- orThrow TypeError (getProp (metadata self) "relayerAddress") ;;
      let apiMakerOrder :=
        {| IRelayerNewMakerOrder.marketHash := INewOrder.marketHash order;
           IRelayerNewMakerOrder.maker := walletAddress (signingWallet self);
           IRelayerNewMakerOrder.totalBetSize := Z_toString bigNumBetSize;
           IRelayerNewMakerOrder.percentageOdds := INewOrder.percentageOdds order;
           IRelayerNewMakerOrder.expiry := Z_toString (INewOrder.expiry order);
           IRelayerNewMakerOrder.relayerTakerFee := takerFee;
           IRelayerNewMakerOrder.relayerMakerFee := makerFee;
           IRelayerNewMakerOrder.executor := executorAddress;
           IRelayerNewMakerOrder.relayer := relayerAddress;
           IRelayerNewMakerOrder.salt := salt;
           IRelayerNewMakerOrder.isMakerBettingOutcomeOne :=
             INewOrder.isMakerBettingOutcomeOne order |} in
      perform (ESignLegacyOrder apiMakerOrder) ;;
      let signature := getOrderSignature apiMakerOrder (signingWallet self) in
      let signedApiMakerOrder :=
        {| ISignedRelayerNewMakerOrder.order := apiMakerOrder;
           ISignedRelayerNewMakerOrder.signature := signature |} in
      _ <- socket ;;
      perform (EEmit (WEBSOCKET_MESSAGE_KEYS NEW_ORDER) (PLegacyNewOrder signedApiMakerOrder)) ;;
      await_on_socket [] newOrder_promise.

Definition cancelOrder (orderHashes : list string) : async IAPIResponse.t :=
  let schemaValidation := validateOrderHashArray orderHashes in
  if negb (schemaValidation =? "OK") then throw (APISchemaError schemaValidation)
  else
    let signingPayload :=
      solidityKeccak256 (map (fun _ => "bytes32") orderHashes ++ ["bool"])%list
                        (map SolBytes32 orderHashes ++ [SolBool true])%list in
    self <- get_this ;;
    perform (ESignMessage (arrayify signingPayload)) ;;
    let cancelSignature := signMessage (signingWallet self) (arrayify signingPayload) in
    let payload :=
      {| IRelayerCancelOrderRequest.orderHashes := orderHashes;
         IRelayerCancelOrderRequest.cancelSignature := cancelSignature |} in
    _ <- socket ;;
    perform (EEmit (WEBSOCKET_MESSAGE_KEYS CANCEL_ORDER) (PLegacyCancelOrder payload)) ;;
    await_on_socket [] cancelOrder_promise.

(** A step of a callback that may throw, and the next *)
Definition and_then {A B} (r : error + A) (k : A -> error + B) : error + B :=
  match r with
  | inl e => inl e
  | inr a => k a
  end.

(** [v.k]: a TypeError on undefined and null *)
Definition read (v : jsval) (k : string) : error + jsval :=
  match getProp v k with
  | Some x => inr x
  | None => inl TypeError
  end.

(** [bigNumberify(v)], which throws an error of ethers on a value that is
    no number *)
Definition big (v : jsval) : error + Z :=
  match bigNumberify v with
  | Some n => inr n
  | None => inl LibraryError
  end.

(** [xs.map(f)] where [f] may throw: the first throw ends the map *)
Fixpoint map_throwing (f : jsval -> error + jsval) (l : list jsval) : error + list jsval :=
  match l with
  | [] => inr []
  | x :: l' =>
      and_then (f x) (fun y =>
      and_then (map_throwing f l') (fun ys => inr (y :: ys)))
  end.

(** [v.map(f)] on a value that may not be an array: what is no array has no
    [map], and the call is a TypeError *)
Definition js_map (f : jsval -> error + jsval) (v : jsval) : error + jsval :=
  match v with
  | JArr l => and_then (map_throwing f l) (fun ys => inr (JArr ys))
  | _ => inl TypeError
  end.

(** The callback of [pendingBets.map] (lines 305-318): the fields of the
    object literal are evaluated in order, and the first throw is the error
    of the callback *)
Definition formatPendingBet (bet : jsval) : error + jsval :=
  and_then (read bet "marketHashes") (fun marketHashes =>
  and_then (read bet "percentageOdds") (fun percentageOdds =>
  and_then (js_map (fun odd => and_then (big odd) (fun n => inr (convertToDecimalOdds n)))
              percentageOdds) (fun impliedOdds =>
  and_then (read bet "isMakerBettingOutcomeOne") (fun outcomeOne =>
  and_then (read bet "taker") (fun taker =>
  and_then (read bet "fillAmounts") (fun amounts =>
  and_then (js_map (fun amount =>
                      and_then (big amount) (fun n =>
                      inr (Number (convertToDisplayAmount n)))) amounts) (fun fillAmounts =>
  and_then (read bet "orderHashes") (fun orderHashes =>
  and_then (read bet "status") (fun status =>
  and_then (read bet "betTime") (fun betTime =>
  inr (JObj [("marketHashes", marketHashes); ("impliedOdds", impliedOdds);
             ("isMakerBettingOutcomeOne", outcomeOne); ("taker", taker);
             ("fillAmounts", fillAmounts); ("orderHashes", orderHashes);
             ("status", status); ("betTime", betTime)]))))))))))).

Definition getRecentPendingBets (address : string) : async jsval :=
  if negb (isAddress address)
  then throw (APISchemaError ("Address " ++ address ++ " is not a valid address"))
  else
    self <- get_this ;;
    data <- fetch_data (relayerUrl self ++ RELAYER_HTTP_ENDPOINTS PENDING_BETS ++ "/" ++ address) ;;
    match js_map formatPendingBet data with
    | inr formattedPendingBets => ret formattedPendingBets
    | inl e => throw e
    end.

Definition getOrders (marketHash : string) : async jsval :=
  if negb (isHexString marketHash)
  then throw (APISchemaError ("Market hash " ++ marketHash ++ " is not a valid hash string."))
  else
    self <- get_this ;;
    fetch_data (relayerUrl self ++ RELAYER_HTTP_ENDPOINTS ORDERS ++ "/" ++ marketHash).

Definition getActiveOrders (account : string) : async jsval :=
  if negb (isAddress account)
  then throw (APISchemaError ("Address " ++ account ++ " is not a valid address"))
  else
    self <- get_this ;;
    fetch_data (relayerUrl self ++ RELAYER_HTTP_ENDPOINTS ACTIVE_ORDERS ++ "/" ++ account).

End Client.
End Legacy.

(** ** The modern client (mainchain/sidechain relayer) *)

Module Modern.
Import ModernData.

Inductive endpoint : Type :=
| METADATA | LEAGUES | SPORTS | ACTIVE_MARKETS | HISTORICAL_MARKETS | NEW_ORDER
| SUGGEST_ORDERS | FILL_ORDERS | CANCEL_ORDERS | PENDING_BETS | TRADES | ORDERS
| DAI_APPROVAL.

(** A browser wallet handed to the constructor *)
Record Web3Provider : Type := {
  handle : string;
  isMetaMask : jsval                 (* _web3Provider.isMetaMask *)
}.

Inductive Provider : Type :=
| JsonRpcProvider (url : string)
| Web3 (p : Web3Provider).

(** [new Wallet(privateKey).connect(provider)] or [mainchainProvider.getSigner(0)] *)
Inductive Signer : Type :=
| Wallet (privateKey : string)
| JsonRpcSigner (p : Web3Provider).

(** [new Contract(address, abi, signerOrProvider)]; the ABI by its artifact *)
Inductive Abi : Type := DAI | IERC20 | ChildERC20.

Record Contract : Type := {
  address : string;
  abi : Abi
}.

(** What the client imports: the tables of [./constants], the helpers of
    [./utils], and the functions of ethers and eth-sig-util.  [None] stands
    for a missing table entry or a call that throws. *)
Class Externals : Type := {
  RELAYER_TIMEOUT : N;
  RELAYER_HTTP_ENDPOINTS : endpoint -> string;
  TOKEN_ADDRESSES : string -> option (list (string * string));
  Tokens_DAI : string;
  TOKEN_TRANSFER_PROXY_ADDRESS : string -> string;
  EIP712_FILL_HASHER_ADDRESSES : string -> string;
  tryParseJson : string -> jsval * bool;            (* { result, valid } *)
  isHexString : jsval -> bool;
  isAddress : jsval -> bool;
  isPositiveBigNumber : jsval -> bool;
  validateINewOrderSchema : INewOrder.t -> string;
  validateISignedRelayerMakerOrder : ISignedRelayerMakerOrder.t -> string;
  validateIFillDetailsMetadata : IFillDetailsMetadata.t -> string;
  validateIGetPendingBetsRequest : jsval -> string;
  validateIGetTradesRequest : jsval -> string;
  bigNumberify : jsval -> option Z;
  convertToContractOrder : ISignedRelayerMakerOrder.t -> jsval;
  getOrderHash : jsval -> string;
  getOrderSignature : IRelayerMakerOrder.t -> Signer -> string;
  getCancelOrderEIP712Payload : ICancelDetails.t -> jsval -> jsval;
  getFillOrderEIP712Payload : IFillDetails.t -> jsval -> string -> jsval;
  getDaiPermitEIP712Payload : IPermit.t -> jsval -> string -> jsval;
  getAddress : Signer -> string;                    (* signer.getAddress() *)
  signTypedData_v4 : string -> jsval -> string;
  providerSend : Web3Provider -> string -> string -> jsval -> string
}.

(** The fields of the class; [metadata], [ably], [privateKey] and
    [mainchainChainId] may be unassigned. *)
Record SportX : Type := {
  mainchainSigningWallet : Signer;
  relayerUrl : string;
  mainchainProvider : Provider;
  sidechainProvider : string;
  initialized : bool;
  metadata : jsval;
  ably : option string;
  environment : string;
  privateKey : option string;
  mainchainChainId : jsval;
  mainchainNetwork : string;
  sidechainNetwork : string;
  baseTokenWrappers : list (string * Contract)
}.

Section Client.
Context {X : Externals}.

Definition async (A : Type) : Type := M SportX A.

Definition with_ably (a : string) (x : SportX) : SportX :=
  {| mainchainSigningWallet := mainchainSigningWallet x; relayerUrl := relayerUrl x;
     mainchainProvider := mainchainProvider x; sidechainProvider := sidechainProvider x;
     initialized := initialized x; metadata := metadata x; ably := Some a;
     environment := environment x; privateKey := privateKey x;
     mainchainChainId := mainchainChainId x; mainchainNetwork := mainchainNetwork x;
     sidechainNetwork := sidechainNetwork x; baseTokenWrappers := baseTokenWrappers x |}.

Definition with_metadata (md : jsval) (x : SportX) : SportX :=
  {| mainchainSigningWallet := mainchainSigningWallet x; relayerUrl := relayerUrl x;
     mainchainProvider := mainchainProvider x; sidechainProvider := sidechainProvider x;
     initialized := initialized x; metadata := md; ably := ably x;
     environment := environment x; privateKey := privateKey x;
     mainchainChainId := mainchainChainId x; mainchainNetwork := mainchainNetwork x;
     sidechainNetwork := sidechainNetwork x; baseTokenWrappers := baseTokenWrappers x |}.

Definition with_mainchainChainId (c : jsval) (x : SportX) : SportX :=
  {| mainchainSigningWallet := mainchainSigningWallet x; relayerUrl := relayerUrl x;
     mainchainProvider := mainchainProvider x; sidechainProvider := sidechainProvider x;
     initialized := initialized x; metadata := metadata x; ably := ably x;
     environment := environment x; privateKey := privateKey x;
     mainchainChainId := c; mainchainNetwork := mainchainNetwork x;
     sidechainNetwork := sidechainNetwork x; baseTokenWrappers := baseTokenWrappers x |}.

Definition with_baseTokenWrappers (l : list (string * Contract)) (x : SportX) : SportX :=
  {| mainchainSigningWallet := mainchainSigningWallet x; relayerUrl := relayerUrl x;
     mainchainProvider := mainchainProvider x; sidechainProvider := sidechainProvider x;
     initialized := initialized x; metadata := metadata x; ably := ably x;
     environment := environment x; privateKey := privateKey x;
     mainchainChainId := mainchainChainId x; mainchainNetwork := mainchainNetwork x;
     sidechainNetwork := sidechainNetwork x; baseTokenWrappers := l |}.

Definition with_initialized (b : bool) (x : SportX) : SportX :=
  {| mainchainSigningWallet := mainchainSigningWallet x; relayerUrl := relayerUrl x;
     mainchainProvider := mainchainProvider x; sidechainProvider := sidechainProvider x;
     initialized := b; metadata := metadata x; ably := ably x;
     environment := environment x; privateKey := privateKey x;
     mainchainChainId := mainchainChainId x; mainchainNetwork := mainchainNetwork x;
     sidechainNetwork := sidechainNetwork x; baseTokenWrappers := baseTokenWrappers x |}.

Definition update (f : SportX -> SportX) : async unit :=
  self <- get_this ;; set_this (f self).

(** [tryParseResponse] (lines 696-711) *)
Definition tryParseResponse (response : Z * string) (errorMessage : string) : async jsval :=
  let textResponse := snd response in
  let (result, valid) := tryParseJson textResponse in
  if valid && negb (fst response =? 200)%Z then
    debug ;; debug ;;
    throw (APIError result (errorMessage ++ ". Response code: " ++ Z_toString (fst response)))
  else if negb valid then
    throw (APIError JUndefined ("Can't parse JSON " ++ textResponse))
  else ret result.

(** [getEip712Signature] (lines 669-694) *)
Definition getEip712Signature (payload : jsval) : async string :=
  self <- get_this ;;
  let key := match privateKey self with Some k => k | None => "" end in
  if negb (key =? "") then
    perform (ESignTypedData key payload) ;;
    ret (signTypedData_v4 key payload)
  else
    match mainchainProvider self with
    | JsonRpcProvider _ => throw TypeError
    | Web3 p =>
        let walletAddress := getAddress (mainchainSigningWallet self) in
        match isMetaMask p with
        | JBool true =>
            perform (EProviderSend "eth_signTypedData_v4" walletAddress payload) ;;
            ret (providerSend p "eth_signTypedData_v4" walletAddress payload)
        | _ =>
            perform (EProviderSend "eth_signTypedData" walletAddress payload) ;;
            ret (providerSend p "eth_signTypedData" walletAddress payload)
        end
    end.

(** The promise of [init] (lines 184-189) *)
Definition init_promise : executor unit :=
  {| on_start := [DoSetTimeout RELAYER_TIMEOUT NoReason];
     on_event := fun e => match e with Connect => [DoResolve tt] | _ => [] end |}.

Definition url_of (self : SportX) (e : endpoint) : string :=
  relayerUrl self ++ RELAYER_HTTP_ENDPOINTS e.

Definition getMetadata : async jsval :=
  debug ;;
  self <- get_this ;;
  response <- fetch (url_of self METADATA) None ;;
  result <- tryParseResponse response "Can't fetch metadata" ;;
  debug ;; debug ;;
  orThrow TypeError (getProp result "data").

(** The wrappers made by the two loops of [init] (lines 193-218) *)
Definition mainchain_wrappers (entries : list (string * string)) : list (string * Contract) :=
  map (fun e => (snd e, {| address := snd e;
                           abi := if fst e =? Tokens_DAI then DAI else IERC20 |})) entries.

Definition sidechain_wrappers (entries : list (string * string)) : list (string * Contract) :=
  map (fun e => (snd e, {| address := snd e; abi := ChildERC20 |})) entries.

(** [wrappers[address] = contract] for each new entry in turn: the latest
    assignment to a key is the one found. *)
Definition assign_all (new old : list (string * Contract)) : list (string * Contract) :=
  (List.rev new ++ old)%list.

Definition init : async unit :=
  self <- get_this ;;
  if initialized self then throw (Error "Already initialized")
  else
    perform (EOpenRealtime (relayerUrl self ++ "/user/token")) ;;
    update (with_ably (relayerUrl self ++ "/user/token")) ;;
    await_promise init_promise ;;
    md <- getMetadata ;;
    update (with_metadata md) ;;
    network <- providerCall "getNetwork" ;;
    chainId <- orThrow TypeError (getProp network "chainId") ;;
    update (with_mainchainChainId chainId) ;;
    self <- get_this ;;
    mainchainTokens <- orThrow TypeError (TOKEN_ADDRESSES (mainchainNetwork self)) ;;
    update (fun x => with_baseTokenWrappers
                       (assign_all (mainchain_wrappers mainchainTokens) (baseTokenWrappers x)) x) ;;
    sidechainTokens <- orThrow TypeError (TOKEN_ADDRESSES (sidechainNetwork self)) ;;
    update (fun x => with_baseTokenWrappers
                       (assign_all (sidechain_wrappers sidechainTokens) (baseTokenWrappers x)) x) ;;
    update (with_initialized true) ;;
    debug.

Definition getLeagues : async jsval :=
  debug ;;
  self <- get_this ;;
  response <- fetch (url_of self LEAGUES) None ;;
  result <- tryParseResponse response "Can't fetch leagues" ;;
  debug ;; debug ;;
  orThrow TypeError (getProp result "data").

Definition getSports : async jsval :=
  debug ;;
  self <- get_this ;;
  response <- fetch (url_of self SPORTS) None ;;
  result <- tryParseResponse response "Can't fetch sports" ;;
  orThrow TypeError (getProp result "data").

(** [const { data: { k } } = result] *)
Definition data_field (result : jsval) (k : string) : async jsval :=
  data <- orThrow TypeError (getProp result "data") ;;
  orThrow TypeError (getProp data k).

Definition getActiveMarkets : async jsval :=
  debug ;;
  self <- get_this ;;
  response <- fetch (url_of self ACTIVE_MARKETS) None ;;
  result <- tryParseResponse response "Can't fetch active markets" ;;
  debug ;; debug ;;
  data_field result "markets".

(** [v.every(p)]: a TypeError when [v] is not an array *)
Definition every (p : jsval -> bool) (v : jsval) : option bool :=
  match v with
  | JArr l => Some (forallb p l)
  | _ => None
  end.

Definition marketLookup (marketHashes : jsval) : async jsval :=
  debug ;;
  if negb (isArray marketHashes)
     || negb (match every isHexString marketHashes with Some b => b | None => false end)
  then throw (APISchemaError "marketHashes is not a hex string ")
  else
    self <- get_this ;;
    response <- fetch (url_of self HISTORICAL_MARKETS) (Some (PHistoricalMarkets marketHashes)) ;;
    result <- tryParseResponse response "Can't lookup markets" ;;
    debug ;; debug ;;
    orThrow TypeError (getProp result "data").

Definition newOrder (order : INewOrder.t) : async jsval :=
  debug ;;
  let schemaValidation := validateINewOrderSchema order in
  if negb (schemaValidation =? "OK") then throw (APISchemaError schemaValidation)
  else
    bigNumBetSize <- orThrow LibraryError (bigNumberify (JStr (INewOrder.totalBetSize order))) ;;
    bytes <- randomBytes 32 ;;
    let salt := salt_of bytes in
    self <- get_this ;;
    executorAddress <- orThrow TypeError (getProp (metadata self) "executorAddress") ;;
    let apiMakerOrder :=
      {| IRelayerMakerOrder.marketHash := INewOrder.marketHash order;
         IRelayerMakerOrder.maker := getAddress (mainchainSigningWallet self);
         IRelayerMakerOrder.totalBetSize := Z_toString bigNumBetSize;
         IRelayerMakerOrder.percentageOdds := INewOrder.percentageOdds order;
         IRelayerMakerOrder.expiry := Z_toString (INewOrder.expiry order);
         IRelayerMakerOrder.executor := executorAddress;
         IRelayerMakerOrder.baseToken := INewOrder.baseToken order;
         IRelayerMakerOrder.salt := salt;
         IRelayerMakerOrder.isMakerBettingOutcomeOne :=
           INewOrder.isMakerBettingOutcomeOne order |} in
    debug ;; debug ;;
    perform (ESignOrder apiMakerOrder) ;;
    let signature := getOrderSignature apiMakerOrder (mainchainSigningWallet self) in
    debug ;;
    let signedApiMakerOrder :=
      {| ISignedRelayerMakerOrder.order := apiMakerOrder;
         ISignedRelayerMakerOrder.signature := signature |} in
    debug ;; debug ;;
    response <- fetch (url_of self NEW_ORDER) (Some (PNewOrder [signedApiMakerOrder])) ;;
    result <- tryParseResponse response "Can't submit new order" ;;
    debug ;; debug ;;
    ret result.

(** [if (bad) { throw e }] *)
Definition check (bad : bool) (e : error) : async unit :=
  if bad then throw e else ret tt.

Definition suggestOrders (marketHash betSize : string) (takerDirectionOutcomeOne : jsval)
    (taker baseToken : string) : async jsval :=
  debug ;;
  check (negb (isHexString (JStr marketHash)))
        (APISchemaError "marketHash is not a hex string ") ;;
  check (negb (isPositiveBigNumber (JStr betSize)))
        (APISchemaError "betSize as a number is not positive") ;;
  check (negb (isBoolean takerDirectionOutcomeOne))
        (APISchemaError "takerDirectionOutcomeOne is not a boolean") ;;
  check (negb (isAddress (JStr taker))) (APISchemaError "taker is not a valid address") ;;
  check (negb (isAddress (JStr baseToken))) (APISchemaError "baseToken is not a valid address") ;;
  let payload :=
    {| IRelayerMarketOrderRequest.marketHash := marketHash;
       IRelayerMarketOrderRequest.takerPayAmount := betSize;
       IRelayerMarketOrderRequest.takerDirection :=
         if truthy takerDirectionOutcomeOne then "outcomeOne" else "outcomeTwo";
       IRelayerMarketOrderRequest.taker := taker;
       IRelayerMarketOrderRequest.baseToken := baseToken |} in
  debug ;; debug ;;
  self <- get_this ;;
  response <- fetch (url_of self SUGGEST_ORDERS) (Some (PSuggestOrders payload)) ;;
  result <- tryParseResponse response "Can't get suggested orders" ;;
  debug ;; debug ;;
  ret result.

(** The elements of an array *)
Definition items (v : jsval) : list jsval :=
  match v with JArr l => l | _ => [] end.

(** [xs.map(bigNumberify)]; [None] when a call throws *)
Fixpoint map_bigNumberify (l : list jsval) : option (list Z) :=
  match l with
  | [] => Some []
  | x :: l' =>
      match bigNumberify x with
      | Some z => option_map (cons z) (map_bigNumberify l')
      | None => None
      end
  end.

Definition default_metadata : IFillDetailsMetadata.t :=
  {| IFillDetailsMetadata.action := "N/A"; IFillDetailsMetadata.market := "N/A";
     IFillDetailsMetadata.betting := "N/A"; IFillDetailsMetadata.stake := "N/A";
     IFillDetailsMetadata.odds := "N/A"; IFillDetailsMetadata.returning := "N/A" |}.

(** The first order that [orders.forEach] rejects, with its message *)
Definition first_malformed (orders : list ISignedRelayerMakerOrder.t) : option string :=
  option_map validateISignedRelayerMakerOrder
    (find (fun order => negb (validateISignedRelayerMakerOrder order =? "OK")) orders).

(** The object literal [fillDetails] (lines 447-455) *)
Definition fillDetails_of (orders : list ISignedRelayerMakerOrder.t) (amounts : list Z)
    (md : IFillDetailsMetadata.t) (fillSalt : N) : IFillDetails.t :=
  {| IFillDetails.metadata := md;
     IFillDetails.fills :=
       {| IFillObject.orders := map convertToContractOrder orders;
          IFillObject.makerSigs := map ISignedRelayerMakerOrder.signature orders;
          IFillObject.takerAmounts := amounts;
          IFillObject.fillSalt := fillSalt |} |}.

Definition fillOrders (orders : list ISignedRelayerMakerOrder.t) (takerAmounts : jsval)
    (fillDetailsMetadata : option IFillDetailsMetadata.t)
    (affiliateAddress approveProxyPayload : jsval) : async jsval :=
  debug ;;
  match first_malformed orders with
  | Some validation => debug ;; throw (APISchemaError validation)
  | None =>
  if truthy affiliateAddress && negb (isAddress affiliateAddress)
  then debug ;; throw (APISchemaError "Affiliate address malformed.")
  else
  match fillDetailsMetadata with
  | Some md =>
      let validation := validateIFillDetailsMetadata md in
      if negb (validation =? "OK") then debug ;; throw (APISchemaError validation)
      else ret tt
  | None => ret tt
  end ;;
  check (negb (isArray takerAmounts)) (APISchemaError "takerAmounts is not an array") ;;
  check (negb (forallb isPositiveBigNumber (items takerAmounts)))
        (APISchemaError "takerAmounts has some invalid number strings") ;;
  bytes <- randomBytes 32 ;;
  let fillSalt := bigNumberify_bytes bytes in
  let solidityOrders := map convertToContractOrder orders in
  let orderHashes := map getOrderHash solidityOrders in
  let finalFillDetailsMetadata :=
    match fillDetailsMetadata with Some md => md | None => default_metadata end in
  amounts <- orThrow LibraryError (map_bigNumberify (items takerAmounts)) ;;
  let fillDetails := fillDetails_of orders amounts finalFillDetailsMetadata fillSalt in
  self <- get_this ;;
  let fillOrderPayload :=
    getFillOrderEIP712Payload fillDetails (mainchainChainId self)
      (EIP712_FILL_HASHER_ADDRESSES (environment self)) in
  takerSignature <- getEip712Signature fillOrderPayload ;;
  let payload :=
    {| IRelayerMetaFillOrderRequest.orderHashes := orderHashes;
       IRelayerMetaFillOrderRequest.takerAmounts := takerAmounts;
       IRelayerMetaFillOrderRequest.taker := getAddress (mainchainSigningWallet self);
       IRelayerMetaFillOrderRequest.takerSig := takerSignature;
       IRelayerMetaFillOrderRequest.fillSalt := N_toString fillSalt;
       IRelayerMetaFillOrderRequest.metadata := finalFillDetailsMetadata;
       IRelayerMetaFillOrderRequest.affiliateAddress := affiliateAddress;
       IRelayerMetaFillOrderRequest.approveProxyPayload := approveProxyPayload |} in
  debug ;; debug ;;
  response <- fetch (url_of self FILL_ORDERS) (Some (PFillOrders payload)) ;;
  result <- tryParseResponse response "Can't fill orders." ;;
  debug ;; debug ;;
  ret result
  end.

(** The object literal [cancelDetails] (lines 499-503) *)
Definition cancelDetails_of (orderHashes message : jsval) : ICancelDetails.t :=
  let finalMessage := js_or message (JStr "N/A") in
  {| ICancelDetails.orders := orderHashes; ICancelDetails.message := finalMessage |}.

Definition cancelOrder (orderHashes message : jsval) : async jsval :=
  debug ;;
  check (negb (isArray orderHashes)) (APISchemaError "orderHashes is not an array") ;;
  check (negb (forallb isHexString (items orderHashes)))
        (APISchemaError "orderHashes has some invalid order hashes.") ;;
  check (truthy message && negb (is_string message))
        (APISchemaError "message is not a string") ;;
  let cancelDetails := cancelDetails_of orderHashes message in
  self <- get_this ;;
  let cancelOrderPayload := getCancelOrderEIP712Payload cancelDetails (mainchainChainId self) in
  cancelSignature <- getEip712Signature cancelOrderPayload ;;
  let payload :=
    {| IRelayerCancelOrderRequest.details := cancelDetails;
       IRelayerCancelOrderRequest.cancelSignature := cancelSignature |} in
  debug ;; debug ;;
  response <- fetch (url_of self CANCEL_ORDERS) (Some (PCancelOrders payload)) ;;
  result <- tryParseResponse response "Can't cancel orders." ;;
  debug ;; debug ;;
  ret result.

Definition getPendingOrFailedBets (request : jsval) : async jsval :=
  debug ;;
  let validation := validateIGetPendingBetsRequest request in
  check (negb (validation =? "OK")) (APISchemaError validation) ;;
  self <- get_this ;;
  response <- fetch (url_of self PENDING_BETS) (Some (PJson request)) ;;
  result <- tryParseResponse response "Can't get recent pending bets" ;;
  debug ;; debug ;;
  data_field result "bets".

Definition getTrades (tradeRequest : jsval) : async jsval :=
  debug ;;
  let validation := validateIGetTradesRequest tradeRequest in
  check (negb (validation =? "OK")) (APISchemaError validation) ;;
  self <- get_this ;;
  response <- fetch (url_of self TRADES) (Some (PJson tradeRequest)) ;;
  result <- tryParseResponse response "Can't get trades" ;;
  debug ;; debug ;;
  data_field result "trades".

(** [...(v && { k: v })] *)
Definition spread (k : string) (v : jsval) : list (string * jsval) :=
  if truthy v then [(k, v)] else [].

Definition getOrders (marketHashes maker baseToken : jsval) : async jsval :=
  debug ;;
  allHex <- (if truthy marketHashes
             then orThrow TypeError (every isHexString marketHashes)
             else ret true) ;;
  check (negb allHex)
        (APISchemaError "One of the supplied market hashes is not a valid hex string.") ;;
  check (truthy maker && negb (isAddress maker))
        (APISchemaError "maker is not a valid address") ;;
  check (truthy baseToken && negb (isAddress baseToken))
        (APISchemaError "baseToken is not a valid address") ;;
  let payload :=
    JObj (spread "marketHashes" marketHashes ++ spread "maker" maker
          ++ spread "baseToken" baseToken)%list in
  self <- get_this ;;
  response <- fetch (url_of self ORDERS) (Some (PJson payload)) ;;
  result <- tryParseResponse response "Can't get orders" ;;
  debug ;; debug ;;
  orThrow TypeError (getProp result "data").

Definition lookup {A} (k : string) (l : list (string * A)) : option A :=
  option_map snd (find (fun p => fst p =? k) l).

Definition approveSportXContractsDai : async jsval :=
  self <- get_this ;;
  let walletAddress := getAddress (mainchainSigningWallet self) in
  tokens <- orThrow TypeError (TOKEN_ADDRESSES (mainchainNetwork self)) ;;
  dai <- orThrow TypeError (lookup Tokens_DAI tokens) ;;
  _ <- orThrow TypeError (lookup dai (baseTokenWrappers self)) ;;
  reply <- providerCall "nonces" ;;
  (* [nonce.toNumber()]: ethers throws when the value needs more than 53 bits *)
  nonce <- (match reply with
            | JNum n => if (Z.abs n <? 2 ^ 53)%Z then ret n else throw LibraryError
            | _ => throw TypeError
            end) ;;
  let details :=
    {| IPermit.holder := walletAddress;
       IPermit.spender := TOKEN_TRANSFER_PROXY_ADDRESS (environment self);
       IPermit.nonce := nonce;
       IPermit.expiry := 0;
       IPermit.allowed := true |} in
  let signPayload := getDaiPermitEIP712Payload details (mainchainChainId self) dai in
  signature <- getEip712Signature signPayload ;;
  response <- fetch (url_of self DAI_APPROVAL) (Some (PDaiApproval details signature)) ;;
  result <- tryParseResponse response "Can't approx SportX contracts" ;;
  debug ;; debug ;;
  ret result.

End Client.
End Modern.

(** ** A concrete setting

    Stand-ins for the imported helpers, small enough to run the clients on
    concrete inputs. *)

Definition starts_with_0x (s : string) : bool := String.prefix "0x" s.

Definition hexish (v : jsval) : bool :=
  match v with JStr s => starts_with_0x s | _ => false end.

Definition decimal (v : jsval) : option Z :=
  match v with
  | JStr s => option_map Z.of_int (NilZero.int_of_string s)
  | JNum n => Some n
  | _ => None
  end.

Definition positive_decimal (v : jsval) : bool :=
  match decimal v with Some z => (0 <? z)%Z | None => false end.

Definition quoted (s : string) : string :=
  let q := String (ascii_of_nat 34) EmptyString in q ++ s ++ q.

(** Two response bodies and the values they parse to *)
Definition success_text : string :=
  "{" ++ quoted "status" ++ ":" ++ quoted "success" ++ "," ++ quoted "data" ++ ":"
  ++ "{" ++ quoted "executorAddress" ++ ":" ++ quoted "0xE" ++ "}}".

Definition success_body : jsval :=
  JObj [("status", JStr "success"); ("data", JObj [("executorAddress", JStr "0xE")])].

Definition failure_text : string :=
  "{" ++ quoted "status" ++ ":" ++ quoted "failure" ++ "}".

Definition failure_body : jsval := JObj [("status", JStr "failure")].

Definition parse_known (text : string) : jsval * bool :=
  if text =? success_text then (success_body, true)
  else if text =? failure_text then (failure_body, true)
  else (JUndefined, false).

Definition zero_entropy : nat -> byte := fun _ => x00.

(** An entropy source that counts upwards *)
Definition counting_entropy : nat -> byte :=
  fun i => match Byte.of_nat (i mod 256) with Some b => b | None => x00 end.

Definition quiet_world : world :=
  {| trace := []; entropy := counting_entropy; consumed := 0;
     http := []; events := []; rpc := []; listeners := [] |}.

Definition with_http (l : list http_reply) (w : world) : world :=
  {| trace := trace w; entropy := entropy w; consumed := consumed w;
     http := l; events := events w; rpc := rpc w; listeners := listeners w |}.

Definition with_events (l : list (list event)) (w : world) : world :=
  {| trace := trace w; entropy := entropy w; consumed := consumed w;
     http := http w; events := l; rpc := rpc w; listeners := listeners w |}.

Definition with_rpc (l : list (option jsval)) (w : world) : world :=
  {| trace := trace w; entropy := entropy w; consumed := consumed w;
     http := http w; events := events w; rpc := l; listeners := listeners w |}.

Module LegacyDemo.
Import LegacyData.

Definition externals : Legacy.Externals :=
  {| Legacy.RELAYER_TIMEOUT := 10000;
     Legacy.WEBSOCKET_MESSAGE_KEYS := fun k =>
       match k with
       | Legacy.METADATA => "metadata" | Legacy.ACTIVE_MARKETS => "active_markets"
       | Legacy.NEW_ORDER => "new_order" | Legacy.CANCEL_ORDER => "cancel_order"
       end;
     Legacy.RELAYER_HTTP_ENDPOINTS := fun e =>
       match e with
       | Legacy.LEAGUES => "/leagues" | Legacy.SPORTS => "/sports"
       | Legacy.PENDING_BETS => "/pending-bets" | Legacy.ORDERS => "/orders"
       | Legacy.ACTIVE_ORDERS => "/active-orders"
       end;
     Legacy.walletAddress := fun key => "address-of-" ++ key;
     Legacy.validateINewOrderSchema := fun o =>
       if starts_with_0x (INewOrder.marketHash o) then "OK"
       else "marketHash is not a hex string";
     Legacy.validateOrderHashArray := fun hs =>
       if forallb starts_with_0x hs then "OK" else "orderHashes has invalid hashes";
     Legacy.isAddress := starts_with_0x;
     Legacy.isHexString := starts_with_0x;
     Legacy.bigNumberify := decimal;
     Legacy.formatUnits := fun z _ => Z_toString z;
     Legacy.getOrderSignature := fun o key =>
       "order-signature-" ++ IRelayerNewMakerOrder.salt o ++ "-" ++ key;
     Legacy.solidityKeccak256 := fun types values =>
       "keccak-of-" ++ N_toString (N.of_nat (length values)) ++ "-values";
     Legacy.arrayify := fun s => list_byte_of_string s;
     Legacy.signMessage := fun key bytes => "message-signature-" ++ string_of_list_byte bytes;
     Legacy.parseJson := fun text =>
       let (v, ok) := parse_known text in if ok then Some v else None;
     Legacy.convertToDecimalOdds := JNum;
     Legacy.convertToDisplayAmount := Z_toString;
     Legacy.Number := JStr |}.

Definition metadata : jsval :=
  JObj [("executorAddress", JStr "0xE"); ("relayerAddress", JStr "0xR");
        ("fees", JObj [("relayerTakerFee", JStr "2"); ("relayerMakerFee", JStr "1")]);
        ("makerOrderMinimum", JStr "100")].

Definition fresh : Legacy.SportX :=
  {| Legacy.signingWallet := "0xkey"; Legacy.relayerUrl := "wss://relayer";
     Legacy.initialized := false; Legacy.clientSocket := None;
     Legacy.metadata := JUndefined |}.

Definition ready : Legacy.SportX :=
  {| Legacy.signingWallet := "0xkey"; Legacy.relayerUrl := "wss://relayer";
     Legacy.initialized := true; Legacy.clientSocket := Some "wss://relayer";
     Legacy.metadata := metadata |}.

Definition order : INewOrder.t :=
  {| INewOrder.marketHash := "0xmarket"; INewOrder.totalBetSize := "500";
     INewOrder.percentageOdds := "50"; INewOrder.expiry := 1700000000;
     INewOrder.isMakerBettingOutcomeOne := true |}.

Definition ok : IAPIResponse.t :=
  {| IAPIResponse.status := "success"; IAPIResponse.reason := None |}.

Definition refused : IAPIResponse.t :=
  {| IAPIResponse.status := "failure"; IAPIResponse.reason := Some "maintenance" |}.

End LegacyDemo.

Module ModernDemo.
Import ModernData.

Definition externals : Modern.Externals :=
  {| Modern.RELAYER_TIMEOUT := 10000;
     Modern.RELAYER_HTTP_ENDPOINTS := fun e =>
       match e with
       | Modern.METADATA => "/metadata" | Modern.LEAGUES => "/leagues"
       | Modern.SPORTS => "/sports" | Modern.ACTIVE_MARKETS => "/markets/active"
       | Modern.HISTORICAL_MARKETS => "/markets/find" | Modern.NEW_ORDER => "/orders/new"
       | Modern.SUGGEST_ORDERS => "/orders/suggest" | Modern.FILL_ORDERS => "/orders/fill"
       | Modern.CANCEL_ORDERS => "/orders/cancel" | Modern.PENDING_BETS => "/pending-bets"
       | Modern.TRADES => "/trades" | Modern.ORDERS => "/orders"
       | Modern.DAI_APPROVAL => "/user/approve-proxy"
       end;
     Modern.TOKEN_ADDRESSES := fun network =>
       if network =? "main" then Some [("DAI", "0xdai"); ("WETH", "0xweth")]
       else if network =? "side" then Some [("DAI", "0xchilddai")]
       else None;
     Modern.Tokens_DAI := "DAI";
     Modern.TOKEN_TRANSFER_PROXY_ADDRESS := fun _ => "0xproxy";
     Modern.EIP712_FILL_HASHER_ADDRESSES := fun _ => "0xhasher";
     Modern.tryParseJson := parse_known;
     Modern.isHexString := hexish;
     Modern.isAddress := hexish;
     Modern.isPositiveBigNumber := positive_decimal;
     Modern.validateINewOrderSchema := fun o =>
       if starts_with_0x (INewOrder.marketHash o) then "OK"
       else "marketHash is not a hex string";
     Modern.validateISignedRelayerMakerOrder := fun o =>
       if starts_with_0x (ISignedRelayerMakerOrder.signature o) then "OK"
       else "signature is not a hex string";
     Modern.validateIFillDetailsMetadata := fun _ => "OK";
     Modern.validateIGetPendingBetsRequest := fun r =>
       match r with JObj _ => "OK" | _ => "request is not an object" end;
     Modern.validateIGetTradesRequest := fun r =>
       match r with JObj _ => "OK" | _ => "request is not an object" end;
     Modern.bigNumberify := decimal;
     Modern.convertToContractOrder := fun o =>
       JObj [("salt", JStr (IRelayerMakerOrder.salt (ISignedRelayerMakerOrder.order o)))];
     Modern.getOrderHash := fun o =>
       match getProp o "salt" with Some (JStr s) => "0xhash-" ++ s | _ => "0xhash" end;
     Modern.getOrderSignature := fun o _ => "0xsig-" ++ IRelayerMakerOrder.salt o;
     Modern.getCancelOrderEIP712Payload := fun d chainId =>
       JObj [("primaryType", JStr "Details"); ("chainId", chainId);
             ("message", JObj [("orders", ICancelDetails.orders d);
                               ("message", ICancelDetails.message d)])];
     Modern.getFillOrderEIP712Payload := fun d chainId hasher =>
       JObj [("primaryType", JStr "Details"); ("chainId", chainId);
             ("verifyingContract", JStr hasher);
             ("orders", JArr (IFillObject.orders (IFillDetails.fills d)));
             ("takerAmounts", JArr (map JNum (IFillObject.takerAmounts (IFillDetails.fills d))))];
     Modern.getDaiPermitEIP712Payload := fun d chainId token =>
       JObj [("primaryType", JStr "Permit"); ("chainId", chainId);
             ("verifyingContract", JStr token); ("holder", JStr (IPermit.holder d))];
     Modern.getAddress := fun signer =>
       match signer with
       | Modern.Wallet key => "address-of-" ++ key
       | Modern.JsonRpcSigner p => "account-of-" ++ Modern.handle p
       end;
     Modern.signTypedData_v4 := fun key _ => "0xtyped-signature-by-" ++ key;
     Modern.providerSend := fun p method _ _ => "0x" ++ method ++ "-by-" ++ Modern.handle p |}.

Definition fresh : Modern.SportX :=
  {| Modern.mainchainSigningWallet := Modern.Wallet "0xkey";
     Modern.relayerUrl := "https://relayer";
     Modern.mainchainProvider := Modern.JsonRpcProvider "https://mainchain";
     Modern.sidechainProvider := "https://sidechain";
     Modern.initialized := false;
     Modern.metadata := JUndefined;
     Modern.ably := None;
     Modern.environment := "production";
     Modern.privateKey := Some "0xkey";
     Modern.mainchainChainId := JUndefined;
     Modern.mainchainNetwork := "main";
     Modern.sidechainNetwork := "side";
     Modern.baseTokenWrappers := [] |}.

Definition ready : Modern.SportX :=
  Modern.with_initialized true
    (Modern.with_mainchainChainId (JNum 1)
       (Modern.with_metadata (JObj [("executorAddress", JStr "0xE")]) fresh)).

Definition order : INewOrder.t :=
  {| INewOrder.marketHash := "0xmarket"; INewOrder.totalBetSize := "500";
     INewOrder.percentageOdds := "50"; INewOrder.expiry := 1700000000;
     INewOrder.baseToken := "0xdai"; INewOrder.isMakerBettingOutcomeOne := true |}.

Definition maker_order (sig : string) : ISignedRelayerMakerOrder.t :=
  {| ISignedRelayerMakerOrder.order :=
       {| IRelayerMakerOrder.marketHash := "0xmarket"; IRelayerMakerOrder.maker := "0xmaker";
          IRelayerMakerOrder.totalBetSize := "500"; IRelayerMakerOrder.percentageOdds := "50";
          IRelayerMakerOrder.expiry := "1700000000"; IRelayerMakerOrder.executor := JStr "0xE";
          IRelayerMakerOrder.baseToken := "0xdai"; IRelayerMakerOrder.salt := "7";
          IRelayerMakerOrder.isMakerBettingOutcomeOne := true |};
     ISignedRelayerMakerOrder.signature := sig |}.

End ModernDemo.

(** ** Vocabulary of the statements *)

(** [n] lines of debug output *)
Definition chatter (n : nat) (w : world) : world := Nat.iter n (log EDebug) w.

(** Between [w] and [w'] the client reached nothing outside itself: the
    effects added are neither network calls nor signatures, no entropy was
    read, no answer of the outside world was consumed and no listener was
    put on the socket. *)
Definition untouched (w w' : world) : Prop :=
  (exists added, trace w' = (trace w ++ added)%list
                 /\ Forall (fun e => is_network e = false /\ is_signing e = false) added)
  /\ consumed w' = consumed w
  /\ http w' = http w /\ events w' = events w /\ rpc w' = rpc w
  /\ listeners w' = listeners w.

(** The call rejects with a schema error and leaves instance and world
    untouched. *)
Definition fails_fast {Self A} (m : M Self A) (s : state Self) : Prop :=
  exists msg s',
    m s = (Rejected (APISchemaError msg), s')
    /\ this s' = this s /\ untouched (io s) (io s').

(** The calls whose arguments do not pass a check of the method: one rule
    for each guard in the two clients that throws an APISchemaError on account
    of an argument alone. *)
Section Guards.
Context {LX : Legacy.Externals} {MX : Modern.Externals}.


End Guards.

(** What a signing effect puts its signature on, for typed data *)
Definition signed_data (e : effect) : option jsval :=
  match e with
  | ESignTypedData _ data => Some data
  | EProviderSend _ _ data => Some data
  | _ => None
  end.

(** The instance can sign typed data: it holds a private key, or a browser
    wallet. *)
Definition has_credential (self : Modern.SportX) : Prop :=
  (exists key, Modern.privateKey self = Some key /\ key <> "")
  \/ (exists p, Modern.mainchainProvider self = Modern.Web3 p).

(** The run of [m] from [s] adds these effects to the trace, and then maybe
    others *)
Definition begins_with {Self A} (m : M Self A) (s : state Self) (prefix : list effect) : Prop :=
  exists rest, trace (io (snd (m s))) = (trace (io s) ++ prefix ++ rest)%list.

(** The 32 bytes the next call of randomBytes(32) returns, the 32 bytes the
    call after it returns, and the salt made of such a block. *)
Definition next_block (w : world) : list byte :=
  map (entropy w) (seq (consumed w) 32).

Definition block_after (w : world) : list byte :=
  map (entropy w) (seq (consumed w + 32) 32).

(** The cached metadata of the legacy client holds what newOrder reads *)
Record legacy_metadata_holds `{LX : Legacy.Externals} (md : jsval)
    (executorAddress relayerAddress takerFee makerFee : jsval) (minimum : Z) : Prop := {
  holds_minimum : exists v, getProp md "makerOrderMinimum" = Some v
                            /\ Legacy.bigNumberify v = Some minimum;
  holds_fees : exists fees, getProp md "fees" = Some fees
                            /\ getProp fees "relayerTakerFee" = Some takerFee
                            /\ getProp fees "relayerMakerFee" = Some makerFee;
  holds_executor : getProp md "executorAddress" = Some executorAddress;
  holds_relayer : getProp md "relayerAddress" = Some relayerAddress
}.

(** The legacy newOrder signs [o] and emits it with its signature *)
Definition legacy_submits `{LX : Legacy.Externals} (order : LegacyData.INewOrder.t)
    (s : state Legacy.SportX) (o : LegacyData.IRelayerNewMakerOrder.t) : Prop :=
  begins_with (Legacy.newOrder order) s
    [ESignLegacyOrder o;
     EEmit (Legacy.WEBSOCKET_MESSAGE_KEYS Legacy.NEW_ORDER)
       (PLegacyNewOrder
          {| LegacyData.ISignedRelayerNewMakerOrder.order := o;
             LegacyData.ISignedRelayerNewMakerOrder.signature :=
               Legacy.getOrderSignature o (Legacy.signingWallet (this s)) |})].

(** The modern newOrder signs [o] and posts it with its signature *)
Definition modern_submits `{MX : Modern.Externals} (order : ModernData.INewOrder.t)
    (s : state Modern.SportX) (o : ModernData.IRelayerMakerOrder.t) : Prop :=
  begins_with (Modern.newOrder order) s
    [EDebug; EDebug; EDebug; ESignOrder o; EDebug; EDebug; EDebug;
     EFetch (Modern.url_of (this s) Modern.NEW_ORDER)
       (Some (PNewOrder
          [{| ModernData.ISignedRelayerMakerOrder.order := o;
              ModernData.ISignedRelayerMakerOrder.signature :=
                Modern.getOrderSignature o (Modern.mainchainSigningWallet (this s)) |}]))].

(** The HTTP calls of the modern client, with the message each hands to
    tryParseResponse and the part of the parsed body each returns. *)
Section Exchanges.
Context {MX : Modern.Externals}.

Inductive call : Type :=
| GetMetadata
| GetLeagues
| GetSports
| GetActiveMarkets
| MarketLookup (marketHashes : jsval)
| NewOrder (order : ModernData.INewOrder.t)
| SuggestOrders (marketHash betSize : string) (takerDirectionOutcomeOne : jsval)
    (taker baseToken : string)
| FillOrders (orders : list ModernData.ISignedRelayerMakerOrder.t) (takerAmounts : jsval)
    (fillDetailsMetadata : option ModernData.IFillDetailsMetadata.t)
    (affiliateAddress approveProxyPayload : jsval)
| CancelOrder (orderHashes message : jsval)
| GetPendingOrFailedBets (request : jsval)
| GetTrades (tradeRequest : jsval)
| GetOrders (marketHashes maker baseToken : jsval)
| ApproveSportXContractsDai.

Definition run (c : call) : Modern.async jsval :=
  match c with
  | GetMetadata => Modern.getMetadata
  | GetLeagues => Modern.getLeagues
  | GetSports => Modern.getSports
  | GetActiveMarkets => Modern.getActiveMarkets
  | MarketLookup hs => Modern.marketLookup hs
  | NewOrder o => Modern.newOrder o
  | SuggestOrders mh bs flag taker bt => Modern.suggestOrders mh bs flag taker bt
  | FillOrders os ta md aff ap => Modern.fillOrders os ta md aff ap
  | CancelOrder hs msg => Modern.cancelOrder hs msg
  | GetPendingOrFailedBets r => Modern.getPendingOrFailedBets r
  | GetTrades r => Modern.getTrades r
  | GetOrders mh mk bt => Modern.getOrders mh mk bt
  | ApproveSportXContractsDai => Modern.approveSportXContractsDai
  end.

Definition errorMessage (c : call) : string :=
  match c with
  | GetMetadata => "Can't fetch metadata"
  | GetLeagues => "Can't fetch leagues"
  | GetSports => "Can't fetch sports"
  | GetActiveMarkets => "Can't fetch active markets"
  | MarketLookup _ => "Can't lookup markets"
  | NewOrder _ => "Can't submit new order"
  | SuggestOrders _ _ _ _ _ => "Can't get suggested orders"
  | FillOrders _ _ _ _ _ => "Can't fill orders."
  | CancelOrder _ _ => "Can't cancel orders."
  | GetPendingOrFailedBets _ => "Can't get recent pending bets"
  | GetTrades _ => "Can't get trades"
  | GetOrders _ _ _ => "Can't get orders"
  | ApproveSportXContractsDai => "Can't approx SportX contracts"
  end.

Inductive selection : Type :=
| DataField                       (* the data field of the body *)
| NestedField (k : string)        (* the field k of the data field *)
| WholeBody.                      (* the parsed body itself *)

Definition returned (c : call) : selection :=
  match c with
  | GetMetadata | GetLeagues | GetSports | MarketLookup _ | GetOrders _ _ _ => DataField
  | GetActiveMarkets => NestedField "markets"
  | GetPendingOrFailedBets _ => NestedField "bets"
  | GetTrades _ => NestedField "trades"
  | NewOrder _ | SuggestOrders _ _ _ _ _ | FillOrders _ _ _ _ _ | CancelOrder _ _
  | ApproveSportXContractsDai => WholeBody
  end.

(** Reading the selected part; [None] when the read throws a TypeError *)
Definition select (sel : selection) (body : jsval) : option jsval :=
  match sel with
  | DataField => getProp body "data"
  | NestedField k =>
      match getProp body "data" with
      | Some data => getProp data k
      | None => None
      end
  | WholeBody => Some body
  end.

(** The contract of one exchange in the words of the specification: a body
    that does not parse fails with the raw text; a parsed body with a status
    other than 200 fails with the body and the status code; otherwise the
    selected part of the body is the result. *)
Definition spec_exchange (c : call) (status : Z) (text : string) : outcome jsval :=
  let (body, valid) := Modern.tryParseJson text in
  if negb valid then Rejected (APIError JUndefined ("Can't parse JSON " ++ text))
  else if negb (status =? 200)%Z
       then Rejected (APIError body (errorMessage c ++ ". Response code: " ++ Z_toString status))
       else match select (returned c) body with
            | Some v => Resolved v
            | None => Rejected TypeError
            end.

(** The call made its request and the relayer answered with this status and
    this body. *)
Definition answered (c : call) (s : state Modern.SportX) (status : Z) (text : string) : Prop :=
  exists rest, http (io s) = HttpReply status text :: rest
               /\ http (io (snd (run c s))) = rest.

End Exchanges.

(** The modern cancelOrder signs the typed payload made of [details] and
    posts [details] with the signature. *)
Definition cancel_submits `{MX : Modern.Externals} (orderHashes message : jsval)
    (s : state Modern.SportX) (details : ModernData.ICancelDetails.t) : Prop :=
  exists e sig,
    begins_with (Modern.cancelOrder orderHashes message) s
      [EDebug; e; EDebug; EDebug;
       EFetch (Modern.url_of (this s) Modern.CANCEL_ORDERS)
         (Some (PCancelOrders
            {| ModernData.IRelayerCancelOrderRequest.details := details;
               ModernData.IRelayerCancelOrderRequest.cancelSignature := sig |}))]
    /\ is_signing e = true
    /\ signed_data e
       = Some (Modern.getCancelOrderEIP712Payload details (Modern.mainchainChainId (this s))).

(** The callbacks of the executor never write debug output *)
Definition silent {A} (ex : executor A) : Prop :=
  ~ In DoDebug (on_start ex) /\ forall e, ~ In DoDebug (on_event ex e).

(** ** Construction

    The constructors of the two classes and the two [newSportX] functions.
    A constructor runs at once and either throws or returns the instance;
    [newSportX] constructs an instance in a world and awaits its [init].
    The environment is the string by which the tables of [./constants] are
    indexed. *)

Module LegacyConstruction.

Class Constants : Type := {
  PRODUCTION : string;                   (* Environments.PRODUCTION *)
  RINKEBY : string;                      (* Environments.RINKEBY *)
  PRODUCTION_RELAYER_URL : string;
  RINKEBY_RELAYER_URL : string;
  isWalletKey : string -> bool           (* new Wallet(privateKey) does not throw *)
}.

Section Construction.
Context {X : Legacy.Externals} {K : Constants}.

Definition instance (privateKey url : string) : Legacy.SportX :=
  {| Legacy.signingWallet := privateKey; Legacy.relayerUrl := url;
     Legacy.initialized := false; Legacy.clientSocket := None;
     Legacy.metadata := JUndefined |}.

(** [constructor] (lines 67-76) *)
Definition constructor (env privateKey : string) : error + Legacy.SportX :=
  if negb (isWalletKey privateKey) then inl LibraryError
  else if env =? PRODUCTION then inr (instance privateKey PRODUCTION_RELAYER_URL)
  else if env =? RINKEBY then inr (instance privateKey RINKEBY_RELAYER_URL)
  else inl (Error ("Invalid environment: " ++ env)).

(** [newSportX] (lines 349-353) *)
Definition newSportX (env privateKey : string) (w : world) : outcome Legacy.SportX * world :=
  match constructor env privateKey with
  | inl e => (Rejected e, w)
  | inr sportX =>
      match Legacy.init {| this := sportX; io := w |} with
      | (Resolved _, s) => (Resolved (this s), io s)
      | (Rejected e, s) => (Rejected e, io s)
      | (Pending, s) => (Pending, io s)
      end
  end.

End Construction.
End LegacyConstruction.

Module ModernConstruction.

Class Constants : Type := {
  isEnvironment : string -> bool;        (* Object.values(Environments).includes(env) *)
  RELAYER_URLS : string -> string;
  getMainchainNetwork : string -> option string;
  getSidechainNetwork : string -> option string;
  isWalletKey : string -> bool           (* new Wallet(privateKey) does not throw *)
}.

Section Construction.
Context {X : Modern.Externals} {K : Constants}.

(** [`${url}`] of an optional string *)
Definition show_optional (o : option string) : string :=
  match o with Some s => s | None => "undefined" end.

(** The value of an optional string in a test: absent and empty are falsy *)
Definition given (o : option string) : string :=
  match o with Some s => s | None => "" end.

(** The signer, the provider and the stored key chosen by lines 145-163 *)
Definition credentials (privateKey mainchainProviderUrl : option string)
    (mainchainProvider : option Modern.Web3Provider)
  : error + (Modern.Signer * Modern.Provider * option string) :=
  let key := given privateKey in
  if negb (key =? "") && negb (Modern.isHexString (JStr key))
  then inl (Error (key ++ " is not a valid private key."))
  else if negb (key =? "") then
    if given mainchainProviderUrl =? ""
    then inl (Error (show_optional mainchainProviderUrl
                       ++ " is not provided. Required for initialization via private key"))
    else if isWalletKey key
         then inr (Modern.Wallet key, Modern.JsonRpcProvider (given mainchainProviderUrl),
                   Some key)
         else inl LibraryError
  else match mainchainProvider with
       | Some p => inr (Modern.JsonRpcSigner p, Modern.Web3 p, None)
       | None => inl (Error "Neither privateKey nor both providers provided.")
       end.

(** [constructor] (lines 134-171) *)
Definition constructor (env sidechainProviderUrl : string)
    (privateKey mainchainProviderUrl : option string)
    (mainchainProvider : option Modern.Web3Provider) : error + Modern.SportX :=
  if sidechainProviderUrl =? "" then inl (Error "sidechainProviderUrl not provided")
  else
    match credentials privateKey mainchainProviderUrl mainchainProvider with
    | inl e => inl e
    | inr (signer, provider, storedKey) =>
        if negb (isEnvironment env) then inl (Error ("Invalid environment: " ++ env))
        else
          match getMainchainNetwork env, getSidechainNetwork env with
          | Some mainchain, Some sidechain =>
              inr {| Modern.mainchainSigningWallet := signer;
                     Modern.relayerUrl := RELAYER_URLS env;
                     Modern.mainchainProvider := provider;
                     Modern.sidechainProvider := sidechainProviderUrl;
                     Modern.initialized := false;
                     Modern.metadata := JUndefined;
                     Modern.ably := None;
                     Modern.environment := env;
                     Modern.privateKey := storedKey;
                     Modern.mainchainChainId := JUndefined;
                     Modern.mainchainNetwork := mainchain;
                     Modern.sidechainNetwork := sidechain;
                     Modern.baseTokenWrappers := [] |}
          | _, _ => inl LibraryError
          end
    end.

(** [newSportX] (lines 714-730) *)
Definition newSportX (env sidechainProviderUrl : string)
    (privateKey mainchainProviderUrl : option string)
    (mainchainProvider : option Modern.Web3Provider) (w : world)
  : outcome Modern.SportX * world :=
  match constructor env sidechainProviderUrl privateKey mainchainProviderUrl
          mainchainProvider with
  | inl e => (Rejected e, w)
  | inr sportX =>
      match Modern.init {| this := sportX; io := w |} with
      | (Resolved _, s) => (Resolved (this s), io s)
      | (Rejected e, s) => (Rejected e, io s)
      | (Pending, s) => (Pending, io s)
      end
  end.

End Construction.
End ModernConstruction.

Definition legacy_constants : LegacyConstruction.Constants :=
  {| LegacyConstruction.PRODUCTION := "production";
     LegacyConstruction.RINKEBY := "rinkeby";
     LegacyConstruction.PRODUCTION_RELAYER_URL := "wss://relayer";
     LegacyConstruction.RINKEBY_RELAYER_URL := "wss://rinkeby-relayer";
     LegacyConstruction.isWalletKey := starts_with_0x |}.

Definition modern_constants : ModernConstruction.Constants :=
  {| ModernConstruction.isEnvironment := fun env =>
       (env =? "production") || (env =? "mumbai");
     ModernConstruction.RELAYER_URLS := fun env =>
       if env =? "production" then "https://relayer" else "https://mumbai-relayer";
     ModernConstruction.getMainchainNetwork := fun _ => Some "main";
     ModernConstruction.getSidechainNetwork := fun _ => Some "side";
     ModernConstruction.isWalletKey := starts_with_0x |}.

Definition metamask : Modern.Web3Provider :=
  {| Modern.handle := "metamask"; Modern.isMetaMask := JBool true |}.

(** ** Further vocabulary *)

(** How the credential of the instance signs typed data (lines 669-694 of
    the modern client): with the private key, when the instance holds one, by
    signTypedData_v4 on that key; otherwise through the browser wallet, asked
    by eth_signTypedData_v4 when it is MetaMask and by eth_signTypedData when
    it is not, in the name of the signer's address.  The effect is the
    request to sign and the text is what the signer returns. *)
Definition wallet_method (p : Modern.Web3Provider) : string :=
  match Modern.isMetaMask p with
  | JBool true => "eth_signTypedData_v4"
  | _ => "eth_signTypedData"
  end.

Inductive signs_typed `{MX : Modern.Externals} (self : Modern.SportX) (payload : jsval)
  : effect -> string -> Prop :=
| signs_with_key key :
    Modern.privateKey self = Some key -> key <> "" ->
    signs_typed self payload
      (ESignTypedData key payload) (Modern.signTypedData_v4 key payload)
| signs_with_wallet p :
    (forall key, Modern.privateKey self = Some key -> key = "") ->
    Modern.mainchainProvider self = Modern.Web3 p ->
    signs_typed self payload
      (EProviderSend (wallet_method p)
         (Modern.getAddress (Modern.mainchainSigningWallet self)) payload)
      (Modern.providerSend p (wallet_method p)
         (Modern.getAddress (Modern.mainchainSigningWallet self)) payload).

(** Does the connection come up during these events? *)
Definition connects (evs : list event) : bool :=
  existsb (fun e => match e with Connect => true | _ => false end) evs.

(** The promise has not been resolved *)
Definition unresolved {A} (p : promise A) : Prop :=
  forall a, settled p <> Resolved a.

(** [getRealtimeConnection] (lines 173-175 of the modern client) *)
Definition getRealtimeConnection (self : Modern.SportX) : option string :=
  Modern.ably self.

(** The calls of the modern client that only read from the relayer *)
Definition is_query (c : call) : bool :=
  match c with
  | NewOrder _ | FillOrders _ _ _ _ _ | CancelOrder _ _ | ApproveSportXContractsDai => false
  | _ => true
  end.

(** Between [w] and [w'] nothing was signed and no entropy was read *)
Definition nothing_signed (w w' : world) : Prop :=
  (exists added, trace w' = (trace w ++ added)%list
                 /\ Forall (fun e => is_signing e = false) added)
  /\ consumed w' = consumed w.

(** * Verification *)

(** ** Calling a method twice *)

Ltac run_async :=
  cbv beta iota zeta delta
    [bind ret throw get_this set_this perform debug orThrow
     Legacy.set_clientSocket Legacy.set_initialized Legacy.set_metadata Legacy.socket
     Modern.update Modern.check next_bytes].

Ltac run_async_in H :=
  cbv beta iota zeta delta
    [bind ret throw get_this set_this perform debug orThrow
     Legacy.set_clientSocket Legacy.set_initialized Legacy.set_metadata Legacy.socket
     Modern.update Modern.check next_bytes] in H.

Ltac simpl_state :=
  cbn [this io trace entropy consumed http events rpc listeners log fst snd
       Legacy.signingWallet Legacy.relayerUrl Legacy.initialized Legacy.clientSocket
       Legacy.metadata
       Modern.mainchainSigningWallet Modern.relayerUrl Modern.mainchainProvider
       Modern.sidechainProvider Modern.initialized Modern.metadata Modern.ably
       Modern.environment Modern.privateKey Modern.mainchainChainId
       Modern.mainchainNetwork Modern.sidechainNetwork Modern.baseTokenWrappers
       Modern.with_ably Modern.with_metadata Modern.with_mainchainChainId
       Modern.with_baseTokenWrappers Modern.with_initialized] in *.

Ltac step := run_async; simpl_state.

(** Case analysis on an innermost scrutinee of the goal *)
Ltac case_goal :=
  match goal with
  | |- context [match ?x with _ => _ end] =>
      lazymatch x with
      | context [match _ with _ => _ end] => fail
      | _ => destruct x eqn:?
      end
  end.

Ltac case_split :=
  match goal with
  | |- context [match ?x with _ => _ end] => destruct x eqn:?
  | H : context [match ?x with _ => _ end] |- _ => destruct x eqn:?
  end.

Lemma legacy_init_refused `{X : Legacy.Externals} (s : state Legacy.SportX) :
  Legacy.initialized (this s) = true ->
  Legacy.init s = (Rejected (Error "Already initialized"), s).
Proof.
  intros Hi. unfold Legacy.init. run_async. rewrite Hi. reflexivity.
Qed.

Lemma modern_init_refused `{X : Modern.Externals} (s : state Modern.SportX) :
  Modern.initialized (this s) = true ->
  Modern.init s = (Rejected (Error "Already initialized"), s).
Proof.
  intros Hi. unfold Modern.init. run_async. rewrite Hi. reflexivity.
Qed.

Lemma legacy_init_marks `{X : Legacy.Externals} (s s' : state Legacy.SportX) :
  Legacy.init s = (Resolved tt, s') -> Legacy.initialized (this s') = true.
Proof.
  unfold Legacy.init, Legacy.getMetadata, await_on_socket. step.
  intros Hr. repeat (case_split; simpl_state); inversion Hr; reflexivity.
Qed.

Lemma bind_resolved {Self A B} (m : M Self A) (k : A -> M Self B) s b s' :
  bind m k s = (Resolved b, s') ->
  exists a s1, m s = (Resolved a, s1) /\ k a s1 = (Resolved b, s').
Proof.
  unfold bind. destruct (m s) as [[a| |] s1]; intros Hk; try discriminate.
  now exists a, s1.
Qed.

Ltac walk H :=
  repeat match type of H with
         | bind _ _ _ = (Resolved _, _) =>
             apply bind_resolved in H; destruct H as (? & ? & ? & H)
         | (if ?c then _ else _) _ = (Resolved _, _) =>
             destruct c; [discriminate H|]
         end.

Lemma modern_init_marks `{X : Modern.Externals} (s s' : state Modern.SportX) :
  Modern.init s = (Resolved tt, s') -> Modern.initialized (this s') = true.
Proof.
  unfold Modern.init. intros Hr. walk Hr.
  match goal with
  | Hu : Modern.update (Modern.with_initialized true) _ = _ |- _ =>
      unfold debug, perform in Hr; inversion Hr; subst; clear Hr;
      unfold Modern.update in Hu; run_async_in Hu; inversion Hu; subst; reflexivity
  end.
Qed.

(** ** Hand-built promises: once settled, always settled *)

Section Promises.
Context {A : Type}.
Implicit Types (p : promise A) (ex : executor A).

Lemma settle_settled o p : is_settled p -> settle o p = p.
Proof.
  unfold is_settled, settle. destruct (settled p); congruence.
Qed.

Lemma act_settled p a : is_settled p -> settled (act p a) = settled p.
Proof.
  intros Hs. destruct a; simpl; try reflexivity; now rewrite settle_settled.
Qed.

Lemma acts_settled l : forall p, is_settled p -> settled (fold_left act l p) = settled p.
Proof.
  induction l as [|a l IH]; intros p Hs; simpl; [reflexivity|].
  rewrite IH; [now apply act_settled|].
  unfold is_settled. now rewrite act_settled.
Qed.

Lemma firing_settled (l : list (N * error)) : forall p,
  is_settled p ->
  fold_left (fun q t => settle (Rejected (snd t)) q) l p = p.
Proof.
  induction l as [|t l IH]; intros p Hs; simpl; [reflexivity|].
  rewrite settle_settled by assumption. now apply IH.
Qed.

Lemma advance_settled ms p : is_settled p -> settled (advance ms p) = settled p.
Proof.
  intros Hs. unfold advance. now rewrite firing_settled.
Qed.

Lemma deliver_settled ex p e : is_settled p -> settled (deliver ex p e) = settled p.
Proof.
  intros Hs. destruct e; simpl;
    first [now apply acts_settled | now apply advance_settled].
Qed.

Lemma deliveries_settled ex evs : forall p,
  is_settled p -> settled (fold_left (deliver ex) evs p) = settled p.
Proof.
  induction evs as [|e evs IH]; intros p Hs; simpl; [reflexivity|].
  rewrite IH; [now apply deliver_settled|].
  unfold is_settled. now rewrite deliver_settled.
Qed.

(** A promise with no timer and no settlement is unmoved by the passing of
    time. *)
Lemma advance_idle ms p :
  timers p = [] -> settled (advance ms p) = settled p /\ timers (advance ms p) = [].
Proof.
  intros Ht. unfold advance. rewrite Ht. simpl. auto.
Qed.

End Promises.

(** ** Timers *)

Section Timers.
Context {A : Type}.
Implicit Types (p : promise A) (ex : executor A).

(** One armed timer, not yet due, on a pending promise: it fires as soon as
    enough time has passed without a reaction. *)
Lemma single_timer_fires ex d e waiting : forall p,
  Forall (inert ex) waiting ->
  settled p = Pending -> timers p = [(d, e)] -> (clock p < d)%N ->
  (d <= clock p + elapsed waiting)%N ->
  settled (fold_left (deliver ex) waiting p) = Rejected e.
Proof.
  induction waiting as [|ev waiting IH]; intros p Hin Hp Ht Hc Hd; simpl in *.
  - lia.
  - inversion Hin as [|? ? Hev Hrest]; subst.
    destruct ev; simpl in Hev; simpl; try (rewrite Hev; simpl; now apply IH).
    unfold advance. rewrite Ht. simpl. unfold due. simpl.
    destruct (N.leb_spec d (clock p + ms)) as [Hdue|Hnot]; simpl.
    + rewrite deliveries_settled.
      * unfold settle. simpl. now rewrite Hp.
      * unfold is_settled, settle. simpl. rewrite Hp. simpl. discriminate.
    + apply IH; simpl; auto; lia.
Qed.

Lemma timeout_guard ex timeout e :
  on_start ex = [DoSetTimeout timeout e] -> (0 < timeout)%N -> times_out ex timeout e.
Proof.
  intros Hs Hpos waiting rest Hin Hel.
  unfold run_promise. rewrite fold_left_app.
  assert (Hw : settled (fold_left (deliver ex) waiting (start ex)) = Rejected e).
  { apply single_timer_fires with (d := timeout); auto;
      unfold start; rewrite Hs; simpl; auto; lia. }
  rewrite deliveries_settled; [exact Hw|].
  unfold is_settled. rewrite Hw. discriminate.
Qed.

(** No timer and no reaction: the promise stays pending for ever. *)
Lemma never_settles ex evs : forall p,
  Forall (inert ex) evs ->
  settled p = Pending -> timers p = [] ->
  settled (fold_left (deliver ex) evs p) = Pending.
Proof.
  induction evs as [|ev evs IH]; intros p Hin Hp Ht; simpl; [assumption|].
  inversion Hin as [|? ? Hev Hrest]; subst.
  destruct ev; simpl in Hev; simpl; try (rewrite Hev; simpl; now apply IH).
  destruct (advance_idle ms p Ht) as [Hs Ht'].
  apply IH; auto. now rewrite Hs.
Qed.

End Timers.

(** The promise of the legacy [init] resolves exactly when the socket
    connects: nothing else settles it, and no timer runs before that. *)
Lemma legacy_init_promise_connects `{X : Legacy.Externals} evs : forall p,
  settled p = Pending -> timers p = [] -> In Connect evs ->
  settled (fold_left (deliver Legacy.init_promise) evs p) = Resolved tt.
Proof.
  induction evs as [|ev evs IH]; intros p Hp Ht Hin; simpl in *; [contradiction|].
  destruct ev; simpl.
  - rewrite deliveries_settled;
      unfold is_settled, settle; simpl; rewrite Hp; simpl; [reflexivity|discriminate].
  - apply IH; auto. destruct Hin; [discriminate|assumption].
  - apply IH; auto. destruct Hin; [discriminate|assumption].
  - destruct (advance_idle ms p Ht) as [Hs Ht'].
    apply IH; auto; [now rewrite Hs | destruct Hin; [discriminate|assumption]].
Qed.

Lemma legacy_init_promise_waits `{X : Legacy.Externals} evs :
  ~ In Connect evs -> settled (run_promise Legacy.init_promise evs) = Pending.
Proof.
  intros Hno. apply never_settles; auto.
  apply Forall_forall. intros e He. destruct e; simpl; auto.
  contradiction.
Qed.

(** C2, as stated, fails: the timer of the legacy init is set by the connect
    callback and the timer of the legacy getActiveMarkets by the
    acknowledgment callback, so while the relayer stays silent no timer runs
    and neither promise is ever rejected, however long the wait.  The calls
    made with fetch have no timer at all: an unanswered getLeagues, in either
    client, never settles.  The timer of the modern init does fire, but
    rejects without an error. *)
Lemma legacy_init_is_not_guarded :
  (~ exists e, times_out (Legacy.init_promise (X := LegacyDemo.externals)) 10000 e)
  /\ (~ exists e, times_out (Legacy.getActiveMarkets_promise (X := LegacyDemo.externals)) 10000 e)
  /\ fst (Legacy.init (X := LegacyDemo.externals)
            {| this := LegacyDemo.fresh;
               io := with_events [[Tick 10000; Tick 10000]] quiet_world |}) = Pending
  /\ fst (Legacy.getActiveMarkets (X := LegacyDemo.externals)
            {| this := LegacyDemo.ready;
               io := with_events [[Tick 10000; Tick 10000]] quiet_world |}) = Pending
  /\ fst (Legacy.getLeagues (X := LegacyDemo.externals)
            {| this := LegacyDemo.ready; io := quiet_world |}) = Pending
  /\ fst (Modern.getLeagues (X := ModernDemo.externals)
            {| this := ModernDemo.ready; io := quiet_world |}) = Pending
  /\ fst (Modern.init (X := ModernDemo.externals)
            {| this := ModernDemo.fresh;
               io := with_events [[Tick 10000; Tick 10000]] quiet_world |})
     = Rejected NoReason.
Proof.
  split; [|split; [|repeat split]].
  - intros [e He].
    assert (Hin : Forall (inert (Legacy.init_promise (X := LegacyDemo.externals))) [Tick 10000])
      by (repeat constructor).
    specialize (He [Tick 10000%N] [] Hin). vm_compute in He.
    specialize (He (fun H => match H with eq_refl => I end)). discriminate.
  - intros [e He].
    assert (Hin : Forall (inert (Legacy.getActiveMarkets_promise (X := LegacyDemo.externals)))
                    [Tick 10000])
      by (repeat constructor).
    specialize (He [Tick 10000%N] [] Hin). vm_compute in He.
    specialize (He (fun H => match H with eq_refl => I end)). discriminate.
Qed.

(** C2, amended: the promises awaited by getMetadata, newOrder and
    cancelOrder of the legacy client set their timer when they are created.
    If nothing they react to happens before RELAYER_TIMEOUT milliseconds have
    passed, they are rejected with an APITimeoutError, whatever happens
    later.  The promise awaited by init of the modern client is guarded in the
    same way but is rejected without a reason. *)
Theorem armed_timeouts_fire `{LX : Legacy.Externals} `{MX : Modern.Externals} :
  (0 < Legacy.RELAYER_TIMEOUT)%N ->
  (0 < Modern.RELAYER_TIMEOUT)%N ->
  times_out Legacy.getMetadata_promise Legacy.RELAYER_TIMEOUT
    (APITimeoutError "Timeout getting metadata from the SportX API")
  /\ times_out Legacy.newOrder_promise Legacy.RELAYER_TIMEOUT
       (APITimeoutError "Timeout getting submitting order to the SportX API")
  /\ times_out Legacy.cancelOrder_promise Legacy.RELAYER_TIMEOUT
       (APITimeoutError "Timeout getting submitting order to the SportX API")
  /\ times_out Modern.init_promise Modern.RELAYER_TIMEOUT NoReason.
Proof.
  intros HL HM. repeat split; apply timeout_guard; auto.
Qed.

Lemma armed_timeouts_fire_demo :
  settled (run_promise (Legacy.getMetadata_promise (X := LegacyDemo.externals))
             ([Ack LegacyDemo.ok; Tick 4000; Push "other" JNull; Tick 6000]
              ++ [Push "metadata" LegacyDemo.metadata]))
  = Rejected (APITimeoutError "Timeout getting metadata from the SportX API")
  /\ settled (run_promise (Modern.init_promise (X := ModernDemo.externals))
                ([Tick 10000] ++ [Connect]))
     = Rejected NoReason.
Proof.
  assert (HL : (0 < Legacy.RELAYER_TIMEOUT (Externals := LegacyDemo.externals))%N)
    by reflexivity.
  assert (HM : (0 < Modern.RELAYER_TIMEOUT (Externals := ModernDemo.externals))%N)
    by reflexivity.
  destruct (armed_timeouts_fire (LX := LegacyDemo.externals) (MX := ModernDemo.externals)
              HL HM) as (Hmeta & _ & _ & Hinit).
  split.
  - apply Hmeta.
    + repeat constructor.
    + vm_compute. discriminate.
  - apply Hinit.
    + repeat constructor.
    + vm_compute. discriminate.
Defined.

(** ** Initialisation *)

(** C8: in either client, an init() that follows a successful init() is
    rejected with the error "Already initialized", and the rejected call
    changes neither the instance (connection, cached metadata, flag) nor
    anything in the world. *)
Theorem second_init_is_refused `{LX : Legacy.Externals} `{MX : Modern.Externals} :
  (forall s s' : state Legacy.SportX,
      Legacy.init s = (Resolved tt, s') ->
      Legacy.init s' = (Rejected (Error "Already initialized"), s'))
  /\ (forall s s' : state Modern.SportX,
         Modern.init s = (Resolved tt, s') ->
         Modern.init s' = (Rejected (Error "Already initialized"), s')).
Proof.
  split; intros s s' Hfirst.
  - apply legacy_init_refused. now apply legacy_init_marks with (s := s).
  - apply modern_init_refused. now apply modern_init_marks with (s := s).
Qed.

Lemma second_init_is_refused_demo :
  let l0 := {| this := LegacyDemo.fresh;
               io := with_events [[Connect]; [Push "metadata" LegacyDemo.metadata]]
                       quiet_world |} in
  let m0 := {| this := ModernDemo.fresh;
               io := with_rpc [Some (JObj [("chainId", JNum 1)])]
                       (with_http [HttpReply 200 success_text]
                          (with_events [[Connect]] quiet_world)) |} in
  let l1 := snd (Legacy.init (X := LegacyDemo.externals) l0) in
  let m1 := snd (Modern.init (X := ModernDemo.externals) m0) in
  (Legacy.init (X := LegacyDemo.externals) l0 = (Resolved tt, l1)
   /\ Legacy.init (X := LegacyDemo.externals) l1
      = (Rejected (Error "Already initialized"), l1))
  /\ (Modern.init (X := ModernDemo.externals) m0 = (Resolved tt, m1)
      /\ Modern.init (X := ModernDemo.externals) m1
         = (Rejected (Error "Already initialized"), m1)).
Proof.
  intros l0 m0 l1 m1.
  assert (Hl : Legacy.init (X := LegacyDemo.externals) l0 = (Resolved tt, l1))
    by (vm_compute; reflexivity).
  assert (Hm : Modern.init (X := ModernDemo.externals) m0 = (Resolved tt, m1))
    by (vm_compute; reflexivity).
  destruct (second_init_is_refused (LX := LegacyDemo.externals) (MX := ModernDemo.externals))
    as [HL HM].
  split; split; auto.
Defined.

(** C9: the legacy init sets the initialized flag as soon as the socket has
    connected, before the metadata arrives.  When the connection succeeds and
    the metadata request is rejected, init is rejected with the same error,
    the instance is left initialized with its metadata as it was (none, on a
    new instance), and from then on init is refused with "Already
    initialized" in whatever world it is called. *)
Theorem legacy_init_is_not_atomic `{X : Legacy.Externals} (s : state Legacy.SportX)
    (connecting fetching : list event) (rest : list (list event)) (e : error) :
  Legacy.initialized (this s) = false ->
  events (io s) = connecting :: fetching :: rest ->
  In Connect connecting ->
  settled (run_promise Legacy.getMetadata_promise fetching) = Rejected e ->
  exists s',
    Legacy.init s = (Rejected e, s')
    /\ Legacy.initialized (this s') = true
    /\ Legacy.metadata (this s') = Legacy.metadata (this s)
    /\ forall w : world,
         Legacy.init {| this := this s'; io := w |}
         = (Rejected (Error "Already initialized"), {| this := this s'; io := w |}).
Proof.
  intros Hfresh Hev Hconn Hfail.
  assert (Hconnected : settled (run_promise Legacy.init_promise connecting) = Resolved tt)
    by (now apply legacy_init_promise_connects).
  eexists. split.
  - unfold Legacy.init, Legacy.getMetadata, await_on_socket. step.
    rewrite Hfresh, Hev. simpl hd. simpl tl. rewrite Hconnected. step.
    simpl hd. rewrite Hfail. reflexivity.
  - simpl. split; [reflexivity|]. split; [reflexivity|].
    intros w. now apply legacy_init_refused.
Qed.

Lemma legacy_init_is_not_atomic_demo :
  let s := {| this := LegacyDemo.fresh;
              io := with_events [[Connect]; [Ack LegacyDemo.refused]] quiet_world |} in
  exists s',
    Legacy.init (X := LegacyDemo.externals) s
    = (Rejected (Error "Error getting metadata from the SportX API"), s')
    /\ Legacy.initialized (this s') = true
    /\ Legacy.metadata (this s') = JUndefined
    /\ forall w : world,
         Legacy.init (X := LegacyDemo.externals) {| this := this s'; io := w |}
         = (Rejected (Error "Already initialized"), {| this := this s'; io := w |}).
Proof.
  intros s.
  apply (legacy_init_is_not_atomic (X := LegacyDemo.externals) s
           [Connect] [Ack LegacyDemo.refused] []
           (Error "Error getting metadata from the SportX API")).
  - reflexivity.
  - reflexivity.
  - simpl. auto.
  - reflexivity.
Defined.

(** ** Validation comes first *)

Lemma chatter_untouched n w : untouched w (chatter n w).
Proof.
  induction n as [|n IH]; simpl.
  - repeat split; auto. exists []. split; [now rewrite app_nil_r | constructor].
  - destruct IH as ((added & Ht & Hq) & Hc & Hh & He & Hr & Hl).
    repeat split; simpl; auto.
    exists (added ++ [EDebug])%list. split.
    + rewrite Ht. now rewrite app_assoc.
    + apply Forall_app. split; [assumption|]. repeat constructor.
Qed.

Lemma schema_rejection {Self A} (m : M Self A) (s : state Self) msg n :
  m s = (Rejected (APISchemaError msg), {| this := this s; io := chatter n (io s) |}) ->
  fails_fast m s.
Proof.
  intros Hm. exists msg. eexists. split; [exact Hm|]. split; [reflexivity|].
  apply chatter_untouched.
Qed.





(** C3: the code breaks the claim at one guard.  Given a string where the
    array of market hashes is expected, marketLookup and cancelOrder test
    isArray and throw an APISchemaError at once; getOrders has no such test
    and calls every on the string, which is a TypeError: the wrong array
    shape is not reported as a schema error there. *)
Lemma getOrders_takes_a_string_for_an_array :
  let s := {| this := ModernDemo.ready;
              io := with_http [HttpReply 200 success_text] quiet_world |} in
  let hash := JStr "0xaa" in
  Modern.getOrders (X := ModernDemo.externals) hash JUndefined JUndefined s
  = (Rejected TypeError, {| this := this s; io := log EDebug (io s) |})
  /\ ~ fails_fast (Modern.getOrders (X := ModernDemo.externals) hash JUndefined JUndefined) s
  /\ fails_fast (Modern.marketLookup (X := ModernDemo.externals) hash) s
  /\ fails_fast (Modern.cancelOrder (X := ModernDemo.externals) hash JUndefined) s.
Proof.
  intros s hash. split; [reflexivity|]. split; [|split].
  - intros (msg & s' & Hrun & _). vm_compute in Hrun. discriminate Hrun.
  - apply schema_rejection with (msg := "marketHashes is not a hex string ") (n := 1).
    reflexivity.
  - apply schema_rejection with (msg := "orderHashes is not an array") (n := 1).
    reflexivity.
Qed.



(** ** Signing with the credential of the instance *)

Lemma getEip712Signature_signs `{X : Modern.Externals} payload (s : state Modern.SportX) :
  has_credential (this s) ->
  exists e sig,
    Modern.getEip712Signature payload s
    = (Resolved sig, {| this := this s; io := log e (io s) |})
    /\ signed_data e = Some payload /\ is_signing e = true.
Proof.
  intros Hc. unfold Modern.getEip712Signature. step.
  destruct (Modern.privateKey (this s)) as [key|] eqn:Hk.
  - destruct (key =? "") eqn:Hempty; simpl.
    + destruct Hc as [(k & Hk' & Hne)|(p & Hp)].
      * rewrite Hk in Hk'. inversion Hk'; subst. apply String.eqb_eq in Hempty. contradiction.
      * rewrite Hp. destruct (Modern.isMetaMask p) as [| |[|]| | | |];
          step; do 2 eexists; (split; [reflexivity|split; reflexivity]).
    + do 2 eexists. split; [reflexivity|split; reflexivity].
  - simpl. destruct Hc as [(k & Hk' & Hne)|(p & Hp)]; [rewrite Hk in Hk'; discriminate|].
    rewrite Hp. destruct (Modern.isMetaMask p) as [| |[|]| | | |];
      step; do 2 eexists; (split; [reflexivity|split; reflexivity]).
Qed.

Lemma getEip712Signature_by_credential `{X : Modern.Externals} payload
    (s : state Modern.SportX) :
  has_credential (this s) ->
  exists e signature,
    Modern.getEip712Signature payload s
    = (Resolved signature, {| this := this s; io := log e (io s) |})
    /\ signs_typed (this s) payload e signature.
Proof.
  intros Hc. unfold Modern.getEip712Signature. step.
  destruct (Modern.privateKey (this s)) as [key|] eqn:Hk.
  - destruct (key =? "") eqn:Hempty; simpl.
    + apply String.eqb_eq in Hempty. subst key.
      destruct Hc as [(k & Hk' & Hne)|(p & Hp)]; [congruence|].
      rewrite Hp.
      exists (EProviderSend (wallet_method p)
                (Modern.getAddress (Modern.mainchainSigningWallet (this s))) payload),
        (Modern.providerSend p (wallet_method p)
           (Modern.getAddress (Modern.mainchainSigningWallet (this s))) payload).
      split.
      * unfold wallet_method.
        destruct (Modern.isMetaMask p) as [| |[|]| | | |]; reflexivity.
      * apply signs_with_wallet; [|exact Hp]. intros k Hk'. congruence.
    + apply String.eqb_neq in Hempty.
      exists (ESignTypedData key payload), (Modern.signTypedData_v4 key payload).
      split; [reflexivity|]. now apply signs_with_key.
  - simpl. destruct Hc as [(k & Hk' & Hne)|(p & Hp)]; [congruence|].
    rewrite Hp.
    exists (EProviderSend (wallet_method p)
              (Modern.getAddress (Modern.mainchainSigningWallet (this s))) payload),
      (Modern.providerSend p (wallet_method p)
         (Modern.getAddress (Modern.mainchainSigningWallet (this s))) payload).
    split.
    + unfold wallet_method.
      destruct (Modern.isMetaMask p) as [| |[|]| | | |]; reflexivity.
    + apply signs_with_wallet; [|exact Hp]. intros k Hk'. congruence.
Qed.

Lemma signs_typed_signs `{X : Modern.Externals} self payload e signature :
  signs_typed self payload e signature ->
  is_signing e = true /\ signed_data e = Some payload.
Proof.
  intros [key _ _|p _ _]; split; reflexivity.
Qed.

(** ** Filling orders *)

Lemma map_bigNumberify_length `{X : Modern.Externals} l : forall zs,
  Modern.map_bigNumberify l = Some zs -> length zs = length l.
Proof.
  induction l as [|v l IH]; intros zs Hm; simpl in Hm.
  - now inversion Hm.
  - destruct (Modern.bigNumberify v); [|discriminate].
    destruct (Modern.map_bigNumberify l) as [zs'|]; [|discriminate].
    inversion Hm; subst. simpl. f_equal. now apply IH.
Qed.

Ltac trace_prefix :=
  unfold begins_with; simpl_state; repeat rewrite <- app_assoc; cbn [app];
  eexists; reflexivity.

(** C1, as stated, fails: one order and two taker amounts, each valid on its
    own, pass every check of fillOrders; the call signs a FillDetails with one
    order, one maker signature and two taker amounts, posts it and resolves. *)
Lemma fillOrders_accepts_mismatched_lengths :
  let orders := [ModernDemo.maker_order "0xs1"] in
  let takerAmounts := JArr [JStr "1"; JStr "2"] in
  let s := {| this := ModernDemo.ready;
              io := with_http [HttpReply 200 success_text] quiet_world |} in
  let r := Modern.fillOrders (X := ModernDemo.externals) orders takerAmounts None
             JUndefined JUndefined s in
  length orders <> length (Modern.items takerAmounts)
  /\ fst r = Resolved success_body
  /\ exists fd : ModernData.IFillDetails.t,
       In (ESignTypedData "0xkey"
             (Modern.getFillOrderEIP712Payload (Externals := ModernDemo.externals)
                fd (JNum 1) "0xhasher"))
          (trace (io (snd r)))
       /\ length (ModernData.IFillObject.orders (ModernData.IFillDetails.fills fd)) = 1
       /\ length (ModernData.IFillObject.makerSigs (ModernData.IFillDetails.fills fd)) = 1
       /\ length (ModernData.IFillObject.takerAmounts (ModernData.IFillDetails.fills fd)) = 2.
Proof.
  intros orders takerAmounts s r. split; [simpl; discriminate|].
  split; [vm_compute; reflexivity|].
  exists (Modern.fillDetails_of (X := ModernDemo.externals) orders [1%Z; 2%Z]
            Modern.default_metadata
            (bigNumberify_bytes (map counting_entropy (seq 0 32)))).
  split; [|repeat split].
  vm_compute. right. left. reflexivity.
Qed.

(** C1, amended: fillOrders compares no lengths.  When every order, the
    affiliate address, the metadata and every taker amount pass their own
    checks, the call signs a FillDetails whose orders and makerSigs have the
    length of the orders argument and whose takerAmounts has the length of
    the takerAmounts argument; the three lengths agree exactly when the
    caller passed arrays of equal length. *)
Theorem fillOrders_signs_the_lengths_it_is_given `{X : Modern.Externals}
    (orders : list ModernData.ISignedRelayerMakerOrder.t) (amounts : list jsval)
    (numbers : list Z) (md : option ModernData.IFillDetailsMetadata.t)
    (affiliate approval : jsval) (s : state Modern.SportX) :
  has_credential (this s) ->
  Modern.first_malformed orders = None ->
  truthy affiliate && negb (Modern.isAddress affiliate) = false ->
  (forall m, md = Some m -> Modern.validateIFillDetailsMetadata m = "OK") ->
  forallb Modern.isPositiveBigNumber amounts = true ->
  Modern.map_bigNumberify amounts = Some numbers ->
  exists (fd : ModernData.IFillDetails.t) (e : effect),
    begins_with (Modern.fillOrders orders (JArr amounts) md affiliate approval) s [EDebug; e]
    /\ is_signing e = true
    /\ signed_data e
       = Some (Modern.getFillOrderEIP712Payload fd (Modern.mainchainChainId (this s))
                 (Modern.EIP712_FILL_HASHER_ADDRESSES (Modern.environment (this s))))
    /\ length (ModernData.IFillObject.orders (ModernData.IFillDetails.fills fd)) = length orders
    /\ length (ModernData.IFillObject.makerSigs (ModernData.IFillDetails.fills fd)) = length orders
    /\ length (ModernData.IFillObject.takerAmounts (ModernData.IFillDetails.fills fd))
       = length amounts
    /\ (length (ModernData.IFillObject.orders (ModernData.IFillDetails.fills fd))
        = length (ModernData.IFillObject.takerAmounts (ModernData.IFillDetails.fills fd))
        <-> length orders = length amounts).
Proof.
  intros Hcred Horders Haff Hmd Hpos Hnum.
  pose (salt := bigNumberify_bytes (map (entropy (io s)) (seq (consumed (io s)) 32))).
  pose (fd := Modern.fillDetails_of orders numbers
                (match md with Some m => m | None => Modern.default_metadata end) salt).
  pose (s1 := {| this := this s;
                 io := {| trace := (trace (io s) ++ [EDebug])%list;
                          entropy := entropy (io s);
                          consumed := consumed (io s) + 32;
                          http := http (io s); events := events (io s);
                          rpc := rpc (io s); listeners := listeners (io s) |} |}).
  destruct (getEip712Signature_signs
              (Modern.getFillOrderEIP712Payload fd (Modern.mainchainChainId (this s))
                 (Modern.EIP712_FILL_HASHER_ADDRESSES (Modern.environment (this s)))) s1 Hcred)
    as (e & sig & Hsign & Hdata & Hsigning).
  assert (Hlen : length numbers = length amounts) by now apply map_bigNumberify_length.
  exists fd, e. split; [|split; [exact Hsigning|split; [exact Hdata|]]].
  - unfold begins_with, Modern.fillOrders.
    rewrite Horders, Haff.
    assert (Hvalid : forall m, md = Some m ->
                      negb (Modern.validateIFillDetailsMetadata m =? "OK") = false).
    { intros m Hm. rewrite (Hmd m Hm). reflexivity. }
    destruct md as [m|]; [cbv zeta; rewrite (Hvalid m eq_refl)|];
      change (Modern.items (JArr amounts)) with amounts;
      change (isArray (JArr amounts)) with true;
      rewrite Hpos, Hnum; cbn [negb]; step;
      unfold randomBytes; step;
      fold salt; fold fd; fold s1; rewrite Hsign; subst s1; step;
      unfold fetch, Modern.tryParseResponse; step;
      repeat (case_goal; step); trace_prefix.
  - subst fd. simpl. rewrite !length_map. repeat split; auto; lia.
Qed.

Lemma fillOrders_signs_the_lengths_it_is_given_demo :
  let orders := [ModernDemo.maker_order "0xs1"; ModernDemo.maker_order "0xs2"] in
  let amounts := [JStr "1"; JStr "2"] in
  let s := {| this := ModernDemo.ready;
              io := with_http [HttpReply 200 success_text] quiet_world |} in
  exists (fd : ModernData.IFillDetails.t) (e : effect),
    begins_with (Modern.fillOrders (X := ModernDemo.externals) orders (JArr amounts) None
                   JUndefined JUndefined) s [EDebug; e]
    /\ is_signing e = true
    /\ signed_data e
       = Some (Modern.getFillOrderEIP712Payload (Externals := ModernDemo.externals)
                 fd (JNum 1) "0xhasher")
    /\ length (ModernData.IFillObject.orders (ModernData.IFillDetails.fills fd)) = 2
    /\ length (ModernData.IFillObject.makerSigs (ModernData.IFillDetails.fills fd)) = 2
    /\ length (ModernData.IFillObject.takerAmounts (ModernData.IFillDetails.fills fd)) = 2
    /\ (length (ModernData.IFillObject.orders (ModernData.IFillDetails.fills fd))
        = length (ModernData.IFillObject.takerAmounts (ModernData.IFillDetails.fills fd))
        <-> 2 = 2).
Proof.
  intros orders amounts s.
  apply (fillOrders_signs_the_lengths_it_is_given (X := ModernDemo.externals)
           orders amounts [1%Z; 2%Z] None JUndefined JUndefined s).
  - left. exists "0xkey". split; [reflexivity|discriminate].
  - reflexivity.
  - reflexivity.
  - intros m Hm. discriminate Hm.
  - reflexivity.
  - reflexivity.
Defined.

(** ** Salts *)

Lemma be_value_shift bs : forall acc,
  be_value acc bs = (acc * 256 ^ N.of_nat (length bs) + be_value 0 bs)%N.
Proof.
  induction bs as [|b bs IH]; intros acc; simpl length.
  - simpl. lia.
  - cbn [be_value]. rewrite (IH (acc * 256 + Byte.to_N b)%N), (IH (0 * 256 + Byte.to_N b)%N).
    rewrite Nat2N.inj_succ, N.pow_succ_r'. lia.
Qed.

Lemma be_value_bound bs : (be_value 0 bs < 256 ^ N.of_nat (length bs))%N.
Proof.
  induction bs as [|b bs IH]; simpl length.
  - simpl. lia.
  - cbn [be_value]. rewrite be_value_shift.
    rewrite Nat2N.inj_succ, N.pow_succ_r'.
    pose proof (Byte.to_N_bounded b). nia.
Qed.

Lemma byte_to_N_inj b1 b2 : Byte.to_N b1 = Byte.to_N b2 -> b1 = b2.
Proof.
  intros Heq. pose proof (Byte.of_to_N b1) as H1. pose proof (Byte.of_to_N b2) as H2.
  rewrite Heq in H1. congruence.
Qed.

Lemma be_value_inj bs1 : forall bs2,
  length bs1 = length bs2 -> be_value 0 bs1 = be_value 0 bs2 -> bs1 = bs2.
Proof.
  induction bs1 as [|b1 bs1 IH]; intros [|b2 bs2] Hlen Hval; simpl in Hlen;
    try discriminate; [reflexivity|].
  injection Hlen as Hlen. cbn [be_value] in Hval.
  rewrite (be_value_shift bs1), (be_value_shift bs2) in Hval.
  rewrite <- Hlen in Hval.
  pose proof (be_value_bound bs1) as B1. pose proof (be_value_bound bs2) as B2.
  rewrite <- Hlen in B2.
  set (P := (256 ^ N.of_nat (length bs1))%N) in *.
  assert (Hb : Byte.to_N b1 = Byte.to_N b2) by nia.
  assert (Hr : be_value 0 bs1 = be_value 0 bs2) by nia.
  f_equal; [now apply byte_to_N_inj | now apply IH].
Qed.

Lemma N_toString_inj n m : N_toString n = N_toString m -> n = m.
Proof.
  unfold N_toString. intros Heq.
  apply DecimalN.Unsigned.to_uint_inj.
  pose proof (NilEmpty.usu (N.to_uint n)) as Hn.
  pose proof (NilEmpty.usu (N.to_uint m)) as Hm.
  rewrite Heq in Hn. congruence.
Qed.

(** Two blocks of equal length give the same salt only if they are the same
    block. *)
Lemma salt_of_inj b1 b2 :
  length b1 = length b2 -> (salt_of b1 = salt_of b2 <-> b1 = b2).
Proof.
  intros Hlen. split; [|congruence].
  unfold salt_of, bigNumberify_bytes. intros Heq.
  apply be_value_inj; [assumption|]. now apply N_toString_inj.
Qed.

Lemma blocks_same_length w : length (next_block w) = length (block_after w).
Proof.
  unfold next_block, block_after. now rewrite !length_map, !length_seq.
Qed.

(** ** New orders *)

Lemma modern_newOrder_once `{MX : Modern.Externals} (order : ModernData.INewOrder.t)
    (s : state Modern.SportX) (z : Z) (executorAddress : jsval) :
  Modern.validateINewOrderSchema order = "OK" ->
  Modern.bigNumberify (JStr (ModernData.INewOrder.totalBetSize order)) = Some z ->
  getProp (Modern.metadata (this s)) "executorAddress" = Some executorAddress ->
  exists o,
    modern_submits order s o
    /\ ModernData.IRelayerMakerOrder.maker o
       = Modern.getAddress (Modern.mainchainSigningWallet (this s))
    /\ ModernData.IRelayerMakerOrder.executor o = executorAddress
    /\ ModernData.IRelayerMakerOrder.salt o = salt_of (next_block (io s))
    /\ this (snd (Modern.newOrder order s)) = this s
    /\ entropy (io (snd (Modern.newOrder order s))) = entropy (io s)
    /\ consumed (io (snd (Modern.newOrder order s))) = consumed (io s) + 32.
Proof.
  intros Hvalid Hbet Hexec.
  exists {| ModernData.IRelayerMakerOrder.marketHash := ModernData.INewOrder.marketHash order;
            ModernData.IRelayerMakerOrder.maker :=
              Modern.getAddress (Modern.mainchainSigningWallet (this s));
            ModernData.IRelayerMakerOrder.totalBetSize := Z_toString z;
            ModernData.IRelayerMakerOrder.percentageOdds :=
              ModernData.INewOrder.percentageOdds order;
            ModernData.IRelayerMakerOrder.expiry :=
              Z_toString (ModernData.INewOrder.expiry order);
            ModernData.IRelayerMakerOrder.executor := executorAddress;
            ModernData.IRelayerMakerOrder.baseToken := ModernData.INewOrder.baseToken order;
            ModernData.IRelayerMakerOrder.salt := salt_of (next_block (io s));
            ModernData.IRelayerMakerOrder.isMakerBettingOutcomeOne :=
              ModernData.INewOrder.isMakerBettingOutcomeOne order |}.
  unfold modern_submits, begins_with, Modern.newOrder.
  rewrite Hvalid, Hbet. change ("OK" =? "OK") with true. cbn [negb]. step.
  unfold randomBytes. step. rewrite Hexec. step.
  fold (next_block (io s)).
  unfold fetch, Modern.tryParseResponse. step.
  repeat (case_goal; step);
    (split; [trace_prefix | repeat split; reflexivity]).
Qed.

Lemma legacy_newOrder_once `{LX : Legacy.Externals} (order : LegacyData.INewOrder.t)
    (s : state Legacy.SportX) (z minimum : Z)
    (executorAddress relayerAddress takerFee makerFee : jsval) (url : string) :
  Legacy.validateINewOrderSchema order = "OK" ->
  Legacy.bigNumberify (JStr (LegacyData.INewOrder.totalBetSize order)) = Some z ->
  legacy_metadata_holds (Legacy.metadata (this s))
    executorAddress relayerAddress takerFee makerFee minimum ->
  (minimum <= z)%Z ->
  Legacy.clientSocket (this s) = Some url ->
  exists o,
    legacy_submits order s o
    /\ LegacyData.IRelayerNewMakerOrder.maker o
       = Legacy.walletAddress (Legacy.signingWallet (this s))
    /\ LegacyData.IRelayerNewMakerOrder.executor o = executorAddress
    /\ LegacyData.IRelayerNewMakerOrder.relayer o = relayerAddress
    /\ LegacyData.IRelayerNewMakerOrder.relayerTakerFee o = takerFee
    /\ LegacyData.IRelayerNewMakerOrder.relayerMakerFee o = makerFee
    /\ LegacyData.IRelayerNewMakerOrder.salt o = salt_of (next_block (io s))
    /\ this (snd (Legacy.newOrder order s)) = this s
    /\ entropy (io (snd (Legacy.newOrder order s))) = entropy (io s)
    /\ consumed (io (snd (Legacy.newOrder order s))) = consumed (io s) + 32.
Proof.
  intros Hvalid Hbet [(v & Hmin & Hbig) (fees & Hfees & Htaker & Hmaker) Hexec Hrel] Hle Hsock.
  exists {| LegacyData.IRelayerNewMakerOrder.marketHash :=
              LegacyData.INewOrder.marketHash order;
            LegacyData.IRelayerNewMakerOrder.maker :=
              Legacy.walletAddress (Legacy.signingWallet (this s));
            LegacyData.IRelayerNewMakerOrder.totalBetSize := Z_toString z;
            LegacyData.IRelayerNewMakerOrder.percentageOdds :=
              LegacyData.INewOrder.percentageOdds order;
            LegacyData.IRelayerNewMakerOrder.expiry :=
              Z_toString (LegacyData.INewOrder.expiry order);
            LegacyData.IRelayerNewMakerOrder.relayerTakerFee := takerFee;
            LegacyData.IRelayerNewMakerOrder.relayerMakerFee := makerFee;
            LegacyData.IRelayerNewMakerOrder.executor := executorAddress;
            LegacyData.IRelayerNewMakerOrder.relayer := relayerAddress;
            LegacyData.IRelayerNewMakerOrder.salt := salt_of (next_block (io s));
            LegacyData.IRelayerNewMakerOrder.isMakerBettingOutcomeOne :=
              LegacyData.INewOrder.isMakerBettingOutcomeOne order |}.
  assert (Hnot : (z <? minimum)%Z = false) by (apply Z.ltb_ge; assumption).
  unfold legacy_submits, begins_with, Legacy.newOrder, Legacy.read2.
  rewrite Hvalid, Hbet. change ("OK" =? "OK") with true. cbn [negb]. step. rewrite Hmin. step. rewrite Hbig. step. rewrite Hnot.
  unfold randomBytes. step. rewrite Hfees. step. rewrite Htaker, Hmaker. step.
  rewrite Hexec, Hrel. step. rewrite Hsock. step.
  fold (next_block (io s)).
  unfold await_on_socket. step.
  split; [trace_prefix | repeat split; reflexivity].
Qed.

(** C4: for a valid order intent, the order that newOrder signs and submits
    has as maker the address of the signing credential of the instance, as
    executor (and, in the legacy client, relayer and fee rates) the values of
    the cached metadata, and as salt the decimal text of 32 bytes newly read
    from the random source.  A second call with the same intent reads the
    next 32 bytes, so the two salts differ exactly when the two draws
    differ. *)
Theorem newOrder_builds_the_canonical_order `{LX : Legacy.Externals} `{MX : Modern.Externals} :
  (forall (order : LegacyData.INewOrder.t) (s : state Legacy.SportX) (z minimum : Z)
          (executorAddress relayerAddress takerFee makerFee : jsval) (url : string),
      Legacy.validateINewOrderSchema order = "OK" ->
      Legacy.bigNumberify (JStr (LegacyData.INewOrder.totalBetSize order)) = Some z ->
      legacy_metadata_holds (Legacy.metadata (this s))
        executorAddress relayerAddress takerFee makerFee minimum ->
      (minimum <= z)%Z ->
      Legacy.clientSocket (this s) = Some url ->
      let s1 := snd (Legacy.newOrder order s) in
      exists o1 o2,
        legacy_submits order s o1 /\ legacy_submits order s1 o2
        /\ (forall o, o = o1 \/ o = o2 ->
              LegacyData.IRelayerNewMakerOrder.maker o
              = Legacy.walletAddress (Legacy.signingWallet (this s))
              /\ LegacyData.IRelayerNewMakerOrder.executor o = executorAddress
              /\ LegacyData.IRelayerNewMakerOrder.relayer o = relayerAddress
              /\ LegacyData.IRelayerNewMakerOrder.relayerTakerFee o = takerFee
              /\ LegacyData.IRelayerNewMakerOrder.relayerMakerFee o = makerFee)
        /\ LegacyData.IRelayerNewMakerOrder.salt o1 = salt_of (next_block (io s))
        /\ LegacyData.IRelayerNewMakerOrder.salt o2 = salt_of (block_after (io s))
        /\ (LegacyData.IRelayerNewMakerOrder.salt o1 = LegacyData.IRelayerNewMakerOrder.salt o2
            <-> next_block (io s) = block_after (io s)))
  /\ (forall (order : ModernData.INewOrder.t) (s : state Modern.SportX) (z : Z)
             (executorAddress : jsval),
         Modern.validateINewOrderSchema order = "OK" ->
         Modern.bigNumberify (JStr (ModernData.INewOrder.totalBetSize order)) = Some z ->
         getProp (Modern.metadata (this s)) "executorAddress" = Some executorAddress ->
         let s1 := snd (Modern.newOrder order s) in
         exists o1 o2,
           modern_submits order s o1 /\ modern_submits order s1 o2
           /\ (forall o, o = o1 \/ o = o2 ->
                 ModernData.IRelayerMakerOrder.maker o
                 = Modern.getAddress (Modern.mainchainSigningWallet (this s))
                 /\ ModernData.IRelayerMakerOrder.executor o = executorAddress)
           /\ ModernData.IRelayerMakerOrder.salt o1 = salt_of (next_block (io s))
           /\ ModernData.IRelayerMakerOrder.salt o2 = salt_of (block_after (io s))
           /\ (ModernData.IRelayerMakerOrder.salt o1 = ModernData.IRelayerMakerOrder.salt o2
               <-> next_block (io s) = block_after (io s))).
Proof.
  split.
  - intros order s z minimum ex rl tf mf url Hvalid Hbet Hmd Hle Hsock s1.
    destruct (legacy_newOrder_once order s z minimum ex rl tf mf url Hvalid Hbet Hmd Hle Hsock)
      as (o1 & Hsub1 & Hmaker1 & Hex1 & Hrl1 & Htf1 & Hmf1 & Hsalt1 & Hthis & Hent & Hcons).
    fold s1 in Hthis, Hent, Hcons.
    assert (Hmd1 : legacy_metadata_holds (Legacy.metadata (this s1)) ex rl tf mf minimum)
      by (rewrite Hthis; exact Hmd).
    assert (Hsock1 : Legacy.clientSocket (this s1) = Some url) by (rewrite Hthis; exact Hsock).
    destruct (legacy_newOrder_once order s1 z minimum ex rl tf mf url
                Hvalid Hbet Hmd1 Hle Hsock1)
      as (o2 & Hsub2 & Hmaker2 & Hex2 & Hrl2 & Htf2 & Hmf2 & Hsalt2 & _).
    assert (Hblock : next_block (io s1) = block_after (io s))
      by (unfold next_block, block_after; now rewrite Hent, Hcons).
    rewrite Hblock in Hsalt2. rewrite Hthis in Hmaker2.
    exists o1, o2. repeat split; auto.
    + destruct H as [-> | ->]; assumption.
    + destruct H as [-> | ->]; assumption.
    + destruct H as [-> | ->]; assumption.
    + destruct H as [-> | ->]; assumption.
    + destruct H as [-> | ->]; assumption.
    + rewrite Hsalt1, Hsalt2. apply salt_of_inj, blocks_same_length.
    + rewrite Hsalt1, Hsalt2. apply salt_of_inj, blocks_same_length.
  - intros order s z ex Hvalid Hbet Hexec s1.
    destruct (modern_newOrder_once order s z ex Hvalid Hbet Hexec)
      as (o1 & Hsub1 & Hmaker1 & Hex1 & Hsalt1 & Hthis & Hent & Hcons).
    fold s1 in Hthis, Hent, Hcons.
    assert (Hexec1 : getProp (Modern.metadata (this s1)) "executorAddress" = Some ex)
      by (rewrite Hthis; exact Hexec).
    destruct (modern_newOrder_once order s1 z ex Hvalid Hbet Hexec1)
      as (o2 & Hsub2 & Hmaker2 & Hex2 & Hsalt2 & _).
    assert (Hblock : next_block (io s1) = block_after (io s))
      by (unfold next_block, block_after; now rewrite Hent, Hcons).
    rewrite Hblock in Hsalt2. rewrite Hthis in Hmaker2.
    exists o1, o2. repeat split; auto.
    + destruct H as [-> | ->]; assumption.
    + destruct H as [-> | ->]; assumption.
    + rewrite Hsalt1, Hsalt2. apply salt_of_inj, blocks_same_length.
    + rewrite Hsalt1, Hsalt2. apply salt_of_inj, blocks_same_length.
Qed.

Lemma newOrder_builds_the_canonical_order_demo :
  let ls := {| this := LegacyDemo.ready;
               io := with_events [[Ack LegacyDemo.ok]; [Ack LegacyDemo.ok]] quiet_world |} in
  let ms := {| this := ModernDemo.ready;
               io := with_http [HttpReply 200 success_text; HttpReply 200 success_text]
                       quiet_world |} in
  (exists o1 o2,
      legacy_submits (LX := LegacyDemo.externals) LegacyDemo.order ls o1
      /\ legacy_submits (LX := LegacyDemo.externals) LegacyDemo.order
           (snd (Legacy.newOrder (X := LegacyDemo.externals) LegacyDemo.order ls)) o2
      /\ LegacyData.IRelayerNewMakerOrder.maker o1 = "address-of-0xkey"
      /\ LegacyData.IRelayerNewMakerOrder.executor o1 = JStr "0xE"
      /\ LegacyData.IRelayerNewMakerOrder.salt o1 <> LegacyData.IRelayerNewMakerOrder.salt o2)
  /\ (exists o1 o2,
         modern_submits (MX := ModernDemo.externals) ModernDemo.order ms o1
         /\ modern_submits (MX := ModernDemo.externals) ModernDemo.order
              (snd (Modern.newOrder (X := ModernDemo.externals) ModernDemo.order ms)) o2
         /\ ModernData.IRelayerMakerOrder.maker o1 = "address-of-0xkey"
         /\ ModernData.IRelayerMakerOrder.executor o1 = JStr "0xE"
         /\ ModernData.IRelayerMakerOrder.salt o1 <> ModernData.IRelayerMakerOrder.salt o2).
Proof.
  intros ls ms.
  assert (Hdraws : next_block quiet_world <> block_after quiet_world)
    by (intros Heq; vm_compute in Heq; discriminate Heq).
  destruct (newOrder_builds_the_canonical_order
              (LX := LegacyDemo.externals) (MX := ModernDemo.externals)) as [HL HM].
  split.
  - destruct (HL LegacyDemo.order ls 500%Z 100%Z (JStr "0xE") (JStr "0xR") (JStr "2") (JStr "1")
                "wss://relayer")
      as (o1 & o2 & H1 & H2 & Hfields & _ & _ & Hsalts).
    + reflexivity.
    + reflexivity.
    + constructor.
      * exists (JStr "100"). split; reflexivity.
      * exists (JObj [("relayerTakerFee", JStr "2"); ("relayerMakerFee", JStr "1")]).
        repeat split; reflexivity.
      * reflexivity.
      * reflexivity.
    + lia.
    + reflexivity.
    + exists o1, o2. destruct (Hfields o1 (or_introl eq_refl)) as (Hm & He & _).
      repeat split; auto. intros Heq. apply Hdraws. apply Hsalts. exact Heq.
  - destruct (HM ModernDemo.order ms 500%Z (JStr "0xE"))
      as (o1 & o2 & H1 & H2 & Hfields & _ & _ & Hsalts).
    + reflexivity.
    + reflexivity.
    + reflexivity.
    + exists o1, o2. destruct (Hfields o1 (or_introl eq_refl)) as (Hm & He).
      repeat split; auto. intros Heq. apply Hdraws. apply Hsalts. exact Heq.
Defined.

(** ** Request and response *)

Lemma cons_neq {T} (x : T) (l : list T) : x :: l <> l.
Proof.
  revert x. induction l as [|y l IH]; intros x Heq; [discriminate|].
  injection Heq as Hx Hl. now apply (IH y).
Qed.

Lemma tryParseResponse_cases `{MX : Modern.Externals} (status : Z) (text errorMessage : string)
    (s : state Modern.SportX) :
  Modern.tryParseResponse (status, text) errorMessage s =
  let (body, valid) := Modern.tryParseJson text in
  if negb valid
  then (Rejected (APIError JUndefined ("Can't parse JSON " ++ text)), s)
  else if negb (status =? 200)%Z
       then (Rejected (APIError body (errorMessage ++ ". Response code: " ++ Z_toString status)),
             {| this := this s; io := chatter 2 (io s) |})
       else (Resolved body, s).
Proof.
  unfold Modern.tryParseResponse. cbn [fst snd].
  destruct (Modern.tryParseJson text) as [body valid].
  destruct valid; destruct (status =? 200)%Z; reflexivity.
Qed.

Ltac settle_exchange :=
  intros Hrest;
  first [ exfalso; exact (cons_neq _ _ Hrest)
        | reflexivity
        | discriminate ].

Ltac exchange :=
  unfold fetch, providerCall, randomBytes, Modern.tryParseResponse, Modern.data_field,
    Modern.getEip712Signature;
  step;
  repeat (case_goal; step);
  settle_exchange.

(** C5, as stated, fails: newOrder answered with status 200 and a body that
    parses resolves with the whole parsed body, not with its data field. *)
Lemma newOrder_resolves_with_the_whole_body :
  let s := {| this := ModernDemo.ready;
              io := with_http [HttpReply 200 success_text] quiet_world |} in
  let outcome := fst (Modern.newOrder (X := ModernDemo.externals) ModernDemo.order s) in
  Modern.tryParseJson (Externals := ModernDemo.externals) success_text = (success_body, true)
  /\ getProp success_body "data" = Some (JObj [("executorAddress", JStr "0xE")])
  /\ outcome = Resolved success_body
  /\ outcome <> Resolved (JObj [("executorAddress", JStr "0xE")]).
Proof.
  intros s outcome.
  assert (Hout : outcome = Resolved success_body) by (vm_compute; reflexivity).
  repeat split; auto. rewrite Hout. discriminate.
Qed.

Ltac exchange_step Hhttp Hparse Hstatus :=
  first [ rewrite Hhttp | rewrite Hparse | rewrite Hstatus | case_goal ];
  step; cbn [negb andb orb].

(** C5, amended: every HTTP call of the modern client that makes its request
    and receives an answer follows one contract.  A body that does not parse
    as JSON rejects with an APIError without details whose message is
    "Can't parse JSON " followed by the raw text.  A body that parses under a
    status other than 200 rejects with an APIError carrying the parsed body
    and the message of the call followed by ". Response code: " and the
    status.  Otherwise getMetadata, getLeagues, getSports, marketLookup and
    getOrders resolve with the data field of the body; getActiveMarkets,
    getPendingOrFailedBets and getTrades with the markets, bets and trades
    field of the data field; newOrder, suggestOrders, fillOrders, cancelOrder
    and approveSportXContractsDai with the whole parsed body; a read from a
    missing object is a TypeError. *)
Theorem exchanges_follow_the_contract `{MX : Modern.Externals}
    (c : call) (s : state Modern.SportX) (status : Z) (text : string) :
  answered c s status text -> fst (run c s) = spec_exchange c status text.
Proof.
  intros (rest & Hhttp & Hrest). revert Hrest.
  destruct s as [self w]. cbn [io] in Hhttp.
  unfold spec_exchange.
  destruct (Modern.tryParseJson text) as [body valid] eqn:Hparse.
  destruct valid; destruct (status =? 200)%Z eqn:Hstatus; cbn [negb];
  destruct c; cbn [run errorMessage returned select];
    unfold Modern.getMetadata, Modern.getLeagues, Modern.getSports, Modern.getActiveMarkets,
      Modern.marketLookup, Modern.newOrder, Modern.suggestOrders, Modern.fillOrders,
      Modern.cancelOrder, Modern.getPendingOrFailedBets, Modern.getTrades, Modern.getOrders,
      Modern.approveSportXContractsDai;
    unfold fetch, providerCall, randomBytes, Modern.tryParseResponse, Modern.data_field,
      Modern.getEip712Signature;
    step; repeat exchange_step Hhttp Hparse Hstatus; settle_exchange.
Qed.

Lemma exchanges_follow_the_contract_demo :
  let s := {| this := ModernDemo.ready;
              io := with_http [HttpReply 500 failure_text] quiet_world |} in
  let c := CancelOrder (JArr [JStr "0xaa"]) (JStr "test") in
  answered (MX := ModernDemo.externals) c s 500 failure_text
  /\ fst (Modern.cancelOrder (X := ModernDemo.externals) (JArr [JStr "0xaa"]) (JStr "test") s)
     = Rejected (APIError failure_body "Can't cancel orders.. Response code: 500").
Proof.
  intros s c.
  assert (Hans : answered (MX := ModernDemo.externals) c s 500 failure_text)
    by (exists []; split; vm_compute; reflexivity).
  split; [exact Hans|].
  change (fst (run (MX := ModernDemo.externals) c s)
          = Rejected (APIError failure_body "Can't cancel orders.. Response code: 500")).
  rewrite (exchanges_follow_the_contract (MX := ModernDemo.externals) c s 500 failure_text Hans).
  vm_compute. reflexivity.
Defined.

(** ** Cancelling orders *)

Section Quiet.
Context {A : Type}.
Implicit Types (p : promise A) (ex : executor A).

Lemma settle_debugged o p : debugged (settle o p) = debugged p.
Proof. unfold settle. destruct (settled p); reflexivity. Qed.

Lemma acts_debugged l : forall p,
  ~ In DoDebug l -> debugged (fold_left act l p) = debugged p.
Proof.
  induction l as [|a l IH]; intros p Hno; simpl; [reflexivity|].
  rewrite IH by (intros Hin; apply Hno; now right).
  destruct a; simpl; try reflexivity; try apply settle_debugged.
  exfalso. apply Hno. now left.
Qed.

Lemma firing_debugged (l : list (N * error)) : forall p,
  debugged (fold_left (fun q t => settle (Rejected (snd t)) q) l p) = debugged p.
Proof.
  induction l as [|t l IH]; intros p; simpl; [reflexivity|].
  rewrite IH. apply settle_debugged.
Qed.

Lemma silent_promise ex evs : silent ex -> debugged (run_promise ex evs) = 0.
Proof.
  intros [Hstart Hevent]. unfold run_promise.
  assert (Hgen : forall p, debugged p = 0 -> debugged (fold_left (deliver ex) evs p) = 0).
  { induction evs as [|e evs IH]; intros p Hp; simpl; [assumption|].
    apply IH. destruct e; simpl;
      first [ rewrite acts_debugged by apply Hevent; assumption
            | unfold advance; rewrite firing_debugged; assumption ]. }
  apply Hgen. unfold start. now rewrite acts_debugged.
Qed.

End Quiet.

(** C6: for a valid list of order hashes, the legacy cancelOrder computes
    one solidityKeccak256 digest over the hashes, each as bytes32, followed by
    the boolean true, signs the bytes of that digest with the wallet's plain
    signMessage, and emits the hash list with that signature.  The call signs
    and sends nothing else, and no typed-data signature is made: all that
    follows in the trace is the debug output of the listeners that earlier
    getMetadata and getActiveMarkets calls left on the socket, two lines for
    each message pushed on their key while cancelOrder waits. *)
Theorem legacy_cancelOrder_signs_one_plain_digest `{X : Legacy.Externals}
    (orderHashes : list string) (s : state Legacy.SportX) (url : string) :
  Legacy.validateOrderHashArray orderHashes = "OK" ->
  Legacy.clientSocket (this s) = Some url ->
  let digest :=
    Legacy.solidityKeccak256 (repeat "bytes32" (length orderHashes) ++ ["bool"])
      (map LegacyData.SolBytes32 orderHashes ++ [LegacyData.SolBool true]) in
  let cancelSignature := Legacy.signMessage (Legacy.signingWallet (this s))
                           (Legacy.arrayify digest) in
  trace (io (snd (Legacy.cancelOrder orderHashes s)))
  = (trace (io s)
     ++ [ESignMessage (Legacy.arrayify digest);
         EEmit (Legacy.WEBSOCKET_MESSAGE_KEYS Legacy.CANCEL_ORDER)
           (PLegacyCancelOrder
              {| LegacyData.IRelayerCancelOrderRequest.orderHashes := orderHashes;
                 LegacyData.IRelayerCancelOrderRequest.cancelSignature :=
                   cancelSignature |})]
     ++ repeat EDebug (overheard (listeners (io s)) (hd [] (events (io s)))))%list.
Proof.
  intros Hvalid Hsock digest cancelSignature.
  assert (Htypes : map (fun _ : string => "bytes32") orderHashes
                   = repeat "bytes32" (length orderHashes)).
  { clear. induction orderHashes as [|h l IH]; simpl; [reflexivity|now rewrite IH]. }
  unfold Legacy.cancelOrder. rewrite Hvalid, Htypes.
  change ("OK" =? "OK") with true. cbn [negb]. step. rewrite Hsock. step.
  unfold await_on_socket. step.
  rewrite silent_promise.
  - cbn [Nat.add]. repeat rewrite <- app_assoc. reflexivity.
  - split; [intros [Hd|[]]; discriminate|].
    intros e. destruct e; simpl; auto.
    destruct (Legacy.is_success response); intros [Hd|[]]; discriminate.
Qed.

Lemma legacy_cancelOrder_signs_one_plain_digest_demo :
  let s0 := {| this := LegacyDemo.fresh;
               io := with_events [[Connect];
                                  [Push "metadata" LegacyDemo.metadata];
                                  [Push "metadata" LegacyDemo.metadata; Ack LegacyDemo.ok]]
                       quiet_world |} in
  let s := snd (Legacy.init (X := LegacyDemo.externals) s0) in
  trace (io (snd (Legacy.cancelOrder (X := LegacyDemo.externals) ["0xaa"; "0xbb"] s)))
  = (trace (io s)
     ++ [ESignMessage (list_byte_of_string "keccak-of-3-values");
         EEmit "cancel_order"
           (PLegacyCancelOrder
              {| LegacyData.IRelayerCancelOrderRequest.orderHashes := ["0xaa"; "0xbb"];
                 LegacyData.IRelayerCancelOrderRequest.cancelSignature :=
                   "message-signature-keccak-of-3-values" |});
         EDebug; EDebug])%list.
Proof.
  intros s0 s.
  rewrite (legacy_cancelOrder_signs_one_plain_digest (X := LegacyDemo.externals)
             ["0xaa"; "0xbb"] s "wss://relayer" eq_refl eq_refl).
  vm_compute. reflexivity.
Defined.

Lemma modern_cancelOrder_submits `{X : Modern.Externals} (orderHashes message : jsval)
    (s : state Modern.SportX) :
  has_credential (this s) ->
  isArray orderHashes = true ->
  forallb Modern.isHexString (Modern.items orderHashes) = true ->
  truthy message && negb (is_string message) = false ->
  cancel_submits orderHashes message s (Modern.cancelDetails_of orderHashes message).
Proof.
  intros Hcred Harr Hhex Hmsg.
  pose (s1 := {| this := this s; io := log EDebug (io s) |}).
  destruct (getEip712Signature_signs
              (Modern.getCancelOrderEIP712Payload
                 (Modern.cancelDetails_of orderHashes message)
                 (Modern.mainchainChainId (this s))) s1 Hcred)
    as (e & sig & Hsign & Hdata & Hsigning).
  exists e, sig. split; [|split; assumption].
  unfold begins_with, Modern.cancelOrder.
  rewrite Harr, Hhex, Hmsg. cbn [negb]. step.
  fold s1. rewrite Hsign. subst s1. step.
  unfold fetch, Modern.tryParseResponse. step.
  repeat (case_goal; step); trace_prefix.
Qed.

(** C7, as stated, fails: a message is given, the empty string, and the
    payload that is signed and posted carries "N/A" in its place. *)
Lemma empty_message_is_not_kept :
  let s := {| this := ModernDemo.ready;
              io := with_http [HttpReply 200 success_text] quiet_world |} in
  let supplied := JStr "" in
  exists request,
    In (EFetch "https://relayer/orders/cancel" (Some (PCancelOrders request)))
       (trace (io (snd (Modern.cancelOrder (X := ModernDemo.externals)
                          (JArr [JStr "0xaa"]) supplied s))))
    /\ ModernData.ICancelDetails.message (ModernData.IRelayerCancelOrderRequest.details request)
       = JStr "N/A"
    /\ ModernData.ICancelDetails.message (ModernData.IRelayerCancelOrderRequest.details request)
       <> supplied.
Proof.
  intros s supplied.
  exists {| ModernData.IRelayerCancelOrderRequest.details :=
              {| ModernData.ICancelDetails.orders := JArr [JStr "0xaa"];
                 ModernData.ICancelDetails.message := JStr "N/A" |};
            ModernData.IRelayerCancelOrderRequest.cancelSignature :=
              "0xtyped-signature-by-0xkey" |}.
  split; [|split; [reflexivity|discriminate]].
  vm_compute. do 4 right. left. reflexivity.
Qed.

(** C7, amended: for a valid list of order hashes, the modern cancelOrder
    signs and posts a cancellation payload whose message field is the
    caller's message when a non-empty string is given, and "N/A" when the
    message argument is omitted. *)
Theorem cancelOrder_message_field `{X : Modern.Externals} (orderHashes : jsval)
    (s : state Modern.SportX) :
  has_credential (this s) ->
  isArray orderHashes = true ->
  forallb Modern.isHexString (Modern.items orderHashes) = true ->
  (forall m : string,
      m <> "" ->
      cancel_submits orderHashes (JStr m) s
        {| ModernData.ICancelDetails.orders := orderHashes;
           ModernData.ICancelDetails.message := JStr m |})
  /\ cancel_submits orderHashes JUndefined s
       {| ModernData.ICancelDetails.orders := orderHashes;
          ModernData.ICancelDetails.message := JStr "N/A" |}.
Proof.
  intros Hcred Harr Hhex. split.
  - intros m Hm.
    assert (Hkept : Modern.cancelDetails_of orderHashes (JStr m)
                    = {| ModernData.ICancelDetails.orders := orderHashes;
                         ModernData.ICancelDetails.message := JStr m |}).
    { unfold Modern.cancelDetails_of, js_or. simpl.
      apply String.eqb_neq in Hm. now rewrite Hm. }
    rewrite <- Hkept. apply modern_cancelOrder_submits; auto.
    simpl. now rewrite andb_false_r.
  - apply (modern_cancelOrder_submits orderHashes JUndefined s); auto.
Qed.

Lemma cancelOrder_message_field_demo :
  let s := {| this := ModernDemo.ready;
              io := with_http [HttpReply 200 success_text] quiet_world |} in
  cancel_submits (MX := ModernDemo.externals) (JArr [JStr "0xaa"]) (JStr "test") s
    {| ModernData.ICancelDetails.orders := JArr [JStr "0xaa"];
       ModernData.ICancelDetails.message := JStr "test" |}
  /\ cancel_submits (MX := ModernDemo.externals) (JArr [JStr "0xaa"]) JUndefined s
       {| ModernData.ICancelDetails.orders := JArr [JStr "0xaa"];
          ModernData.ICancelDetails.message := JStr "N/A" |}.
Proof.
  intros s.
  destruct (cancelOrder_message_field (X := ModernDemo.externals) (JArr [JStr "0xaa"]) s)
    as [Hgiven Homitted].
  - left. exists "0xkey". split; [reflexivity|discriminate].
  - reflexivity.
  - reflexivity.
  - split; [apply Hgiven; discriminate | exact Homitted].
Defined.

(** C10: in the modern cancelOrder the default message is applied to every
    falsy message value, not only to an omitted argument.  In particular the
    empty string is replaced: the payload that is signed and posted carries
    the message "N/A", not "". *)
Theorem falsy_message_becomes_NA `{X : Modern.Externals} (orderHashes message : jsval)
    (s : state Modern.SportX) :
  has_credential (this s) ->
  isArray orderHashes = true ->
  forallb Modern.isHexString (Modern.items orderHashes) = true ->
  truthy message = false ->
  truthy (JStr "") = false
  /\ cancel_submits orderHashes message s
       {| ModernData.ICancelDetails.orders := orderHashes;
          ModernData.ICancelDetails.message := JStr "N/A" |}.
Proof.
  intros Hcred Harr Hhex Hfalsy. split; [reflexivity|].
  assert (Hdefault : Modern.cancelDetails_of orderHashes message
                     = {| ModernData.ICancelDetails.orders := orderHashes;
                          ModernData.ICancelDetails.message := JStr "N/A" |}).
  { unfold Modern.cancelDetails_of, js_or. now rewrite Hfalsy. }
  rewrite <- Hdefault. apply modern_cancelOrder_submits; auto.
  now rewrite Hfalsy.
Qed.

Lemma falsy_message_becomes_NA_demo :
  let s := {| this := ModernDemo.ready;
              io := with_http [HttpReply 200 success_text] quiet_world |} in
  cancel_submits (MX := ModernDemo.externals) (JArr [JStr "0xaa"]) (JStr "") s
    {| ModernData.ICancelDetails.orders := JArr [JStr "0xaa"];
       ModernData.ICancelDetails.message := JStr "N/A" |}.
Proof.
  intros s.
  apply (falsy_message_becomes_NA (X := ModernDemo.externals)
           (JArr [JStr "0xaa"]) (JStr "") s).
  - left. exists "0xkey". split; [reflexivity|discriminate].
  - reflexivity.
  - reflexivity.
  - reflexivity.
Defined.

(** * Beyond the specification

    Properties of the two clients read off the code. *)

(** ** More on hand-built promises *)

Section Reactions.
Context {A : Type}.
Implicit Types (p : promise A) (ex : executor A).

(** One armed timer, not yet due: while nothing the promise reacts to
    happens and the deadline is not reached, nothing changes but the clock. *)
Lemma single_timer_waits ex d e waiting : forall p,
  Forall (inert ex) waiting ->
  settled p = Pending -> timers p = [(d, e)] ->
  (clock p + elapsed waiting < d)%N ->
  settled (fold_left (deliver ex) waiting p) = Pending
  /\ timers (fold_left (deliver ex) waiting p) = [(d, e)]
  /\ clock (fold_left (deliver ex) waiting p) = (clock p + elapsed waiting)%N.
Proof.
  induction waiting as [|ev waiting IH]; intros p Hin Hp Ht Hd; simpl in *.
  - repeat split; auto. lia.
  - inversion Hin as [|? ? Hev Hrest]; subst.
    destruct ev; simpl in Hev; simpl; try (rewrite Hev; simpl; now apply IH).
    assert (Hadv : advance ms p
                   = {| settled := settled p; clock := (clock p + ms)%N;
                        timers := [(d, e)]; debugged := debugged p |}).
    { unfold advance. rewrite Ht. simpl. unfold due. simpl.
      destruct (N.leb_spec d (clock p + ms)) as [Hdue|Hnot]; [lia|reflexivity]. }
    rewrite Hadv.
    destruct (IH {| settled := settled p; clock := (clock p + ms)%N;
                    timers := [(d, e)]; debugged := debugged p |})
      as (H1 & H2 & H3); simpl; auto; try lia.
    repeat split; auto. rewrite H3. simpl. lia.
Qed.

(** No timer: while nothing the promise reacts to happens, it stays pending
    without a timer, however much time passes. *)
Lemma idle_stays_idle ex evs : forall p,
  Forall (inert ex) evs ->
  settled p = Pending -> timers p = [] ->
  settled (fold_left (deliver ex) evs p) = Pending
  /\ timers (fold_left (deliver ex) evs p) = [].
Proof.
  induction evs as [|ev evs IH]; intros p Hin Hp Ht; simpl; [auto|].
  inversion Hin as [|? ? Hev Hrest]; subst.
  destruct ev; simpl in Hev; simpl; try (rewrite Hev; simpl; now apply IH).
  destruct (advance_idle ms p Ht) as [Hs Ht'].
  apply IH; auto. now rewrite Hs.
Qed.

(** The first event the promise reacts to, arriving before the timeout,
    decides the outcome. *)
Lemma first_reaction ex timeout e0 waiting ev rest (o : outcome A) :
  on_start ex = [DoSetTimeout timeout e0] ->
  Forall (inert ex) waiting ->
  (elapsed waiting < timeout)%N ->
  (forall p, settled p = Pending -> settled (deliver ex p ev) = o) ->
  o <> Pending ->
  settled (run_promise ex (waiting ++ ev :: rest)) = o.
Proof.
  intros Hs Hin Hel Hev Ho. unfold run_promise.
  rewrite fold_left_app. simpl.
  destruct (single_timer_waits ex timeout e0 waiting (start ex)) as (Hp & _ & _);
    auto; try (unfold start; rewrite Hs; simpl; auto; lia).
  rewrite deliveries_settled; [now apply Hev|].
  unfold is_settled. now rewrite (Hev _ Hp).
Qed.

End Reactions.

Lemma connects_iff evs : connects evs = true <-> In Connect evs.
Proof.
  unfold connects. rewrite existsb_exists. split.
  - intros (e & Hin & He). destruct e; try discriminate. exact Hin.
  - intros Hin. exists Connect. auto.
Qed.

(** X1: the promise awaited by the legacy init resolves when, and only when,
    the socket reports a connection; otherwise it stays pending whatever
    time passes.  It is never rejected. *)
Theorem legacy_connection_promise_outcome `{X : Legacy.Externals} (evs : list event) :
  settled (run_promise Legacy.init_promise evs)
  = if connects evs then Resolved tt else Pending.
Proof.
  destruct (connects evs) eqn:Hc.
  - apply legacy_init_promise_connects; auto. now apply connects_iff.
  - apply legacy_init_promise_waits. intros Hin. apply connects_iff in Hin. congruence.
Qed.

(** X2: the promise awaited by the legacy getMetadata resolves with the
    metadata the relayer pushes, when that message is the first thing the
    promise reacts to and arrives before RELAYER_TIMEOUT has passed.
    Successful acknowledgments and messages on other keys in between change
    nothing. *)
Theorem metadata_pushed_in_time `{X : Legacy.Externals}
    (waiting rest : list event) (data : jsval) :
  Forall (inert Legacy.getMetadata_promise) waiting ->
  (elapsed waiting < Legacy.RELAYER_TIMEOUT)%N ->
  settled (run_promise Legacy.getMetadata_promise
             (waiting ++ Push (Legacy.WEBSOCKET_MESSAGE_KEYS Legacy.METADATA) data :: rest))
  = Resolved data.
Proof.
  intros Hin Hel.
  eapply first_reaction; eauto; [reflexivity| |discriminate].
  intros p Hp. simpl. rewrite String.eqb_refl. simpl.
  unfold settle. simpl. now rewrite Hp.
Qed.

Lemma metadata_pushed_in_time_demo :
  settled (run_promise (Legacy.getMetadata_promise (X := LegacyDemo.externals))
             ([Tick 3000; Ack LegacyDemo.ok; Push "active_markets" JNull; Tick 6999]
              ++ Push "metadata" LegacyDemo.metadata :: [Tick 50000; Ack LegacyDemo.refused]))
  = Resolved LegacyDemo.metadata.
Proof.
  apply (metadata_pushed_in_time (X := LegacyDemo.externals)).
  - repeat constructor.
  - vm_compute. reflexivity.
Defined.

(** X3: the promises awaited by the legacy newOrder and cancelOrder are
    decided by the first acknowledgment, when it arrives before
    RELAYER_TIMEOUT has passed: a status "success" resolves with the
    relayer's response, any other status rejects with an APIError whose
    message gives the status and the reason, "undefined" when there is
    none. *)
Theorem acknowledgment_decides `{X : Legacy.Externals}
    (waiting rest : list event) (response : LegacyData.IAPIResponse.t) :
  (elapsed waiting < Legacy.RELAYER_TIMEOUT)%N ->
  (Forall (inert Legacy.newOrder_promise) waiting ->
   settled (run_promise Legacy.newOrder_promise (waiting ++ Ack response :: rest))
   = if LegacyData.IAPIResponse.status response =? "success"
     then Resolved response
     else Rejected (LegacyAPIError
            ("Unable to create new order. Status: " ++ LegacyData.IAPIResponse.status response
             ++ ". Reason: " ++ match LegacyData.IAPIResponse.reason response with
                                | Some reason => reason
                                | None => "undefined"
                                end)))
  /\ (Forall (inert Legacy.cancelOrder_promise) waiting ->
      settled (run_promise Legacy.cancelOrder_promise (waiting ++ Ack response :: rest))
      = if LegacyData.IAPIResponse.status response =? "success"
        then Resolved response
        else Rejected (LegacyAPIError
               ("Unable to cancel order. Status: " ++ LegacyData.IAPIResponse.status response
                ++ ". Reason: " ++ match LegacyData.IAPIResponse.reason response with
                                   | Some reason => reason
                                   | None => "undefined"
                                   end))).
Proof.
  intros Hel. split; intros Hin.
  - eapply first_reaction; eauto; [reflexivity| |].
    + intros p Hp. simpl. unfold Legacy.is_success, Legacy.show_reason.
      destruct (LegacyData.IAPIResponse.status response =? "success");
        simpl; unfold settle; now rewrite Hp.
    + destruct (LegacyData.IAPIResponse.status response =? "success"); discriminate.
  - eapply first_reaction; eauto; [reflexivity| |].
    + intros p Hp. simpl. unfold Legacy.is_success, Legacy.show_reason.
      destruct (LegacyData.IAPIResponse.status response =? "success");
        simpl; unfold settle; now rewrite Hp.
    + destruct (LegacyData.IAPIResponse.status response =? "success"); discriminate.
Qed.

Lemma acknowledgment_decides_demo :
  settled (run_promise (Legacy.newOrder_promise (X := LegacyDemo.externals))
             ([Tick 9999] ++ Ack LegacyDemo.ok :: [Tick 1; Ack LegacyDemo.refused]))
  = Resolved LegacyDemo.ok
  /\ settled (run_promise (Legacy.cancelOrder_promise (X := LegacyDemo.externals))
                ([Push "metadata" JNull] ++ Ack LegacyDemo.refused :: [Ack LegacyDemo.ok]))
     = Rejected (LegacyAPIError "Unable to cancel order. Status: failure. Reason: maintenance").
Proof.
  split.
  - apply (acknowledgment_decides (X := LegacyDemo.externals) [Tick 9999]
             [Tick 1; Ack LegacyDemo.refused] LegacyDemo.ok).
    + vm_compute. reflexivity.
    + repeat constructor.
  - apply (acknowledgment_decides (X := LegacyDemo.externals) [Push "metadata" JNull]
             [Ack LegacyDemo.ok] LegacyDemo.refused).
    + vm_compute. reflexivity.
    + repeat constructor.
Defined.

(** X4: the timer of the legacy getActiveMarkets starts with the
    acknowledgment.  However long the relayer takes to acknowledge, the
    promise stays pending; after a successful acknowledgment it is rejected
    with an APITimeoutError once RELAYER_TIMEOUT passes without the markets
    message; an acknowledgment with another status rejects at once with an
    Error giving the reason. *)
Theorem active_markets_timer_starts_with_the_acknowledgment `{X : Legacy.Externals}
    (before waiting rest : list event) (response : LegacyData.IAPIResponse.t) :
  Forall (inert Legacy.getActiveMarkets_promise) before ->
  settled (run_promise Legacy.getActiveMarkets_promise before) = Pending
  /\ (Legacy.is_success response = true ->
      Forall (inert Legacy.getActiveMarkets_promise) waiting ->
      (0 < Legacy.RELAYER_TIMEOUT <= elapsed waiting)%N ->
      settled (run_promise Legacy.getActiveMarkets_promise
                 (before ++ Ack response :: waiting ++ rest))
      = Rejected (APITimeoutError "Timeout getting active markets from the SportX API"))
  /\ (Legacy.is_success response = false ->
      settled (run_promise Legacy.getActiveMarkets_promise (before ++ Ack response :: rest))
      = Rejected (Error ("Error getting active markets. Reason: "
                           ++ Legacy.show_reason response))).
Proof.
  intros Hbefore.
  destruct (idle_stays_idle Legacy.getActiveMarkets_promise before
              (start Legacy.getActiveMarkets_promise) Hbefore eq_refl eq_refl)
    as [Hp Ht].
  split; [exact Hp|]. split.
  - intros Hok Hwait [Hpos Hel]. unfold run_promise in *.
    rewrite fold_left_app. simpl. rewrite Hok. simpl.
    rewrite fold_left_app.
    set (q := fold_left (deliver Legacy.getActiveMarkets_promise) before
                (start Legacy.getActiveMarkets_promise)) in *.
    assert (Hfire : settled (fold_left (deliver Legacy.getActiveMarkets_promise) waiting
                      {| settled := settled q; clock := clock q;
                         timers := (timers q ++ [((clock q + Legacy.RELAYER_TIMEOUT)%N,
                            APITimeoutError "Timeout getting active markets from the SportX API")])%list;
                         debugged := debugged q |})
                    = Rejected (APITimeoutError
                                  "Timeout getting active markets from the SportX API")).
    { apply single_timer_fires with (d := (clock q + Legacy.RELAYER_TIMEOUT)%N);
        simpl; auto; try lia. now rewrite Ht. }
    rewrite deliveries_settled; [exact Hfire|].
    unfold is_settled. rewrite Hfire. discriminate.
  - intros Hko. unfold run_promise in *.
    rewrite fold_left_app. simpl. rewrite Hko. simpl.
    rewrite deliveries_settled; unfold is_settled, settle; simpl; rewrite Hp; simpl;
      [reflexivity|discriminate].
Qed.

Lemma active_markets_timer_starts_with_the_acknowledgment_demo :
  settled (run_promise (Legacy.getActiveMarkets_promise (X := LegacyDemo.externals))
             [Tick 1000000]) = Pending
  /\ settled (run_promise (Legacy.getActiveMarkets_promise (X := LegacyDemo.externals))
                ([Tick 1000000] ++ Ack LegacyDemo.ok :: [Tick 10000]
                 ++ [Push "active_markets" (JArr [])]))
     = Rejected (APITimeoutError "Timeout getting active markets from the SportX API")
  /\ settled (run_promise (Legacy.getActiveMarkets_promise (X := LegacyDemo.externals))
                ([Tick 1000000] ++ Ack LegacyDemo.refused :: []))
     = Rejected (Error "Error getting active markets. Reason: maintenance").
Proof.
  assert (Hin : Forall (inert (Legacy.getActiveMarkets_promise (X := LegacyDemo.externals)))
                  [Tick 1000000]) by (repeat constructor).
  split; [|split].
  - apply (active_markets_timer_starts_with_the_acknowledgment (X := LegacyDemo.externals)
             [Tick 1000000] [] [] LegacyDemo.ok Hin).
  - apply (active_markets_timer_starts_with_the_acknowledgment (X := LegacyDemo.externals)
             [Tick 1000000] [Tick 10000] [Push "active_markets" (JArr [])] LegacyDemo.ok Hin).
    + reflexivity.
    + repeat constructor.
    + vm_compute. split; [reflexivity|discriminate].
  - apply (active_markets_timer_starts_with_the_acknowledgment (X := LegacyDemo.externals)
             [Tick 1000000] [] [] LegacyDemo.refused Hin).
    reflexivity.
Defined.

(** ** Calls that stop early *)

(** X5: the legacy newOrder rejects a bet below the minimum of the cached
    metadata with an APISchemaError that names the minimum, before any
    entropy is read, anything is signed or anything is sent: instance and
    world are exactly as before. *)
Theorem bet_below_minimum_is_refused `{X : Legacy.Externals}
    (order : LegacyData.INewOrder.t) (s : state Legacy.SportX) (z minimum : Z) (v : jsval) :
  Legacy.validateINewOrderSchema order = "OK" ->
  Legacy.bigNumberify (JStr (LegacyData.INewOrder.totalBetSize order)) = Some z ->
  getProp (Legacy.metadata (this s)) "makerOrderMinimum" = Some v ->
  Legacy.bigNumberify v = Some minimum ->
  (z < minimum)%Z ->
  Legacy.newOrder order s
  = (Rejected (APISchemaError ("totalBetSize below API minimum of "
                                 ++ Legacy.formatUnits minimum 18)), s).
Proof.
  intros Hvalid Hbet Hmin Hbig Hlt.
  apply Z.ltb_lt in Hlt.
  unfold Legacy.newOrder. rewrite Hvalid, Hbet.
  change ("OK" =? "OK") with true. cbn [negb]. step.
  rewrite Hmin. step. rewrite Hbig. step. rewrite Hlt. reflexivity.
Qed.

Lemma bet_below_minimum_is_refused_demo :
  let small :=
    {| LegacyData.INewOrder.marketHash := "0xmarket";
       LegacyData.INewOrder.totalBetSize := "99";
       LegacyData.INewOrder.percentageOdds := "50";
       LegacyData.INewOrder.expiry := 1700000000;
       LegacyData.INewOrder.isMakerBettingOutcomeOne := true |} in
  let s := {| this := LegacyDemo.ready; io := quiet_world |} in
  Legacy.newOrder (X := LegacyDemo.externals) small s
  = (Rejected (APISchemaError "totalBetSize below API minimum of 100"), s).
Proof.
  intros small s.
  apply (bet_below_minimum_is_refused (X := LegacyDemo.externals) small s 99 100 (JStr "100")).
  - reflexivity.
  - reflexivity.
  - reflexivity.
  - reflexivity.
  - lia.
Defined.

(** X6: newOrder on an instance whose metadata was never cached (init was
    not awaited) is rejected with a TypeError and signs and sends nothing.
    The legacy client stops at the first read of the metadata and leaves the
    world as it was; the modern client has by then written one debug line and
    read 32 bytes of entropy. *)
Theorem newOrder_needs_the_metadata `{LX : Legacy.Externals} `{MX : Modern.Externals} :
  (forall (order : LegacyData.INewOrder.t) (s : state Legacy.SportX) (z : Z),
      Legacy.validateINewOrderSchema order = "OK" ->
      Legacy.bigNumberify (JStr (LegacyData.INewOrder.totalBetSize order)) = Some z ->
      Legacy.metadata (this s) = JUndefined ->
      Legacy.newOrder order s = (Rejected TypeError, s))
  /\ (forall (order : ModernData.INewOrder.t) (s : state Modern.SportX) (z : Z),
         Modern.validateINewOrderSchema order = "OK" ->
         Modern.bigNumberify (JStr (ModernData.INewOrder.totalBetSize order)) = Some z ->
         Modern.metadata (this s) = JUndefined ->
         fst (Modern.newOrder order s) = Rejected TypeError
         /\ this (snd (Modern.newOrder order s)) = this s
         /\ trace (io (snd (Modern.newOrder order s))) = (trace (io s) ++ [EDebug])%list
         /\ consumed (io (snd (Modern.newOrder order s))) = consumed (io s) + 32
         /\ http (io (snd (Modern.newOrder order s))) = http (io s)).
Proof.
  split.
  - intros order s z Hvalid Hbet Hmd.
    unfold Legacy.newOrder. rewrite Hvalid, Hbet.
    change ("OK" =? "OK") with true. cbn [negb]. step. rewrite Hmd. reflexivity.
  - intros order s z Hvalid Hbet Hmd.
    unfold Modern.newOrder. rewrite Hvalid, Hbet.
    change ("OK" =? "OK") with true. cbn [negb]. step.
    unfold randomBytes. step. rewrite Hmd. cbn [getProp]. step.
    repeat split; reflexivity.
Qed.

Lemma newOrder_needs_the_metadata_demo :
  let ls := {| this := LegacyDemo.fresh; io := quiet_world |} in
  let ms := {| this := ModernDemo.fresh; io := quiet_world |} in
  Legacy.newOrder (X := LegacyDemo.externals) LegacyDemo.order ls = (Rejected TypeError, ls)
  /\ fst (Modern.newOrder (X := ModernDemo.externals) ModernDemo.order ms) = Rejected TypeError
  /\ trace (io (snd (Modern.newOrder (X := ModernDemo.externals) ModernDemo.order ms)))
     = [EDebug].
Proof.
  intros ls ms.
  destruct (newOrder_needs_the_metadata (LX := LegacyDemo.externals)
              (MX := ModernDemo.externals)) as [HL HM].
  split.
  - apply (HL LegacyDemo.order ls 500%Z); reflexivity.
  - destruct (HM ModernDemo.order ms 500%Z) as (Hout & _ & Htrace & _);
      try reflexivity.
    split; [exact Hout | exact Htrace].
Defined.

(** X7: the socket methods of the legacy client need the socket that init
    opens.  On an instance without one, getMetadata and getActiveMarkets are
    rejected with a TypeError and emit nothing; cancelOrder has by then
    signed the digest of the hashes, but emits nothing either. *)
Theorem legacy_methods_need_the_socket `{X : Legacy.Externals}
    (s : state Legacy.SportX) (orderHashes : list string) :
  Legacy.clientSocket (this s) = None ->
  Legacy.getMetadata s = (Rejected TypeError, s)
  /\ Legacy.getActiveMarkets s = (Rejected TypeError, s)
  /\ (Legacy.validateOrderHashArray orderHashes = "OK" ->
      exists bytes,
        Legacy.cancelOrder orderHashes s
        = (Rejected TypeError, {| this := this s; io := log (ESignMessage bytes) (io s) |})).
Proof.
  intros Hsock. split; [|split].
  - unfold Legacy.getMetadata. step. rewrite Hsock. reflexivity.
  - unfold Legacy.getActiveMarkets. step. rewrite Hsock. reflexivity.
  - intros Hvalid. eexists. unfold Legacy.cancelOrder. rewrite Hvalid.
    change ("OK" =? "OK") with true. cbn [negb]. step. rewrite Hsock. reflexivity.
Qed.

Lemma legacy_methods_need_the_socket_demo :
  let s := {| this := LegacyDemo.fresh; io := quiet_world |} in
  Legacy.getMetadata (X := LegacyDemo.externals) s = (Rejected TypeError, s)
  /\ Legacy.getActiveMarkets (X := LegacyDemo.externals) s = (Rejected TypeError, s)
  /\ exists bytes,
       Legacy.cancelOrder (X := LegacyDemo.externals) ["0xaa"] s
       = (Rejected TypeError, {| this := this s; io := log (ESignMessage bytes) (io s) |}).
Proof.
  intros s.
  destruct (legacy_methods_need_the_socket (X := LegacyDemo.externals) s ["0xaa"] eq_refl)
    as (H1 & H2 & H3).
  split; [exact H1|]. split; [exact H2|]. apply H3. reflexivity.
Defined.

(** X8: the modern getOrders calls every on whatever truthy value it is
    given as marketHashes.  A value that is not an array (a single hash
    passed as a string, say) is therefore rejected with a TypeError, not with
    an APISchemaError; the call has then written one debug line and made no
    request. *)
Theorem getOrders_needs_an_array `{X : Modern.Externals}
    (marketHashes maker baseToken : jsval) (s : state Modern.SportX) :
  truthy marketHashes = true ->
  isArray marketHashes = false ->
  Modern.getOrders marketHashes maker baseToken s
  = (Rejected TypeError, {| this := this s; io := log EDebug (io s) |}).
Proof.
  intros Htruthy Harr. unfold Modern.getOrders. rewrite Htruthy.
  destruct marketHashes; try discriminate; reflexivity.
Qed.

Lemma getOrders_needs_an_array_demo :
  let s := {| this := ModernDemo.ready; io := quiet_world |} in
  Modern.getOrders (X := ModernDemo.externals) (JStr "0xaa") JUndefined JUndefined s
  = (Rejected TypeError, {| this := this s; io := log EDebug (io s) |}).
Proof.
  intros s.
  apply (getOrders_needs_an_array (X := ModernDemo.externals)); reflexivity.
Defined.

(** X9: approveSportXContractsDai needs the token wrappers that init makes.
    On an instance without wrappers it is rejected with a TypeError before
    the nonce is read, anything is signed or anything is posted: instance and
    world are exactly as before. *)
Theorem approval_needs_the_wrappers `{X : Modern.Externals} (s : state Modern.SportX) :
  Modern.baseTokenWrappers (this s) = [] ->
  Modern.approveSportXContractsDai s = (Rejected TypeError, s).
Proof.
  intros Hnone. unfold Modern.approveSportXContractsDai.
  destruct (Modern.TOKEN_ADDRESSES (Modern.mainchainNetwork (this s))) as [tokens|] eqn:Htokens;
    step; rewrite Htokens; step; [|reflexivity].
  destruct (Modern.lookup Modern.Tokens_DAI tokens) as [dai|]; step; [|reflexivity].
  rewrite Hnone. reflexivity.
Qed.

Lemma approval_needs_the_wrappers_demo :
  let s := {| this := ModernDemo.ready;
              io := with_rpc [Some (JNum 0)]
                      (with_http [HttpReply 200 success_text] quiet_world) |} in
  Modern.approveSportXContractsDai (X := ModernDemo.externals) s = (Rejected TypeError, s).
Proof.
  intros s. apply (approval_needs_the_wrappers (X := ModernDemo.externals)). reflexivity.
Defined.

(** ** Initialisation of the modern client *)

(** X10: the modern init sets the initialized flag last.  Whenever init does
    not resolve (no connection in time, a failed or unanswered metadata
    request, a failed network lookup, a missing token table), the instance is
    left uninitialized, so a later init is not refused as already
    initialized: it opens the realtime connection again. *)
Theorem modern_init_failure_leaves_uninitialized `{X : Modern.Externals}
    (s : state Modern.SportX) :
  Modern.initialized (this s) = false ->
  fst (Modern.init s) <> Resolved tt ->
  Modern.initialized (this (snd (Modern.init s))) = false
  /\ begins_with Modern.init (snd (Modern.init s))
       [EOpenRealtime (Modern.relayerUrl (this (snd (Modern.init s))) ++ "/user/token")].
Proof.
  intros Hfresh Hfail.
  assert (Hflag : Modern.initialized (this (snd (Modern.init s))) = false).
  { revert Hfail.
    unfold Modern.init, Modern.getMetadata, Modern.tryParseResponse,
      await_promise, fetch, providerCall.
    step. rewrite Hfresh. step.
    repeat (case_goal; step); intros Hfail; try reflexivity; try assumption.
    all: exfalso; apply Hfail; reflexivity. }
  split; [exact Hflag|].
  set (s' := snd (Modern.init s)) in *. clearbody s'.
  unfold begins_with, Modern.init, Modern.getMetadata, Modern.tryParseResponse,
    await_promise, fetch, providerCall.
  step. rewrite Hflag. step.
  repeat (case_goal; step); trace_prefix.
Qed.

Lemma modern_init_failure_leaves_uninitialized_demo :
  let s := {| this := ModernDemo.fresh;
              io := with_events [[Tick 10000]] quiet_world |} in
  fst (Modern.init (X := ModernDemo.externals) s) = Rejected NoReason
  /\ Modern.initialized (this (snd (Modern.init (X := ModernDemo.externals) s))) = false
  /\ begins_with (Modern.init (X := ModernDemo.externals))
       (snd (Modern.init (X := ModernDemo.externals) s))
       [EOpenRealtime "https://relayer/user/token"].
Proof.
  intros s.
  assert (Hout : fst (Modern.init (X := ModernDemo.externals) s) = Rejected NoReason)
    by (vm_compute; reflexivity).
  split; [exact Hout|].
  apply (modern_init_failure_leaves_uninitialized (X := ModernDemo.externals) s).
  - reflexivity.
  - rewrite Hout. discriminate.
Defined.

(** ** What the calls leave alone *)

Ltac unchanged :=
  unfold Modern.tryParseResponse, Modern.data_field, Modern.getEip712Signature,
    Legacy.fetch_data, Legacy.read2;
  unfold fetch, providerCall, randomBytes, await_promise, await_on_socket;
  step; repeat (case_goal; step); reflexivity.

(** X11: apart from init, no method of either client assigns a field of the
    instance: the connection, the initialized flag and the cached metadata
    are the same after the call as before it, whatever the outcome. *)
Theorem only_init_changes_the_instance `{LX : Legacy.Externals} `{MX : Modern.Externals} :
  (forall (c : call) (s : state Modern.SportX), this (snd (run c s)) = this s)
  /\ (forall (s : state Legacy.SportX) (order : LegacyData.INewOrder.t)
             (orderHashes : list string) (text : string),
         this (snd (Legacy.getMetadata s)) = this s
         /\ this (snd (Legacy.getLeagues s)) = this s
         /\ this (snd (Legacy.getSports s)) = this s
         /\ this (snd (Legacy.getActiveMarkets s)) = this s
         /\ this (snd (Legacy.newOrder order s)) = this s
         /\ this (snd (Legacy.cancelOrder orderHashes s)) = this s
         /\ this (snd (Legacy.getRecentPendingBets text s)) = this s
         /\ this (snd (Legacy.getOrders text s)) = this s
         /\ this (snd (Legacy.getActiveOrders text s)) = this s).
Proof.
  split.
  - intros c s. destruct s as [self w].
    destruct c; cbn [run];
      unfold Modern.getMetadata, Modern.getLeagues, Modern.getSports, Modern.getActiveMarkets,
        Modern.marketLookup, Modern.newOrder, Modern.suggestOrders, Modern.fillOrders,
        Modern.cancelOrder, Modern.getPendingOrFailedBets, Modern.getTrades, Modern.getOrders,
        Modern.approveSportXContractsDai;
      unchanged.
  - intros s order orderHashes text. destruct s as [self w].
    repeat split;
      unfold Legacy.getMetadata, Legacy.getLeagues, Legacy.getSports, Legacy.getActiveMarkets,
        Legacy.newOrder, Legacy.cancelOrder, Legacy.getRecentPendingBets, Legacy.getOrders,
        Legacy.getActiveOrders;
      unchanged.
Qed.

(** ** What is signed and what is sent *)

(** X12: in fillOrders what is posted agrees with what is signed.  The
    hashes posted are the hashes of the contract orders in the signed
    FillDetails, in the same order; the taker amounts posted are the caller's
    values, of which the signed amounts are the big numbers; one fill salt is
    drawn for the whole batch and posted as the decimal text of the signed
    salt; the metadata is the same on both sides and is "N/A" in every field
    when the caller gives none; the taker is the address of the signer. *)
Theorem fillOrders_posts_what_it_signs `{X : Modern.Externals}
    (orders : list ModernData.ISignedRelayerMakerOrder.t) (amounts : list jsval)
    (numbers : list Z) (md : option ModernData.IFillDetailsMetadata.t)
    (affiliate approval : jsval) (s : state Modern.SportX) :
  has_credential (this s) ->
  Modern.first_malformed orders = None ->
  truthy affiliate && negb (Modern.isAddress affiliate) = false ->
  (forall m, md = Some m -> Modern.validateIFillDetailsMetadata m = "OK") ->
  forallb Modern.isPositiveBigNumber amounts = true ->
  Modern.map_bigNumberify amounts = Some numbers ->
  exists (fd : ModernData.IFillDetails.t) (request : ModernData.IRelayerMetaFillOrderRequest.t)
         (e : effect),
    begins_with (Modern.fillOrders orders (JArr amounts) md affiliate approval) s
      [EDebug; e; EDebug; EDebug;
       EFetch (Modern.url_of (this s) Modern.FILL_ORDERS) (Some (PFillOrders request))]
    /\ signed_data e
       = Some (Modern.getFillOrderEIP712Payload fd (Modern.mainchainChainId (this s))
                 (Modern.EIP712_FILL_HASHER_ADDRESSES (Modern.environment (this s))))
    /\ ModernData.IRelayerMetaFillOrderRequest.orderHashes request
       = map Modern.getOrderHash
           (ModernData.IFillObject.orders (ModernData.IFillDetails.fills fd))
    /\ ModernData.IRelayerMetaFillOrderRequest.takerAmounts request = JArr amounts
    /\ ModernData.IFillObject.takerAmounts (ModernData.IFillDetails.fills fd) = numbers
    /\ ModernData.IRelayerMetaFillOrderRequest.fillSalt request
       = N_toString (ModernData.IFillObject.fillSalt (ModernData.IFillDetails.fills fd))
    /\ ModernData.IRelayerMetaFillOrderRequest.metadata request
       = ModernData.IFillDetails.metadata fd
    /\ (md = None -> ModernData.IFillDetails.metadata fd = Modern.default_metadata)
    /\ ModernData.IRelayerMetaFillOrderRequest.taker request
       = Modern.getAddress (Modern.mainchainSigningWallet (this s))
    /\ ModernData.IRelayerMetaFillOrderRequest.affiliateAddress request = affiliate
    /\ ModernData.IRelayerMetaFillOrderRequest.approveProxyPayload request = approval.
Proof.
  intros Hcred Horders Haff Hmd Hpos Hnum.
  pose (salt := bigNumberify_bytes (map (entropy (io s)) (seq (consumed (io s)) 32))).
  pose (final := match md with Some m => m | None => Modern.default_metadata end).
  pose (fd := Modern.fillDetails_of orders numbers final salt).
  pose (s1 := {| this := this s;
                 io := {| trace := (trace (io s) ++ [EDebug])%list;
                          entropy := entropy (io s);
                          consumed := consumed (io s) + 32;
                          http := http (io s); events := events (io s);
                          rpc := rpc (io s); listeners := listeners (io s) |} |}).
  destruct (getEip712Signature_signs
              (Modern.getFillOrderEIP712Payload fd (Modern.mainchainChainId (this s))
                 (Modern.EIP712_FILL_HASHER_ADDRESSES (Modern.environment (this s)))) s1 Hcred)
    as (e & sig & Hsign & Hdata & Hsigning).
  exists fd,
    {| ModernData.IRelayerMetaFillOrderRequest.orderHashes :=
         map Modern.getOrderHash (map Modern.convertToContractOrder orders);
       ModernData.IRelayerMetaFillOrderRequest.takerAmounts := JArr amounts;
       ModernData.IRelayerMetaFillOrderRequest.taker :=
         Modern.getAddress (Modern.mainchainSigningWallet (this s));
       ModernData.IRelayerMetaFillOrderRequest.takerSig := sig;
       ModernData.IRelayerMetaFillOrderRequest.fillSalt := N_toString salt;
       ModernData.IRelayerMetaFillOrderRequest.metadata := final;
       ModernData.IRelayerMetaFillOrderRequest.affiliateAddress := affiliate;
       ModernData.IRelayerMetaFillOrderRequest.approveProxyPayload := approval |}, e.
  split; [|split; [exact Hdata|]].
  - unfold begins_with, Modern.fillOrders.
    rewrite Horders, Haff.
    assert (Hvalid : forall m, md = Some m ->
                      negb (Modern.validateIFillDetailsMetadata m =? "OK") = false).
    { intros m Hm. rewrite (Hmd m Hm). reflexivity. }
    subst final.
    destruct md as [m|]; [cbv zeta; rewrite (Hvalid m eq_refl)|];
      change (Modern.items (JArr amounts)) with amounts;
      change (isArray (JArr amounts)) with true;
      rewrite Hpos, Hnum; cbn [negb]; step;
      unfold randomBytes; step;
      fold salt; fold fd; fold s1; rewrite Hsign; subst s1; step;
      unfold fetch, Modern.tryParseResponse; step;
      repeat (case_goal; step); trace_prefix.
  - subst fd final. cbn. repeat split. intros Hnone. now rewrite Hnone.
Qed.

Lemma fillOrders_posts_what_it_signs_demo :
  let orders := [ModernDemo.maker_order "0xs1"; ModernDemo.maker_order "0xs2"] in
  let s := {| this := ModernDemo.ready;
              io := with_http [HttpReply 200 success_text] quiet_world |} in
  exists (fd : ModernData.IFillDetails.t) (request : ModernData.IRelayerMetaFillOrderRequest.t),
    ModernData.IRelayerMetaFillOrderRequest.orderHashes request
    = map (Modern.getOrderHash (Externals := ModernDemo.externals))
        (ModernData.IFillObject.orders (ModernData.IFillDetails.fills fd))
    /\ ModernData.IFillObject.takerAmounts (ModernData.IFillDetails.fills fd) = [1%Z; 2%Z]
    /\ ModernData.IRelayerMetaFillOrderRequest.metadata request = Modern.default_metadata
    /\ ModernData.IRelayerMetaFillOrderRequest.taker request = "address-of-0xkey".
Proof.
  intros orders s.
  destruct (fillOrders_posts_what_it_signs (X := ModernDemo.externals)
              orders [JStr "1"; JStr "2"] [1%Z; 2%Z] None JUndefined JUndefined s)
    as (fd & request & e & _ & _ & Hhashes & _ & Hnumbers & _ & Hmeta & Hdefault & Htaker & _).
  - left. exists "0xkey". split; [reflexivity|discriminate].
  - reflexivity.
  - reflexivity.
  - intros m Hm. discriminate Hm.
  - reflexivity.
  - reflexivity.
  - exists fd, request. repeat split; auto.
    rewrite Hmeta. now apply Hdefault.
Defined.

(** ** Formatting pending bets *)

Lemma and_then_inr {A B} (r : error + A) (k : A -> error + B) (b : B) :
  Legacy.and_then r k = inr b -> exists a, r = inr a /\ k a = inr b.
Proof.
  destruct r as [e|a]; simpl; [discriminate|]. eauto.
Qed.

Lemma map_throwing_spec (f : jsval -> error + jsval) (l : list jsval) :
  forall out,
    Legacy.map_throwing f l = inr out ->
    length out = length l
    /\ forall i x, nth_error l i = Some x ->
                   exists y, nth_error out i = Some y /\ f x = inr y.
Proof.
  induction l as [|x l IH]; intros out Hm; simpl in Hm.
  - inversion Hm; subst. split; [reflexivity|]. intros [|i] y Hy; discriminate.
  - apply and_then_inr in Hm. destruct Hm as (y & Hfx & Hm).
    apply and_then_inr in Hm. destruct Hm as (ys & Hys & Hm).
    inversion Hm; subst. destruct (IH ys Hys) as [Hlen Hnth].
    split; [simpl; now rewrite Hlen|].
    intros [|i] z Hz; simpl in *.
    + inversion Hz; subst. eauto.
    + now apply Hnth.
Qed.

Lemma js_map_inr (f : jsval -> error + jsval) (v out : jsval) :
  Legacy.js_map f v = inr out ->
  exists l ys, v = JArr l /\ out = JArr ys /\ Legacy.map_throwing f l = inr ys.
Proof.
  destruct v; simpl; try discriminate. intros Hm.
  apply and_then_inr in Hm. destruct Hm as (ys & Hys & Hm). inversion Hm. eauto.
Qed.

Lemma read_inr (v x : jsval) (k : string) :
  Legacy.read v k = inr x -> getProp v k = Some x.
Proof.
  unfold Legacy.read. destruct (getProp v k); congruence.
Qed.

(** X14: when the formatting of getRecentPendingBets succeeds, the result
    has one entry for each bet of the relayer's data, in the same order.
    Each entry carries the bet's marketHashes, isMakerBettingOutcomeOne,
    taker, orderHashes, status and betTime unchanged, holds the converted
    odds and amounts under impliedOdds and fillAmounts, as many as the bet
    has; reading percentageOdds from the entry gives undefined. *)
Theorem pending_bets_are_formatted_one_by_one `{X : Legacy.Externals}
    (bets formatted : list jsval) :
  Legacy.js_map Legacy.formatPendingBet (JArr bets) = inr (JArr formatted) ->
  length formatted = length bets
  /\ forall i bet,
       nth_error bets i = Some bet ->
       exists entry odds amounts impliedOdds fillAmounts,
         nth_error formatted i = Some entry
         /\ (forall k, In k ["marketHashes"; "isMakerBettingOutcomeOne"; "taker";
                             "orderHashes"; "status"; "betTime"] ->
                       getProp entry k = getProp bet k)
         /\ getProp bet "percentageOdds" = Some (JArr odds)
         /\ getProp bet "fillAmounts" = Some (JArr amounts)
         /\ getProp entry "impliedOdds" = Some (JArr impliedOdds)
         /\ getProp entry "fillAmounts" = Some (JArr fillAmounts)
         /\ length impliedOdds = length odds
         /\ length fillAmounts = length amounts
         /\ getProp entry "percentageOdds" = Some JUndefined.
Proof.
  intros Hmap. apply js_map_inr in Hmap.
  destruct Hmap as (l & out & Hl & Hout & Hmap).
  inversion Hl; subst l. inversion Hout; subst out. clear Hl Hout.
  destruct (map_throwing_spec _ _ _ Hmap) as [Hlen Hnth].
  split; [exact Hlen|].
  intros i bet Hbet. destruct (Hnth i bet Hbet) as (entry & Hentry & Hformat).
  unfold Legacy.formatPendingBet in Hformat.
  apply and_then_inr in Hformat. destruct Hformat as (mh & Hmh & Hformat).
  apply and_then_inr in Hformat. destruct Hformat as (po & Hpo & Hformat).
  apply and_then_inr in Hformat. destruct Hformat as (io & Hio & Hformat).
  apply and_then_inr in Hformat. destruct Hformat as (oo & Hoo & Hformat).
  apply and_then_inr in Hformat. destruct Hformat as (tk & Htk & Hformat).
  apply and_then_inr in Hformat. destruct Hformat as (fa & Hfa & Hformat).
  apply and_then_inr in Hformat. destruct Hformat as (fo & Hfo & Hformat).
  apply and_then_inr in Hformat. destruct Hformat as (oh & Hoh & Hformat).
  apply and_then_inr in Hformat. destruct Hformat as (st & Hst & Hformat).
  apply and_then_inr in Hformat. destruct Hformat as (bt & Hbt & Hformat).
  inversion Hformat; subst entry. clear Hformat.
  apply read_inr in Hmh, Hpo, Hoo, Htk, Hfa, Hoh, Hst, Hbt.
  apply js_map_inr in Hio. destruct Hio as (odds & impliedOdds & -> & -> & Hodds).
  apply js_map_inr in Hfo. destruct Hfo as (amounts & fillAmounts & -> & -> & Hamounts).
  destruct (map_throwing_spec _ _ _ Hodds) as [Hl1 _].
  destruct (map_throwing_spec _ _ _ Hamounts) as [Hl2 _].
  exists (JObj [("marketHashes", mh); ("impliedOdds", JArr impliedOdds);
                ("isMakerBettingOutcomeOne", oo); ("taker", tk);
                ("fillAmounts", JArr fillAmounts); ("orderHashes", oh);
                ("status", st); ("betTime", bt)]),
    odds, amounts, impliedOdds, fillAmounts.
  split; [exact Hentry|]. split.
  - intros k Hk. simpl in Hk.
    destruct Hk as [<-|[<-|[<-|[<-|[<-|[<-|[]]]]]]]; simpl; congruence.
  - repeat split; auto.
Qed.

Lemma pending_bets_are_formatted_one_by_one_demo :
  let bet :=
    JObj [("marketHashes", JArr [JStr "0xm"]); ("percentageOdds", JArr [JStr "50"; JStr "60"]);
          ("isMakerBettingOutcomeOne", JArr [JBool true]); ("taker", JStr "0xtaker");
          ("fillAmounts", JArr [JStr "7"]); ("orderHashes", JArr [JStr "0xo"]);
          ("status", JStr "PENDING"); ("betTime", JNum 1700000000)] in
  exists formatted entry,
    Legacy.js_map (Legacy.formatPendingBet (X := LegacyDemo.externals)) (JArr [bet])
    = inr (JArr formatted)
    /\ length formatted = 1
    /\ nth_error formatted 0 = Some entry
    /\ getProp entry "taker" = Some (JStr "0xtaker").
Proof.
  intros bet.
  destruct (Legacy.js_map (Legacy.formatPendingBet (X := LegacyDemo.externals)) (JArr [bet]))
    as [e|[| | | | |formatted|]] eqn:Hmap; try (vm_compute in Hmap; discriminate Hmap).
  destruct (pending_bets_are_formatted_one_by_one (X := LegacyDemo.externals)
              [bet] formatted Hmap) as [Hlen Hnth].
  destruct (Hnth 0 bet eq_refl) as (entry & _ & _ & _ & _ & Hentry & Hcopy & _).
  exists formatted, entry. repeat split; auto.
  rewrite (Hcopy "taker"); [reflexivity|]. simpl. auto.
Defined.

(** ** Construction *)

(** X15: an instance made by the modern constructor holds a credential.  It
    is uninitialized, without metadata and without wrappers, and it holds
    either the non-empty hex private key it was given, with a wallet signer
    on a JSON-RPC provider (the browser wallet, if one was given too, is
    ignored), or no key and the signer of the browser wallet.
    getEip712Signature on such an instance therefore never throws for want of
    a credential: with the key it signs the payload by signTypedData_v4 and
    returns that signature; without it, it asks the browser wallet to sign
    the payload for the signer's address, by eth_signTypedData_v4 when the
    wallet is MetaMask and by eth_signTypedData otherwise, and returns the
    wallet's answer. *)
Theorem constructed_instance_can_sign `{X : Modern.Externals}
    `{K : ModernConstruction.Constants}
    (env sidechainProviderUrl : string) (privateKey mainchainProviderUrl : option string)
    (mainchainProvider : option Modern.Web3Provider) (self : Modern.SportX) :
  ModernConstruction.constructor env sidechainProviderUrl privateKey mainchainProviderUrl
    mainchainProvider = inr self ->
  Modern.initialized self = false
  /\ Modern.metadata self = JUndefined
  /\ Modern.baseTokenWrappers self = []
  /\ ModernConstruction.isEnvironment env = true
  /\ Modern.environment self = env
  /\ ((exists key url,
          privateKey = Some key /\ key <> "" /\ Modern.isHexString (JStr key) = true
          /\ mainchainProviderUrl = Some url /\ url <> ""
          /\ Modern.privateKey self = Some key
          /\ Modern.mainchainSigningWallet self = Modern.Wallet key
          /\ Modern.mainchainProvider self = Modern.JsonRpcProvider url)
      \/ (exists p,
             ModernConstruction.given privateKey = "" /\ mainchainProvider = Some p
             /\ Modern.privateKey self = None
             /\ Modern.mainchainSigningWallet self = Modern.JsonRpcSigner p
             /\ Modern.mainchainProvider self = Modern.Web3 p))
  /\ forall (payload : jsval) (w : world),
       exists e sig,
         Modern.getEip712Signature payload {| this := self; io := w |}
         = (Resolved sig, {| this := self; io := log e w |})
         /\ signed_data e = Some payload
         /\ signs_typed self payload e sig
         /\ (forall key, privateKey = Some key -> key <> "" ->
             e = ESignTypedData key payload
             /\ sig = Modern.signTypedData_v4 key payload)
         /\ (forall p, ModernConstruction.given privateKey = "" ->
                       mainchainProvider = Some p ->
             e = EProviderSend (wallet_method p)
                   (Modern.getAddress (Modern.JsonRpcSigner p)) payload
             /\ sig = Modern.providerSend p (wallet_method p)
                        (Modern.getAddress (Modern.JsonRpcSigner p)) payload).
Proof.
  intros Hc.
  assert (Hshape :
    Modern.initialized self = false
    /\ Modern.metadata self = JUndefined
    /\ Modern.baseTokenWrappers self = []
    /\ ModernConstruction.isEnvironment env = true
    /\ Modern.environment self = env
    /\ ((exists key url,
            privateKey = Some key /\ key <> "" /\ Modern.isHexString (JStr key) = true
            /\ mainchainProviderUrl = Some url /\ url <> ""
            /\ Modern.privateKey self = Some key
            /\ Modern.mainchainSigningWallet self = Modern.Wallet key
            /\ Modern.mainchainProvider self = Modern.JsonRpcProvider url)
        \/ (exists p,
               ModernConstruction.given privateKey = "" /\ mainchainProvider = Some p
               /\ Modern.privateKey self = None
               /\ Modern.mainchainSigningWallet self = Modern.JsonRpcSigner p
               /\ Modern.mainchainProvider self = Modern.Web3 p))).
  { unfold ModernConstruction.constructor, ModernConstruction.credentials in Hc.
    destruct (sidechainProviderUrl =? ""); [discriminate|].
    destruct (ModernConstruction.given privateKey =? "") eqn:Hkey; cbn [negb andb] in Hc.
    - destruct mainchainProvider as [p|]; [|discriminate].
      destruct (ModernConstruction.isEnvironment env) eqn:Henv; [|discriminate].
      cbn [negb] in Hc.
      destruct (ModernConstruction.getMainchainNetwork env); [|discriminate].
      destruct (ModernConstruction.getSidechainNetwork env); [|discriminate].
      inversion Hc; subst self. simpl. repeat split; auto.
      right. exists p. apply String.eqb_eq in Hkey. repeat split; auto.
    - destruct (Modern.isHexString (JStr (ModernConstruction.given privateKey))) eqn:Hhex;
        cbn [negb] in Hc; [|discriminate].
      destruct (ModernConstruction.given mainchainProviderUrl =? "") eqn:Hurl; [discriminate|].
      destruct (ModernConstruction.isWalletKey _); [|discriminate].
      destruct (ModernConstruction.isEnvironment env) eqn:Henv; [|discriminate].
      cbn [negb] in Hc.
      destruct (ModernConstruction.getMainchainNetwork env); [|discriminate].
      destruct (ModernConstruction.getSidechainNetwork env); [|discriminate].
      inversion Hc; subst self. simpl. repeat split; auto.
      left. apply String.eqb_neq in Hkey, Hurl.
      destruct privateKey as [key|]; [|now elim Hkey].
      destruct mainchainProviderUrl as [url|]; [|now elim Hurl].
      exists key, url. simpl in *. repeat split; auto. }
  destruct Hshape as (H1 & H2 & H3 & H4 & H5 & Hcred).
  repeat split; auto.
  intros payload w.
  assert (Hhas : has_credential (this {| this := self; io := w |})).
  { simpl. destruct Hcred as [(key & url & _ & Hne & _ & _ & _ & Hk & _)|(p & _ & _ & _ & _ & Hp)].
    - left. eauto.
    - right. eauto. }
  destruct (getEip712Signature_by_credential payload {| this := self; io := w |} Hhas)
    as (e & sig & Hsign & Hby).
  destruct (signs_typed_signs _ _ _ _ Hby) as [_ Hdata].
  exists e, sig. split; [exact Hsign|]. split; [exact Hdata|]. split; [exact Hby|].
  simpl in Hby. split.
  - intros key Hgiven Hne.
    destruct Hcred as [(k & url & Hk & _ & _ & _ & _ & Hstored & _)
                      |(p & Hnone & _ & Hstored & _)].
    + rewrite Hgiven in Hk. inversion Hk; subst k.
      inversion Hby as [k' Hk' Hne' He Hsig|p Hnokey Hp He Hsig].
      * rewrite Hstored in Hk'. inversion Hk'; subst k'. split; reflexivity.
      * now elim (Hne (Hnokey key Hstored)).
    + rewrite Hgiven in Hnone. simpl in Hnone. contradiction.
  - intros p Hnokey Hgiven.
    destruct Hcred as [(k & url & Hk & Hne & _)
                      |(p' & _ & Hp' & Hstored & Hsigner & Hprovider)].
    + rewrite Hk in Hnokey. simpl in Hnokey. contradiction.
    + rewrite Hgiven in Hp'. inversion Hp'; subst p'.
      inversion Hby as [k' Hk' Hne' He Hsig|q Hnone Hq He Hsig].
      * rewrite Hstored in Hk'. discriminate Hk'.
      * rewrite Hprovider in Hq. inversion Hq; subst q.
        rewrite Hsigner. split; reflexivity.
Qed.

Lemma constructed_instance_can_sign_demo :
  exists self,
    ModernConstruction.constructor (X := ModernDemo.externals) (K := modern_constants)
      "production" "https://sidechain" (Some "0xkey") (Some "https://mainchain")
      (Some metamask) = inr self
    /\ Modern.privateKey self = Some "0xkey"
    /\ Modern.getEip712Signature (X := ModernDemo.externals) (JStr "payload")
         {| this := self; io := quiet_world |}
       = (Resolved "0xtyped-signature-by-0xkey",
          {| this := self;
             io := log (ESignTypedData "0xkey" (JStr "payload")) quiet_world |}).
Proof.
  destruct (ModernConstruction.constructor (X := ModernDemo.externals) (K := modern_constants)
              "production" "https://sidechain" (Some "0xkey") (Some "https://mainchain")
              (Some metamask)) as [err|self] eqn:Hc; [vm_compute in Hc; discriminate Hc|].
  destruct (constructed_instance_can_sign (X := ModernDemo.externals) (K := modern_constants)
              _ _ _ _ _ self Hc) as (_ & _ & _ & _ & _ & Hcred & Hsign).
  destruct (Hsign (JStr "payload") quiet_world) as (e & sig & Hs & _ & _ & Hkey & _).
  destruct (Hkey "0xkey" eq_refl) as [He Hsig]; [discriminate|]. subst e sig.
  exists self. split; [reflexivity|]. split; [|exact Hs].
  destruct Hcred as [(key & url & Hgiven & _ & _ & _ & _ & Hstored & _)|(p & Hnone & _)].
  - inversion Hgiven; subst. exact Hstored.
  - discriminate Hnone.
Defined.

(** X16: an instance returned by newSportX, of either client, is
    initialized: init on it is refused with "Already initialized" in any
    world.  When the constructor throws, newSportX is rejected with that
    error and the world is untouched: nothing was opened or requested. *)
Theorem newSportX_returns_an_initialized_instance
    `{LX : Legacy.Externals} `{LK : LegacyConstruction.Constants}
    `{MX : Modern.Externals} `{MK : ModernConstruction.Constants} :
  (forall env privateKey w,
      (forall sportX w',
          LegacyConstruction.newSportX env privateKey w = (Resolved sportX, w') ->
          Legacy.initialized sportX = true
          /\ forall w'', Legacy.init {| this := sportX; io := w'' |}
                         = (Rejected (Error "Already initialized"),
                            {| this := sportX; io := w'' |}))
      /\ (forall e, LegacyConstruction.constructor env privateKey = inl e ->
                    LegacyConstruction.newSportX env privateKey w = (Rejected e, w)))
  /\ (forall env url privateKey mainchainProviderUrl mainchainProvider w,
         (forall sportX w',
             ModernConstruction.newSportX env url privateKey mainchainProviderUrl
               mainchainProvider w = (Resolved sportX, w') ->
             Modern.initialized sportX = true
             /\ forall w'', Modern.init {| this := sportX; io := w'' |}
                            = (Rejected (Error "Already initialized"),
                               {| this := sportX; io := w'' |}))
         /\ (forall e, ModernConstruction.constructor env url privateKey mainchainProviderUrl
                         mainchainProvider = inl e ->
                       ModernConstruction.newSportX env url privateKey mainchainProviderUrl
                         mainchainProvider w = (Rejected e, w))).
Proof.
  split.
  - intros env privateKey w. split.
    + intros sportX w' Hnew. unfold LegacyConstruction.newSportX in Hnew.
      destruct (LegacyConstruction.constructor env privateKey) as [e|x]; [discriminate|].
      destruct (Legacy.init {| this := x; io := w |}) as [[[]| |] s] eqn:Hinit;
        try discriminate.
      inversion Hnew; subst.
      assert (Hflag : Legacy.initialized (this s) = true)
        by (eapply legacy_init_marks; eauto).
      split; [exact Hflag|]. intros w''. now apply legacy_init_refused.
    + intros e He. unfold LegacyConstruction.newSportX. now rewrite He.
  - intros env url privateKey mpu mp w. split.
    + intros sportX w' Hnew. unfold ModernConstruction.newSportX in Hnew.
      destruct (ModernConstruction.constructor env url privateKey mpu mp) as [e|x];
        [discriminate|].
      destruct (Modern.init {| this := x; io := w |}) as [[[]| |] s] eqn:Hinit;
        try discriminate.
      inversion Hnew; subst.
      assert (Hflag : Modern.initialized (this s) = true)
        by (eapply modern_init_marks; eauto).
      split; [exact Hflag|]. intros w''. now apply modern_init_refused.
    + intros e He. unfold ModernConstruction.newSportX. now rewrite He.
Qed.

Lemma newSportX_returns_an_initialized_instance_demo :
  let w := with_events [[Connect]; [Push "metadata" LegacyDemo.metadata]] quiet_world in
  (exists sportX w',
      LegacyConstruction.newSportX (X := LegacyDemo.externals) (K := legacy_constants)
        "production" "0xkey" w = (Resolved sportX, w')
      /\ Legacy.initialized sportX = true)
  /\ ModernConstruction.newSportX (X := ModernDemo.externals) (K := modern_constants)
       "mainnet" "https://sidechain" (Some "0xkey") (Some "https://mainchain") None
       quiet_world
     = (Rejected (Error "Invalid environment: mainnet"), quiet_world).
Proof.
  intros w.
  destruct (newSportX_returns_an_initialized_instance
              (LX := LegacyDemo.externals) (LK := legacy_constants)
              (MX := ModernDemo.externals) (MK := modern_constants)) as [HL HM].
  split.
  - destruct (LegacyConstruction.newSportX (X := LegacyDemo.externals) (K := legacy_constants)
                "production" "0xkey" w) as [[sportX| |] w'] eqn:Hnew;
      try (vm_compute in Hnew; discriminate Hnew).
    exists sportX, w'. split; [reflexivity|].
    destruct (HL "production" "0xkey" w) as [Hok _].
    now destruct (Hok sportX w' Hnew).
  - destruct (HM "mainnet" "https://sidechain" (Some "0xkey") (Some "https://mainchain") None
                quiet_world) as [_ Hfail].
    apply Hfail. reflexivity.
Defined.

(** ** What a successful init leaves behind *)

Lemma modern_init_resolved `{X : Modern.Externals} (s s' : state Modern.SportX) :
  Modern.init s = (Resolved tt, s') ->
  exists text body rest network replies mainTokens sideTokens,
    http (io s) = HttpReply 200 text :: rest
    /\ Modern.tryParseJson text = (body, true)
    /\ getProp body "data" = Some (Modern.metadata (this s'))
    /\ rpc (io s) = Some network :: replies
    /\ getProp network "chainId" = Some (Modern.mainchainChainId (this s'))
    /\ Modern.TOKEN_ADDRESSES (Modern.mainchainNetwork (this s)) = Some mainTokens
    /\ Modern.TOKEN_ADDRESSES (Modern.sidechainNetwork (this s)) = Some sideTokens
    /\ Modern.baseTokenWrappers (this s')
       = Modern.assign_all (Modern.sidechain_wrappers sideTokens)
           (Modern.assign_all (Modern.mainchain_wrappers mainTokens)
              (Modern.baseTokenWrappers (this s)))
    /\ Modern.ably (this s') = Some (Modern.relayerUrl (this s) ++ "/user/token")
    /\ Modern.mainchainSigningWallet (this s') = Modern.mainchainSigningWallet (this s)
    /\ http (io s') = rest /\ rpc (io s') = replies.
Proof.
  destruct s as [self w].
  unfold Modern.init, Modern.getMetadata, Modern.tryParseResponse,
    await_promise, fetch, providerCall.
  step.
  repeat (case_goal; step); intros Hr; try discriminate Hr.
  inversion Hr; subst; clear Hr; simpl.
  match goal with
  | Hb : negb ?b = false |- _ => destruct b; [|discriminate Hb]
  end.
  match goal with
  | Hs : true && negb (?z =? 200)%Z = false |- _ =>
      simpl in Hs; apply negb_false_iff, Z.eqb_eq in Hs; subst z
  end.
  do 7 eexists. repeat split; eauto.
Qed.

(** X17: after a successful init of the modern client, the cached metadata
    is the data field of the body the relayer answered with under status
    200, and the cached chain id is the chainId of the provider's network.
    A newOrder on that instance then carries, as executor, the
    executorAddress of that answer. *)
Theorem modern_init_caches_the_answer `{X : Modern.Externals} (s s' : state Modern.SportX) :
  Modern.init s = (Resolved tt, s') ->
  exists text body rest network replies,
    http (io s) = HttpReply 200 text :: rest
    /\ Modern.tryParseJson text = (body, true)
    /\ getProp body "data" = Some (Modern.metadata (this s'))
    /\ rpc (io s) = Some network :: replies
    /\ getProp network "chainId" = Some (Modern.mainchainChainId (this s'))
    /\ forall (order : ModernData.INewOrder.t) (z : Z) (executorAddress : jsval),
         Modern.validateINewOrderSchema order = "OK" ->
         Modern.bigNumberify (JStr (ModernData.INewOrder.totalBetSize order)) = Some z ->
         getProp (Modern.metadata (this s')) "executorAddress" = Some executorAddress ->
         exists o,
           modern_submits order s' o
           /\ ModernData.IRelayerMakerOrder.executor o = executorAddress
           /\ ModernData.IRelayerMakerOrder.maker o
              = Modern.getAddress (Modern.mainchainSigningWallet (this s)).
Proof.
  intros Hinit.
  destruct (modern_init_resolved s s' Hinit)
    as (text & body & rest & network & replies & mainTokens & sideTokens
        & Hhttp & Hparse & Hdata & Hrpc & Hchain & _ & _ & _ & _ & Hsigner & _).
  exists text, body, rest, network, replies. repeat split; auto.
  intros order z ex Hvalid Hbet Hexec.
  destruct (modern_newOrder_once order s' z ex Hvalid Hbet Hexec)
    as (o & Hsub & Hmaker & Hex & _).
  exists o. repeat split; auto. now rewrite <- Hsigner.
Qed.

Lemma modern_init_caches_the_answer_demo :
  let s := {| this := ModernDemo.fresh;
              io := with_rpc [Some (JObj [("chainId", JNum 1)])]
                      (with_http [HttpReply 200 success_text; HttpReply 200 success_text]
                         (with_events [[Connect]] quiet_world)) |} in
  let s' := snd (Modern.init (X := ModernDemo.externals) s) in
  Modern.metadata (this s') = JObj [("executorAddress", JStr "0xE")]
  /\ Modern.mainchainChainId (this s') = JNum 1
  /\ exists o,
       modern_submits (MX := ModernDemo.externals) ModernDemo.order s' o
       /\ ModernData.IRelayerMakerOrder.executor o = JStr "0xE".
Proof.
  intros s s'.
  assert (Hinit : Modern.init (X := ModernDemo.externals) s = (Resolved tt, s'))
    by (vm_compute; reflexivity).
  destruct (modern_init_caches_the_answer (X := ModernDemo.externals) s s' Hinit)
    as (text & body & rest & network & replies & Hhttp & Hparse & Hdata & Hrpc & Hchain & Hnew).
  clear Hhttp Hparse Hdata Hrpc Hchain.
  split; [reflexivity|]. split; [reflexivity|].
  destruct (Hnew ModernDemo.order 500%Z (JStr "0xE")) as (o & Hsub & Hex & _);
    [reflexivity | reflexivity | reflexivity |].
  exists o. split; assumption.
Defined.

Lemma find_app_first {T} (f : T -> bool) (l1 l2 : list T) :
  find f (l1 ++ l2) = match find f l1 with Some x => Some x | None => find f l2 end.
Proof.
  induction l1 as [|x l1 IH]; simpl; [reflexivity|]. destruct (f x); auto.
Qed.

Lemma find_present {T} (f : T -> bool) (l : list T) (x : T) :
  In x l -> f x = true -> exists y, find f l = Some y /\ In y l /\ f y = true.
Proof.
  intros Hin Hfx. destruct (find f l) as [y|] eqn:Hfind.
  - exists y. destruct (find_some _ _ Hfind). auto.
  - rewrite (find_none _ _ Hfind x Hin) in Hfx. discriminate.
Qed.

Lemma sidechain_wrapper_found `{X : Modern.Externals}
    (sideTokens : list (string * string)) (rest : list (string * Modern.Contract))
    (address : string) :
  In address (map snd sideTokens) ->
  Modern.lookup address (Modern.assign_all (Modern.sidechain_wrappers sideTokens) rest)
  = Some {| Modern.address := address; Modern.abi := Modern.ChildERC20 |}.
Proof.
  intros Hin. apply in_map_iff in Hin. destruct Hin as (e & He & Hin).
  unfold Modern.lookup, Modern.assign_all. rewrite find_app_first.
  destruct (find_present (fun p : string * Modern.Contract => fst p =? address)
              (List.rev (Modern.sidechain_wrappers sideTokens))
              (address, {| Modern.address := address; Modern.abi := Modern.ChildERC20 |}))
    as (y & Hfind & Hy & Hkey).
  - apply -> in_rev. unfold Modern.sidechain_wrappers. apply in_map_iff.
    exists e. now rewrite He.
  - simpl. apply String.eqb_refl.
  - rewrite Hfind. simpl. apply in_rev in Hy. unfold Modern.sidechain_wrappers in Hy.
    apply in_map_iff in Hy. destruct Hy as (e' & <- & _). simpl in Hkey.
    apply String.eqb_eq in Hkey. now rewrite Hkey.
Qed.

Lemma mainchain_wrapper_found `{X : Modern.Externals}
    (mainTokens : list (string * string)) (rest : list (string * Modern.Contract))
    (address : string) :
  In address (map snd mainTokens) ->
  exists c,
    Modern.lookup address (Modern.assign_all (Modern.mainchain_wrappers mainTokens) rest)
    = Some c
    /\ Modern.address c = address /\ Modern.abi c <> Modern.ChildERC20.
Proof.
  intros Hin. apply in_map_iff in Hin. destruct Hin as (e & He & Hin).
  unfold Modern.lookup, Modern.assign_all. rewrite find_app_first.
  destruct (find_present (fun p : string * Modern.Contract => fst p =? address)
              (List.rev (Modern.mainchain_wrappers mainTokens))
              (address, {| Modern.address := address;
                           Modern.abi := if fst e =? Modern.Tokens_DAI
                                         then Modern.DAI else Modern.IERC20 |}))
    as (y & Hfind & Hy & Hkey).
  - apply -> in_rev. unfold Modern.mainchain_wrappers. apply in_map_iff.
    exists e. now rewrite He.
  - simpl. apply String.eqb_refl.
  - rewrite Hfind. simpl. exists (snd y). split; [reflexivity|].
    apply in_rev in Hy. unfold Modern.mainchain_wrappers in Hy.
    apply in_map_iff in Hy. destruct Hy as (e' & <- & _). simpl in *.
    apply String.eqb_eq in Hkey. split; [exact Hkey|].
    destruct (fst e' =? Modern.Tokens_DAI); discriminate.
Qed.

(** X18: after a successful init of the modern client every token address
    of the two networks has a contract wrapper under its own address.  An
    address of the sidechain table gets the ChildERC20 wrapper, even when it
    is also an address of the mainchain table, because the sidechain loop
    assigns last; any other mainchain address gets a DAI or IERC20 wrapper. *)
Theorem init_wraps_every_token `{X : Modern.Externals} (s s' : state Modern.SportX) :
  Modern.init s = (Resolved tt, s') ->
  exists mainTokens sideTokens,
    Modern.TOKEN_ADDRESSES (Modern.mainchainNetwork (this s)) = Some mainTokens
    /\ Modern.TOKEN_ADDRESSES (Modern.sidechainNetwork (this s)) = Some sideTokens
    /\ (forall address,
           In address (map snd sideTokens) ->
           Modern.lookup address (Modern.baseTokenWrappers (this s'))
           = Some {| Modern.address := address; Modern.abi := Modern.ChildERC20 |})
    /\ (forall address,
           In address (map snd mainTokens) ->
           ~ In address (map snd sideTokens) ->
           exists c,
             Modern.lookup address (Modern.baseTokenWrappers (this s')) = Some c
             /\ Modern.address c = address /\ Modern.abi c <> Modern.ChildERC20).
Proof.
  intros Hinit.
  destruct (modern_init_resolved s s' Hinit)
    as (text & body & rest & network & replies & mainTokens & sideTokens
        & _ & _ & _ & _ & _ & Hmain & Hside & Hwrap & _).
  exists mainTokens, sideTokens. split; [exact Hmain|]. split; [exact Hside|].
  rewrite Hwrap. split.
  - intros address Hin. now apply sidechain_wrapper_found.
  - intros address Hin Hnot.
    unfold Modern.lookup, Modern.assign_all at 1. rewrite find_app_first.
    destruct (find _ (List.rev (Modern.sidechain_wrappers sideTokens))) as [y|] eqn:Hfind.
    + exfalso. apply Hnot. destruct (find_some _ _ Hfind) as [Hy Hkey].
      apply in_rev in Hy. unfold Modern.sidechain_wrappers in Hy.
      apply in_map_iff in Hy. destruct Hy as (e & <- & He). simpl in Hkey.
      apply String.eqb_eq in Hkey. apply in_map_iff. eauto.
    + now apply mainchain_wrapper_found.
Qed.

Lemma init_wraps_every_token_demo :
  let s := {| this := ModernDemo.fresh;
              io := with_rpc [Some (JObj [("chainId", JNum 1)])]
                      (with_http [HttpReply 200 success_text]
                         (with_events [[Connect]] quiet_world)) |} in
  let s' := snd (Modern.init (X := ModernDemo.externals) s) in
  Modern.lookup "0xchilddai" (Modern.baseTokenWrappers (this s'))
  = Some {| Modern.address := "0xchilddai"; Modern.abi := Modern.ChildERC20 |}
  /\ exists c, Modern.lookup "0xdai" (Modern.baseTokenWrappers (this s')) = Some c
               /\ Modern.address c = "0xdai" /\ Modern.abi c <> Modern.ChildERC20.
Proof.
  intros s s'.
  assert (Hinit : Modern.init (X := ModernDemo.externals) s = (Resolved tt, s'))
    by (vm_compute; reflexivity).
  destruct (init_wraps_every_token (X := ModernDemo.externals) s s' Hinit)
    as (mainTokens & sideTokens & Hmain & Hside & Hchild & Hother).
  vm_compute in Hmain, Hside. inversion Hmain; subst mainTokens.
  inversion Hside; subst sideTokens. split.
  - apply Hchild. simpl. auto.
  - apply Hother.
    + simpl. auto.
    + simpl. intros [Heq|[]]. discriminate Heq.
Defined.

(** ** What makes a hand-built promise resolve *)

Section Causes.
Context {A : Type}.
Implicit Types (p : promise A) (ex : executor A).

Lemma acts_cause (l : list (action A)) (a : A) : forall p,
  unresolved p -> settled (fold_left act l p) = Resolved a -> In (DoResolve a) l.
Proof.
  induction l as [|x l IH]; intros p Hp Hres; simpl in *.
  - now elim (Hp a).
  - destruct (settled (act p x)) as [b| |] eqn:Hstep.
    + rewrite acts_settled in Hres by (unfold is_settled; rewrite Hstep; discriminate).
      rewrite Hstep in Hres. inversion Hres; subst b. left.
      destruct x; simpl in Hstep; try (now elim (Hp a)).
      * unfold settle in Hstep. destruct (settled p) eqn:Hsp; simpl in Hstep.
        -- now elim (Hp a).
        -- rewrite Hsp in Hstep. discriminate.
        -- now inversion Hstep.
      * unfold settle in Hstep. destruct (settled p) eqn:Hsp; simpl in Hstep.
        -- now elim (Hp a).
        -- rewrite Hsp in Hstep. discriminate.
        -- discriminate.
    + right. apply (IH (act p x)); auto. intros c. rewrite Hstep. discriminate.
    + right. apply (IH (act p x)); auto. intros c. rewrite Hstep. discriminate.
Qed.

Lemma firing_unresolved (l : list (N * error)) : forall p,
  unresolved p -> unresolved (fold_left (fun q t => settle (Rejected (snd t)) q) l p).
Proof.
  induction l as [|t l IH]; intros p Hp; simpl; [assumption|].
  apply IH. intros a. unfold settle.
  destruct (settled p) eqn:Hsp; simpl; [apply Hp | rewrite Hsp; discriminate | discriminate].
Qed.

Lemma deliveries_cause ex evs (a : A) : forall p,
  unresolved p ->
  settled (fold_left (deliver ex) evs p) = Resolved a ->
  exists e, In e evs /\ In (DoResolve a) (on_event ex e).
Proof.
  induction evs as [|ev evs IH]; intros p Hp Hres; simpl in *.
  - now elim (Hp a).
  - destruct (settled (deliver ex p ev)) as [b| |] eqn:Hstep.
    + rewrite deliveries_settled in Hres
        by (unfold is_settled; rewrite Hstep; discriminate).
      rewrite Hstep in Hres. inversion Hres; subst b.
      exists ev. split; [now left|].
      destruct ev; simpl in Hstep; try (now apply (acts_cause _ a p)).
      exfalso. unfold advance in Hstep.
      eapply firing_unresolved; [|exact Hstep]. intros c. simpl. apply Hp.
    + destruct (IH (deliver ex p ev)) as (e' & He & Hin); auto.
      * intros c. rewrite Hstep. discriminate.
      * exists e'. auto.
    + destruct (IH (deliver ex p ev)) as (e' & He & Hin); auto.
      * intros c. rewrite Hstep. discriminate.
      * exists e'. auto.
Qed.

(** A promise whose executor does not resolve on its own resolves only by
    a callback that some delivered event triggers. *)
Lemma resolution_cause ex evs (a : A) :
  (forall x, ~ In (DoResolve x) (on_start ex)) ->
  settled (run_promise ex evs) = Resolved a ->
  exists e, In e evs /\ In (DoResolve a) (on_event ex e).
Proof.
  intros Hstart Hres. unfold run_promise in Hres.
  apply (deliveries_cause ex evs a (start ex)); auto.
  intros x Hx. apply (Hstart x). unfold start in Hx.
  apply (acts_cause _ x _) in Hx; auto. intros c. simpl. discriminate.
Qed.

End Causes.

(** ** Initialisation of the legacy client *)

Lemma legacy_init_resolved `{X : Legacy.Externals} (s s' : state Legacy.SportX) :
  Legacy.init s = (Resolved tt, s') ->
  Legacy.initialized (this s) = false
  /\ settled (run_promise Legacy.init_promise (hd [] (events (io s)))) = Resolved tt
  /\ settled (run_promise Legacy.getMetadata_promise (hd [] (tl (events (io s)))))
     = Resolved (Legacy.metadata (this s'))
  /\ Legacy.clientSocket (this s') = Some (Legacy.relayerUrl (this s))
  /\ Legacy.initialized (this s') = true
  /\ Legacy.signingWallet (this s') = Legacy.signingWallet (this s)
  /\ Legacy.relayerUrl (this s') = Legacy.relayerUrl (this s)
  /\ events (io s') = tl (tl (events (io s))).
Proof.
  destruct s as [self w].
  unfold Legacy.init, Legacy.getMetadata, Legacy.socket, await_on_socket.
  step.
  repeat (case_goal; step); intros Hr; try discriminate Hr.
  inversion Hr; subst; clear Hr; simpl.
  match goal with u : unit |- _ => destruct u end.
  repeat split; assumption.
Qed.

(** X19: an init of the legacy client that succeeds has seen the socket
    connect, and caches as metadata a value that the relayer pushed on the
    metadata key while getMetadata was waiting; it leaves the socket opened
    on the relayer url and the flag set. *)
Theorem legacy_init_caches_the_pushed_metadata `{X : Legacy.Externals}
    (s s' : state Legacy.SportX) :
  Legacy.init s = (Resolved tt, s') ->
  In Connect (hd [] (events (io s)))
  /\ In (Push (Legacy.WEBSOCKET_MESSAGE_KEYS Legacy.METADATA) (Legacy.metadata (this s')))
        (hd [] (tl (events (io s))))
  /\ Legacy.clientSocket (this s') = Some (Legacy.relayerUrl (this s))
  /\ Legacy.initialized (this s') = true.
Proof.
  intros Hinit.
  destruct (legacy_init_resolved s s' Hinit)
    as (_ & Hconnect & Hpush & Hsocket & Hflag & _).
  repeat split; auto.
  - apply resolution_cause in Hconnect; [|intros x []].
    destruct Hconnect as (e & He & Hcause).
    destruct e; simpl in Hcause; try contradiction. exact He.
  - apply resolution_cause in Hpush; [|intros x [Hx|[]]; discriminate Hx].
    destruct Hpush as (e & He & Hcause).
    destruct e; simpl in Hcause; try contradiction.
    + destruct (key =? Legacy.WEBSOCKET_MESSAGE_KEYS Legacy.METADATA) eqn:Hkey;
        simpl in Hcause; [|contradiction].
      apply String.eqb_eq in Hkey. subst key.
      destruct Hcause as [Hx|[Hx|[Hx|[]]]]; try discriminate Hx.
      inversion Hx; subst. exact He.
    + destruct (Legacy.is_success response); simpl in Hcause; [contradiction|].
      destruct Hcause as [Hx|[]]. discriminate Hx.
Qed.

Lemma legacy_init_caches_the_pushed_metadata_demo :
  let s := {| this := LegacyDemo.fresh;
              io := with_events [[Tick 5; Connect];
                                 [Push "markets" JNull; Push "metadata" LegacyDemo.metadata]]
                      quiet_world |} in
  let s' := snd (Legacy.init (X := LegacyDemo.externals) s) in
  Legacy.init (X := LegacyDemo.externals) s = (Resolved tt, s')
  /\ In (Push "metadata" (Legacy.metadata (this s')))
        [Push "markets" JNull; Push "metadata" LegacyDemo.metadata]
  /\ Legacy.initialized (this s') = true.
Proof.
  intros s s'.
  assert (Hinit : Legacy.init (X := LegacyDemo.externals) s = (Resolved tt, s'))
    by (vm_compute; reflexivity).
  destruct (legacy_init_caches_the_pushed_metadata (X := LegacyDemo.externals) s s' Hinit)
    as (_ & Hpush & _ & Hflag).
  split; [exact Hinit|]. split; [exact Hpush | exact Hflag].
Defined.

(** ** Calls that only read *)

Lemma debug_lines_sign_nothing n : Forall (fun e => is_signing e = false) (repeat EDebug n).
Proof.
  induction n; simpl; constructor; auto.
Qed.

Ltac nothing_added :=
  split; [|reflexivity];
  first [ exists []; split; [symmetry; apply app_nil_r | constructor]
        | repeat rewrite <- app_assoc; cbn [app];
          eexists; split;
          [reflexivity
          | repeat first [apply debug_lines_sign_nothing
                         | apply Forall_cons; [reflexivity|]
                         | apply Forall_app; split
                         | apply Forall_nil]] ].

Ltac reads_only :=
  unfold nothing_signed;
  unfold Modern.tryParseResponse, Modern.data_field, Legacy.fetch_data, Legacy.read2;
  unfold fetch, providerCall, await_promise, await_on_socket;
  step; repeat (case_goal; step); nothing_added.

(** X20: the calls that only read never sign and never draw random bytes,
    whatever the arguments, the instance, the answers and the outcome: in
    the modern client every call but newOrder, fillOrders, cancelOrder and
    approveSportXContractsDai, in the legacy client every call but newOrder
    and cancelOrder. *)
Theorem queries_never_sign `{LX : Legacy.Externals} `{MX : Modern.Externals} :
  (forall (c : call) (s : state Modern.SportX),
      is_query c = true -> nothing_signed (io s) (io (snd (run c s))))
  /\ (forall (s : state Legacy.SportX) (text : string),
         nothing_signed (io s) (io (snd (Legacy.init s)))
         /\ nothing_signed (io s) (io (snd (Legacy.getMetadata s)))
         /\ nothing_signed (io s) (io (snd (Legacy.getLeagues s)))
         /\ nothing_signed (io s) (io (snd (Legacy.getSports s)))
         /\ nothing_signed (io s) (io (snd (Legacy.getActiveMarkets s)))
         /\ nothing_signed (io s) (io (snd (Legacy.getRecentPendingBets text s)))
         /\ nothing_signed (io s) (io (snd (Legacy.getOrders text s)))
         /\ nothing_signed (io s) (io (snd (Legacy.getActiveOrders text s)))).
Proof.
  split.
  - intros c s Hq. destruct s as [self w].
    destruct c; try discriminate Hq; cbn [run];
      unfold Modern.getMetadata, Modern.getLeagues, Modern.getSports, Modern.getActiveMarkets,
        Modern.marketLookup, Modern.suggestOrders, Modern.getPendingOrFailedBets,
        Modern.getTrades, Modern.getOrders;
      reads_only.
  - intros s text. destruct s as [self w].
    repeat match goal with |- _ /\ _ => split end;
      unfold Legacy.init, Legacy.getMetadata, Legacy.getLeagues, Legacy.getSports,
        Legacy.getActiveMarkets, Legacy.getRecentPendingBets, Legacy.getOrders,
        Legacy.getActiveOrders;
      reads_only.
Qed.

Lemma queries_never_sign_demo :
  let s := {| this := ModernDemo.ready;
              io := with_http [HttpReply 200 success_text] quiet_world |} in
  nothing_signed (io s)
    (io (snd (Modern.suggestOrders (X := ModernDemo.externals)
                "0xmarket" "10" (JBool true) "0xtaker" "0xdai" s))).
Proof.
  intros s.
  destruct (queries_never_sign (LX := LegacyDemo.externals) (MX := ModernDemo.externals))
    as [Hmodern _].
  apply (Hmodern (SuggestOrders "0xmarket" "10" (JBool true) "0xtaker" "0xdai") s).
  reflexivity.
Defined.

(** ** Requests of the modern client *)

(** X21: approveSportXContractsDai posts the permit it signs.  With the DAI
    wrapper in place and a nonce of at most 53 bits read from the token
    contract, it has the credential of the instance sign the typed permit
    payload for the cached chain id and the DAI address, and posts that
    permit with the signature the signer returned; the permit names the
    signer as holder, the transfer proxy of the environment as spender, the
    nonce just read, no expiry, and allows.  A nonce of more than 53 bits
    makes toNumber throw: nothing is signed or posted then. *)
Theorem approval_posts_the_signed_permit `{X : Modern.Externals} (s : state Modern.SportX)
    (tokens : list (string * string)) (dai : string) (wrapper : Modern.Contract)
    (nonce : Z) (replies : list (option jsval)) :
  has_credential (this s) ->
  Modern.TOKEN_ADDRESSES (Modern.mainchainNetwork (this s)) = Some tokens ->
  Modern.lookup Modern.Tokens_DAI tokens = Some dai ->
  Modern.lookup dai (Modern.baseTokenWrappers (this s)) = Some wrapper ->
  rpc (io s) = Some (JNum nonce) :: replies ->
  ((Z.abs nonce < 2 ^ 53)%Z ->
   exists (permit : ModernData.IPermit.t) (e : effect) (signature : string),
     begins_with Modern.approveSportXContractsDai s
       [EProviderCall "nonces"; e;
        EFetch (Modern.url_of (this s) Modern.DAI_APPROVAL)
          (Some (PDaiApproval permit signature))]
     /\ signs_typed (this s)
          (Modern.getDaiPermitEIP712Payload permit (Modern.mainchainChainId (this s)) dai)
          e signature
     /\ is_signing e = true
     /\ signed_data e
        = Some (Modern.getDaiPermitEIP712Payload permit (Modern.mainchainChainId (this s)) dai)
     /\ permit
        = {| ModernData.IPermit.holder :=
               Modern.getAddress (Modern.mainchainSigningWallet (this s));
             ModernData.IPermit.spender :=
               Modern.TOKEN_TRANSFER_PROXY_ADDRESS (Modern.environment (this s));
             ModernData.IPermit.nonce := nonce;
             ModernData.IPermit.expiry := 0;
             ModernData.IPermit.allowed := true |})
  /\ ((2 ^ 53 <= Z.abs nonce)%Z ->
      fst (Modern.approveSportXContractsDai s) = Rejected LibraryError
      /\ trace (io (snd (Modern.approveSportXContractsDai s)))
         = (trace (io s) ++ [EProviderCall "nonces"])%list).
Proof.
  intros Hcred Htokens Hdai Hwrap Hrpc. split.
  - intros Hsmall. apply Z.ltb_lt in Hsmall.
    pose (permit := {| ModernData.IPermit.holder :=
                         Modern.getAddress (Modern.mainchainSigningWallet (this s));
                       ModernData.IPermit.spender :=
                         Modern.TOKEN_TRANSFER_PROXY_ADDRESS (Modern.environment (this s));
                       ModernData.IPermit.nonce := nonce;
                       ModernData.IPermit.expiry := 0;
                       ModernData.IPermit.allowed := true |}).
    pose (s1 := {| this := this s;
                   io := {| trace := (trace (io s) ++ [EProviderCall "nonces"])%list;
                            entropy := entropy (io s);
                            consumed := consumed (io s);
                            http := http (io s); events := events (io s);
                            rpc := replies; listeners := listeners (io s) |} |}).
    destruct (getEip712Signature_by_credential
                (Modern.getDaiPermitEIP712Payload permit (Modern.mainchainChainId (this s)) dai)
                s1 Hcred)
      as (e & sig & Hsign & Hby).
    destruct (signs_typed_signs _ _ _ _ Hby) as [Hsigning Hdata].
    exists permit, e, sig.
    split; [|split; [exact Hby|split; [exact Hsigning|split; [exact Hdata|reflexivity]]]].
    unfold begins_with, Modern.approveSportXContractsDai.
    step. rewrite Htokens. step. rewrite Hdai. step. rewrite Hwrap. step.
    unfold providerCall. step. rewrite Hrpc. step. rewrite Hsmall. step.
    fold permit. fold s1. rewrite Hsign. subst s1. step.
    unfold fetch, Modern.tryParseResponse; step.
    repeat (case_goal; step); trace_prefix.
  - intros Hbig. apply Z.ltb_ge in Hbig.
    unfold Modern.approveSportXContractsDai.
    step. rewrite Htokens. step. rewrite Hdai. step. rewrite Hwrap. step.
    unfold providerCall. step. rewrite Hrpc. step. rewrite Hbig. step.
    split; reflexivity.
Qed.

Lemma approval_posts_the_signed_permit_demo :
  let self := Modern.with_baseTokenWrappers
                [("0xdai", {| Modern.address := "0xdai"; Modern.abi := Modern.DAI |})]
                ModernDemo.ready in
  let s := {| this := self;
              io := with_rpc [Some (JNum 7)]
                      (with_http [HttpReply 200 success_text] quiet_world) |} in
  begins_with (Modern.approveSportXContractsDai (X := ModernDemo.externals)) s
    [EProviderCall "nonces";
     ESignTypedData "0xkey"
       (JObj [("primaryType", JStr "Permit"); ("chainId", JNum 1);
              ("verifyingContract", JStr "0xdai"); ("holder", JStr "address-of-0xkey")]);
     EFetch "https://relayer/user/approve-proxy"
       (Some (PDaiApproval
                {| ModernData.IPermit.holder := "address-of-0xkey";
                   ModernData.IPermit.spender := "0xproxy";
                   ModernData.IPermit.nonce := 7;
                   ModernData.IPermit.expiry := 0;
                   ModernData.IPermit.allowed := true |}
                "0xtyped-signature-by-0xkey"))].
Proof.
  intros self s.
  destruct (approval_posts_the_signed_permit (X := ModernDemo.externals) s
              [("DAI", "0xdai"); ("WETH", "0xweth")] "0xdai"
              {| Modern.address := "0xdai"; Modern.abi := Modern.DAI |} 7 [])
    as [Hsmall _].
  - left. exists "0xkey". split; [reflexivity|discriminate].
  - reflexivity.
  - reflexivity.
  - reflexivity.
  - reflexivity.
  - destruct Hsmall as (permit & e & signature & Hrun & Hby & _ & _ & Hpermit);
      [reflexivity|].
    subst permit.
    inversion Hby as [key Hkey Hne He Hsig|p Hnokey Hp He Hsig]; subst e signature.
    + simpl in Hkey. inversion Hkey; subst key. exact Hrun.
    + simpl in Hp. discriminate Hp.
Defined.

(** X22: getOrders posts a filter object that holds exactly the arguments
    that are truthy, each under its own name: an argument left out, null or
    the empty string adds no key, and an empty array of market hashes is
    still sent. *)
Theorem getOrders_posts_the_given_filters `{X : Modern.Externals}
    (marketHashes maker baseToken : jsval) (s : state Modern.SportX) :
  (truthy marketHashes = true ->
   Modern.every Modern.isHexString marketHashes = Some true) ->
  truthy maker && negb (Modern.isAddress maker) = false ->
  truthy baseToken && negb (Modern.isAddress baseToken) = false ->
  exists fields,
    begins_with (Modern.getOrders marketHashes maker baseToken) s
      [EDebug; EFetch (Modern.url_of (this s) Modern.ORDERS) (Some (PJson (JObj fields)))]
    /\ forall k v,
         In (k, v) fields
         <-> truthy v = true
             /\ In (k, v) [("marketHashes", marketHashes); ("maker", maker);
                           ("baseToken", baseToken)].
Proof.
  intros Hhashes Hmaker Htoken.
  exists (Modern.spread "marketHashes" marketHashes ++ Modern.spread "maker" maker
          ++ Modern.spread "baseToken" baseToken)%list.
  split.
  - unfold begins_with, Modern.getOrders. rewrite Hmaker, Htoken.
    destruct (truthy marketHashes) eqn:Htruthy;
      [rewrite (Hhashes eq_refl)|];
      unfold fetch, Modern.tryParseResponse; step; cbn [negb];
      repeat (case_goal; step); trace_prefix.
  - intros k v. unfold Modern.spread.
    destruct (truthy marketHashes) eqn:H1; destruct (truthy maker) eqn:H2;
      destruct (truthy baseToken) eqn:H3; simpl; split;
      intros H;
      repeat match goal with
             | H : _ /\ _ |- _ => destruct H
             | H : _ \/ _ |- _ => destruct H
             | H : False |- _ => contradiction
             | H : (_, _) = (_, _) |- _ => inversion H; subst; clear H
             end;
      try congruence; auto 6.
Qed.

Lemma getOrders_posts_the_given_filters_demo :
  let s := {| this := ModernDemo.ready;
              io := with_http [HttpReply 200 success_text] quiet_world |} in
  exists fields,
    begins_with (Modern.getOrders (X := ModernDemo.externals)
                   (JArr []) (JStr "") (JStr "0xdai")) s
      [EDebug; EFetch "https://relayer/orders" (Some (PJson (JObj fields)))]
    /\ In ("marketHashes", JArr []) fields
    /\ In ("baseToken", JStr "0xdai") fields
    /\ ~ In ("maker", JStr "") fields.
Proof.
  intros s.
  destruct (getOrders_posts_the_given_filters (X := ModernDemo.externals)
              (JArr []) (JStr "") (JStr "0xdai") s)
    as (fields & Hrun & Hfields).
  - reflexivity.
  - reflexivity.
  - reflexivity.
  - exists fields. split; [exact Hrun|]. repeat split.
    + apply Hfields. simpl. auto.
    + apply Hfields. simpl. auto.
    + intros Hin. apply Hfields in Hin. destruct Hin as [Hv _]. discriminate Hv.
Defined.

(** X23: the realtime connection of the modern client is made by init and
    by nothing before it.  A constructed instance has none; an init that
    passes the guard leaves the connection made with the token url of the
    relayer, whether it then succeeds, fails or never returns; a refused
    init leaves the connection it found. *)
Theorem init_makes_the_realtime_connection `{X : Modern.Externals}
    `{K : ModernConstruction.Constants} :
  (forall env sidechainProviderUrl privateKey mainchainProviderUrl mainchainProvider self,
      ModernConstruction.constructor env sidechainProviderUrl privateKey
        mainchainProviderUrl mainchainProvider = inr self ->
      getRealtimeConnection self = None)
  /\ (forall s : state Modern.SportX,
         Modern.initialized (this s) = false ->
         getRealtimeConnection (this (snd (Modern.init s)))
         = Some (Modern.relayerUrl (this s) ++ "/user/token"))
  /\ (forall s : state Modern.SportX,
         Modern.initialized (this s) = true ->
         getRealtimeConnection (this (snd (Modern.init s)))
         = getRealtimeConnection (this s)).
Proof.
  split; [|split].
  - intros env url key mainUrl provider self.
    unfold ModernConstruction.constructor.
    repeat (case_goal; try discriminate). intros Hself. inversion Hself. reflexivity.
  - intros [self w] Hflag. simpl in Hflag.
    unfold getRealtimeConnection, Modern.init, Modern.getMetadata, Modern.tryParseResponse,
      await_promise, fetch, providerCall.
    step. rewrite Hflag.
    repeat (case_goal; step); reflexivity.
  - intros s Hflag. now rewrite (modern_init_refused s Hflag).
Qed.

Lemma init_makes_the_realtime_connection_demo :
  let s := {| this := ModernDemo.fresh;
              io := with_http [HttpFailure] (with_events [[Connect]] quiet_world) |} in
  fst (Modern.init (X := ModernDemo.externals) s) = Rejected NetworkError
  /\ getRealtimeConnection (this (snd (Modern.init (X := ModernDemo.externals) s)))
     = Some "https://relayer/user/token".
Proof.
  intros s. split; [vm_compute; reflexivity|].
  destruct (init_makes_the_realtime_connection (X := ModernDemo.externals)
              (K := modern_constants)) as (_ & Hinit & _).
  apply (Hinit s). reflexivity.
Defined.
